(** * check_rds_mysql: threshold engine, metric sampler and aggregation

    A shallow embedding of [check_rds_mysql.py] and the properties of its
    threshold evaluation ([compare_range], [compare]), unit expansion
    ([expand_unit]), bounded-retry sampler ([Metric.get_statistics],
    [Metric.get_current_value]) and the aggregation done by [main].

    Modelling conventions.
    - A Python [str] is a Rocq [string]; a character is a code point below 256.
    - A Python exception is a constructor of [exn]; code that can raise returns
      a [result].  [sys.exit(n)] is the exception [SystemExit n].
    - A Python [float] is a [pyfloat]: a binary64 value, given as the rational
      it stands for, the negative zero, an infinity or NaN.  [float], the
      true division of integers and the arithmetic on floats round to the
      nearest binary64 value, ties to even, with overflow and underflow
      ([round_float]).  The statistic of a datapoint is a finite float given
      by its value.
    - The collaborators (RDS, EC2, CloudWatch) are oracles of the record
      [collaborators]; every call and every printed line is appended to the
      trace of the [world]. *)

From Stdlib Require Import ZArith QArith Qpower Qround Bool List Ascii String
  Lia Permutation DecimalString.
From Stdlib Require DecimalPos.
Import ListNotations.

Local Open Scope Z_scope.
Local Open Scope string_scope.

(* ===================================================================== *)
(** ** Exceptions and results *)
(* ===================================================================== *)

Inductive exn : Type :=
| TypeError
| ValueError
| IndexError
| AttributeError
| ZeroDivisionError
| RuntimeError
| RecursionError
| OverflowError
| ClientError (msg : string)      (* botocore's BotoCoreError / ClientError *)
| SystemExit (code : Z).

Inductive result (A : Type) : Type :=
| Ok (a : A)
| Raise (e : exn).
Arguments Ok {A} a.
Arguments Raise {A} e.

Definition rbind {A B} (r : result A) (k : A -> result B) : result B :=
  match r with
  | Ok a => k a
  | Raise e => Raise e
  end.

Declare Scope result_scope.
Delimit Scope result_scope with result.
Notation "x <- r ;; k" := (rbind r (fun x => k))
  (at level 61, r at next level, right associativity) : result_scope.

(** A generator expression consumed in order: the first exception wins. *)
Fixpoint rmap {A B} (f : A -> result B) (l : list A) : result (list B) :=
  match l with
  | [] => Ok []
  | a :: l' =>
      (b <- f a ;;
       bs <- rmap f l' ;;
       Ok (b :: bs))%result
  end.

(** The interpreter's recursion limit, [sys.getrecursionlimit()]. *)
Definition recursion_limit : nat := 1000.

(* ===================================================================== *)
(** ** Floats *)
(* ===================================================================== *)

Inductive pyfloat : Type :=
| Fin (q : Q)                     (* a finite value; [Fin 0] is [0.0] *)
| NegZero                         (* [-0.0] *)
| Inf (negative : bool)
| NaN.

(** [x < y] and [x <= y] on floats; every comparison with NaN is false, and
    the two zeros are equal. *)
Definition float_lt (x y : pyfloat) : bool :=
  match x, y with
  | NaN, _ | _, NaN => false
  | Fin a, Fin b => negb (Qle_bool b a)
  | Fin a, NegZero => negb (Qle_bool 0 a)
  | NegZero, Fin b => negb (Qle_bool b 0)
  | NegZero, NegZero => false
  | Fin _, Inf neg | NegZero, Inf neg => negb neg
  | Inf neg, Fin _ | Inf neg, NegZero => neg
  | Inf n1, Inf n2 => n1 && negb n2
  end.

Definition float_le (x y : pyfloat) : bool :=
  match x, y with
  | NaN, _ | _, NaN => false
  | Fin a, Fin b => Qle_bool a b
  | Fin a, NegZero => Qle_bool a 0
  | NegZero, Fin b => Qle_bool 0 b
  | NegZero, NegZero => true
  | Fin _, Inf neg | NegZero, Inf neg => negb neg
  | Inf neg, Fin _ | Inf neg, NegZero => neg
  | Inf n1, Inf n2 => n1 || negb n2
  end.

(** [-x]. *)
Definition float_neg (x : pyfloat) : pyfloat :=
  match x with
  | Fin q => if Z.eqb (Qnum q) 0 then NegZero else Fin (- q)
  | NegZero => Fin 0
  | Inf n => Inf (negb n)
  | NaN => NaN
  end.

(* ===================================================================== *)
(** ** Rounding to binary64 *)
(* ===================================================================== *)

(** The integer nearest to [n / d] for [d > 0], ties to the even one. *)
Definition round_half_even (n d : Z) : Z :=
  let k := n / d in
  match Z.compare (2 * (n mod d)) d with
  | Lt => k
  | Gt => k + 1
  | Eq => if Z.even k then k else k + 1
  end.

(** [n / d] over [2 ^ p], as a fraction. *)
Definition scale2 (n d p : Z) : Z * Z :=
  if Z.leb 0 p then (n, d * 2 ^ p) else (n * 2 ^ (- p), d).

(** The exponent [e] with [2 ^ e <= n / d < 2 ^ (e + 1)], for [n, d > 0]. *)
Definition binade (n d : Z) : Z :=
  let e0 := Z.log2 n - Z.log2 d in
  let (n', d') := scale2 n d e0 in
  if Z.ltb n' d' then e0 - 1 else e0.

(** The binary64 value nearest to [n / d] for [n, d > 0]: 53 significant
    bits, the unit in the last place never below [2 ^ -1074] (subnormal
    numbers, underflow to zero), and infinity from [2 ^ 1024] on. *)
Definition round_pos (n d : Z) : pyfloat :=
  let p := Z.max (binade n d - 52) (-1074) in
  let (n', d') := scale2 n d p in
  let m := round_half_even n' d' in
  if Z.leb 0 p then
    if Z.leb (2 ^ 1024) (m * 2 ^ p) then Inf false else Fin (inject_Z (m * 2 ^ p))
  else Fin (Qred (m # Z.to_pos (2 ^ (- p)))).

(** The binary64 value nearest to a rational, ties to even. *)
Definition round_float (q : Q) : pyfloat :=
  match Qnum q with
  | 0 => Fin 0
  | Zpos n => round_pos (Zpos n) (Zpos (Qden q))
  | Zneg n => float_neg (round_pos (Zpos n) (Zpos (Qden q)))
  end.

(* ===================================================================== *)
(** ** Arithmetic on floats *)
(* ===================================================================== *)

(** The sign bit. *)
Definition float_sign (x : pyfloat) : bool :=
  match x with
  | Fin q => Z.ltb (Qnum q) 0
  | NegZero => true
  | Inf n => n
  | NaN => false
  end.

Definition float_is_zero (x : pyfloat) : bool :=
  match x with
  | Fin q => Z.eqb (Qnum q) 0
  | NegZero => true
  | _ => false
  end.

Definition signed_zero (negative : bool) : pyfloat :=
  if negative then NegZero else Fin 0.

(** [x + y]: an exact zero sum is [0.0] unless both operands are [-0.0]. *)
Definition float_add (x y : pyfloat) : pyfloat :=
  match x, y with
  | NaN, _ | _, NaN => NaN
  | Inf a, Inf b => if Bool.eqb a b then Inf a else NaN
  | Inf a, _ => Inf a
  | _, Inf b => Inf b
  | NegZero, _ => y
  | _, NegZero => x
  | Fin a, Fin b => round_float (a + b)
  end.

(** [x - y]. *)
Definition float_sub (x y : pyfloat) : pyfloat := float_add x (float_neg y).

(** [x * y]. *)
Definition float_mul (x y : pyfloat) : pyfloat :=
  let negative := xorb (float_sign x) (float_sign y) in
  match x, y with
  | NaN, _ | _, NaN => NaN
  | Inf _, _ => if float_is_zero y then NaN else Inf negative
  | _, Inf _ => if float_is_zero x then NaN else Inf negative
  | Fin a, Fin b =>
      if float_is_zero x || float_is_zero y then signed_zero negative
      else round_float (a * b)
  | _, _ => signed_zero negative
  end.

(** [x / y]: a zero divisor is an error, whatever [x] is. *)
Definition float_truediv (x y : pyfloat) : result pyfloat :=
  let negative := xorb (float_sign x) (float_sign y) in
  if float_is_zero y then Raise ZeroDivisionError
  else
    Ok match x, y with
       | NaN, _ | _, NaN => NaN
       | Inf _, Inf _ => NaN
       | Inf _, _ => Inf negative
       | _, Inf _ => signed_zero negative
       | Fin a, Fin b =>
           if float_is_zero x then signed_zero negative else round_float (a / b)
       | _, _ => signed_zero negative
       end.

(** [float(n)] for an [int], also the conversion of an [int] operand of a
    float operation: an [int] beyond the range is an error. *)
Definition float_of_int (n : Z) : result pyfloat :=
  match round_float (inject_Z n) with
  | Inf _ => Raise OverflowError
  | x => Ok x
  end.

(** [a / b] on two [int]s: the quotient correctly rounded, an error when
    it is beyond the range. *)
Definition int_truediv (a b : Z) : result pyfloat :=
  if Z.eqb b 0 then Raise ZeroDivisionError
  else if Z.eqb a 0 then Ok (signed_zero (Z.ltb b 0))
  else
    match round_float (Qmake (a * Z.sgn b) (Z.to_pos (Z.abs b))) with
    | Inf _ => Raise OverflowError
    | x => Ok x
    end.

(** [int(x)]: truncation towards zero. *)
Definition int_of_float (x : pyfloat) : result Z :=
  match x with
  | Fin q => Ok (Z.quot (Qnum q) (Zpos (Qden q)))
  | NegZero => Ok 0
  | Inf _ => Raise OverflowError
  | NaN => Raise ValueError
  end.

(* ===================================================================== *)
(** ** Python values the thresholds can take *)
(* ===================================================================== *)

(** What [expand_unit] can hand to [compare_range]: an [int] or a [str]. *)
Inductive pyval : Type :=
| PyInt (z : Z)
| PyStr (s : string).

(* ===================================================================== *)
(** ** String built-ins *)
(* ===================================================================== *)

(** [c in s] for a one-character [c]. *)
Fixpoint str_contains (c : ascii) (s : string) : bool :=
  match s with
  | EmptyString => false
  | String a s' => Ascii.eqb a c || str_contains c s'
  end.

(** [s.split(sep)] for a one-character separator: never the empty list. *)
Fixpoint str_split (sep : ascii) (s : string) : list string :=
  match s with
  | EmptyString => [EmptyString]
  | String a s' =>
      if Ascii.eqb a sep then EmptyString :: str_split sep s'
      else match str_split sep s' with
           | h :: t => String a h :: t
           | [] => [String a EmptyString]
           end
  end.

(** [sep.join(l)]. *)
Definition str_join (sep : string) (l : list string) : string :=
  String.concat sep l.

(** [s.endswith(suffix)]: some tail of [s] is [suffix]. *)
Fixpoint str_endswith (s suffix : string) : bool :=
  String.eqb s suffix ||
  match s with
  | EmptyString => false
  | String _ s' => str_endswith s' suffix
  end.

(** [s.startswith(p)]. *)
Definition str_startswith (s p : string) : bool := String.prefix p s.

(** [s[:-n]] for [n > 0]. *)
Definition str_drop_last (n : nat) (s : string) : string :=
  String.substring 0 (String.length s - n)%nat s.

(** [l[i]] on a list. *)
Definition list_index {A} (l : list A) (i : nat) : result A :=
  match nth_error l i with
  | Some a => Ok a
  | None => Raise IndexError
  end.

(** [str(n)] for an [int]. *)
Definition str_of_int (z : Z) : string := NilZero.string_of_int (Z.to_int z).

(** [str(v)]. *)
Definition py_str (v : pyval) : string :=
  match v with
  | PyInt z => str_of_int z
  | PyStr s => s
  end.

(* ===================================================================== *)
(** ** [int(str)] and [float(str)] *)
(* ===================================================================== *)

Definition code (c : ascii) : N := N_of_ascii c.

(** White space stripped by [int] and [float]: tab to carriage return,
    space, and the two Latin-1 spaces NEL and NBSP. *)
Definition is_space (c : ascii) : bool :=
  let n := code c in
  (((9 <=? n) && (n <=? 13)) || (n =? 32) || (n =? 133) || (n =? 160))%N.

Definition is_digit (c : ascii) : bool :=
  let n := code c in ((48 <=? n) && (n <=? 57))%N.

Definition digit_value (c : ascii) : Z := Z.of_N (code c) - 48.

Fixpoint lstrip (l : list ascii) : list ascii :=
  match l with
  | c :: l' => if is_space c then lstrip l' else l
  | [] => []
  end.

Definition strip (l : list ascii) : list ascii :=
  rev (lstrip (rev (lstrip l))).

Definition take_sign (l : list ascii) : bool * list ascii :=
  match l with
  | "+"%char :: r => (false, r)
  | "-"%char :: r => (true, r)
  | _ => (false, l)
  end.

(** A digit part: decimal digits, single underscores allowed between two
    digits only.  [after_digit] tells whether the previous character was a
    digit; a digit part is not empty and ends with a digit. *)
Fixpoint digitpart (acc : Z) (after_digit : bool) (l : list ascii) : option Z :=
  match l with
  | [] => if after_digit then Some acc else None
  | c :: l' =>
      if is_digit c then digitpart (10 * acc + digit_value c) true l'
      else if Ascii.eqb c "_" then
             (if after_digit then digitpart acc false l' else None)
      else None
  end.

(** [int(s)], base 10, with integers of any size: the limit some
    interpreters put on the number of digits is not modelled. *)
Definition py_int (s : string) : result Z :=
  let (neg, body) := take_sign (strip (list_ascii_of_string s)) in
  match digitpart 0 false body with
  | Some n => Ok (if neg then - n else n)
  | None => Raise ValueError
  end.

Definition lower (c : ascii) : ascii :=
  let n := code c in
  if ((65 <=? n) && (n <=? 90))%N then ascii_of_N (n + 32) else c.

(** Cut a list at the first character satisfying [p]; the cut character is
    dropped, [None] when there is none. *)
Fixpoint break_at (p : ascii -> bool) (l : list ascii)
  : list ascii * option (list ascii) :=
  match l with
  | [] => ([], None)
  | c :: l' =>
      if p c then ([], Some l')
      else let (a, b) := break_at p l' in (c :: a, b)
  end.

Definition is_dot (c : ascii) : bool := Ascii.eqb c ".".
Definition is_e (c : ascii) : bool := Ascii.eqb c "e" || Ascii.eqb c "E".

Definition chars_eqb (a : list ascii) (b : string) : bool :=
  String.eqb (string_of_list_ascii a) b.

(** The exponent of a float literal: [[sign] digitpart]. *)
Definition parse_exponent (l : list ascii) : option Z :=
  let (neg, d) := take_sign l in
  match digitpart 0 false d with
  | Some n => Some (if neg then - n else n)
  | None => None
  end.

(** The mantissa [[digitpart] "." digitpart | digitpart ["."]]: its digits
    read as one integer, and the number of digits after the point. *)
Definition parse_mantissa (l : list ascii) : option (Z * Z) :=
  match break_at is_dot l with
  | (ip, None) =>
      match digitpart 0 false ip with
      | Some i => Some (i, 0)
      | None => None
      end
  | ([], Some []) => None
  | (ip, Some fp) =>
      let k := Z.of_nat (List.length (filter is_digit fp)) in
      match (match ip with [] => Some 0 | _ => digitpart 0 false ip end),
            (match fp with [] => Some 0 | _ => digitpart 0 false fp end) with
      | Some i, Some f => Some (i * 10 ^ k + f, k)
      | _, _ => None
      end
  end.

(** An unsigned float literal. *)
Definition parse_absfloat (l : list ascii) : option pyfloat :=
  let low := map lower l in
  if chars_eqb low "inf" || chars_eqb low "infinity" then Some (Inf false)
  else if chars_eqb low "nan" then Some NaN
  else
    let (mant, ex) := break_at is_e l in
    match parse_mantissa mant,
          (match ex with None => Some 0 | Some x => parse_exponent x end) with
    | Some (m, k), Some e =>
        Some (round_float (inject_Z m * Qpower (inject_Z 10) (e - k)))
    | _, _ => None
    end.

(** [float(s)] for a string: the literal correctly rounded, an infinity when
    it is beyond the range. *)
Definition float_of_str (s : string) : result pyfloat :=
  let (neg, body) := take_sign (strip (list_ascii_of_string s)) in
  match parse_absfloat body with
  | Some x => Ok (if neg then float_neg x else x)
  | None => Raise ValueError
  end.

(** [float(v)]. *)
Definition py_float (v : pyval) : result pyfloat :=
  match v with
  | PyInt z => float_of_int z
  | PyStr s => float_of_str s
  end.

(** [v == '~']: an [int] never equals a [str]. *)
Definition is_tilde (v : pyval) : bool :=
  match v with
  | PyInt _ => false
  | PyStr s => String.eqb s "~"
  end.

(* ===================================================================== *)
(** ** [compare_range] and [compare] *)
(* ===================================================================== *)

Inductive state : Type := STATE_OK | STATE_WARN | STATE_CRIT | STATE_UNKNOWN.

Definition state_code (s : state) : Z :=
  match s with
  | STATE_OK => 0
  | STATE_WARN => 1
  | STATE_CRIT => 2
  | STATE_UNKNOWN => 3
  end.

Definition state_eqb (a b : state) : bool := Z.eqb (state_code a) (state_code b).

(** [None if bound == '~' else float(bound)]. *)
Definition bound (b : pyval) : result (option pyfloat) :=
  if is_tilde b then Ok None
  else (x <- py_float b ;; Ok (Some x))%result.

(** The two rejection tests of [compare_range]. *)
Definition below (incl : bool) (start : option pyfloat) (value : pyfloat) : bool :=
  match start with
  | None => false
  | Some s => (incl && float_le value s) || (negb incl && float_lt value s)
  end.

Definition above (incl : bool) (stop : option pyfloat) (value : pyfloat) : bool :=
  match stop with
  | None => false
  | Some s => (incl && float_le s value) || (negb incl && float_lt s value)
  end.

(** [start] and [stop] as [compare_range] reads them off the window: the
    shorthand ["N"] is [0:N], an empty upper side is ['~']; [bits[1]] exists
    whenever the window holds a [':']. *)
Definition range_bits (window : string) : result (pyval * pyval) :=
  if negb (str_contains ":" window) then Ok (PyInt 0, PyStr window)
  else
    let bits := str_split ":" window in
    (b0 <- list_index bits 0 ;;
     b1 <- list_index bits 1 ;;
     Ok (PyStr b0, PyStr (if String.eqb b1 "" then "~" else b1)))%result.

Definition compare_range (value : pyfloat) (window : pyval) : result bool :=
  match window with
  | PyInt _ => Raise TypeError                      (* window[0] on an int *)
  | PyStr EmptyString => Raise IndexError           (* window[0] on '' *)
  | PyStr (String c rest as w) =>
      let incl := Ascii.eqb c "@" in
      let window := if incl then rest else w in
      (bits <- range_bits window ;;
       start <- bound (fst bits) ;;
       stop <- bound (snd bits) ;;
       if below incl start value then Ok false
       else if above incl stop value then Ok false
       else Ok true)%result
  end.

Definition compare (value : pyfloat) (warn crit : pyval) : result state :=
  (c <- compare_range value crit ;;
   if negb c then Ok STATE_CRIT
   else
     w <- compare_range value warn ;;
     if negb w then Ok STATE_WARN
     else Ok STATE_OK)%result.

(* ===================================================================== *)
(** ** [expand_unit] *)
(* ===================================================================== *)

Fixpoint expand_unit_rec (depth : nat) (value : string) : result pyval :=
  match depth with
  | O => Raise RecursionError
  | S depth' =>
      if str_contains ":" value then
        (parts <- rmap (fun val => v <- expand_unit_rec depth' val ;; Ok (py_str v))
                       (str_split ":" value) ;;
         Ok (PyStr (str_join ":" parts)))%result
      else if str_endswith value "K" then
        (n <- py_int (str_drop_last 1 value) ;; Ok (PyInt (n * 1000)))%result
      else if str_endswith value "Ki" then
        (n <- py_int (str_drop_last 2 value) ;; Ok (PyInt (n * 1024)))%result
      else if str_endswith value "M" then
        (n <- py_int (str_drop_last 1 value) ;; Ok (PyInt (n * 1000000)))%result
      else if str_endswith value "Mi" then
        (n <- py_int (str_drop_last 2 value) ;; Ok (PyInt (n * 1048576)))%result
      else if str_endswith value "G" then
        (n <- py_int (str_drop_last 1 value) ;; Ok (PyInt (n * 1000000000)))%result
      else if str_endswith value "Gi" then
        (n <- py_int (str_drop_last 2 value) ;; Ok (PyInt (n * 1073741824)))%result
      else Ok (PyStr value)
  end.

Definition expand_unit (value : string) : result pyval :=
  expand_unit_rec recursion_limit value.

(* ===================================================================== *)
(** ** The collaborators and the world *)
(* ===================================================================== *)

(** What a boto3 call gives back: an answer, or a [BotoCoreError] /
    [ClientError] carrying its message. *)
Inductive reply (A : Type) : Type :=
| Answer (a : A)
| TransportFailure (msg : string).
Arguments Answer {A} a.
Arguments TransportFailure {A} msg.

(** One element of [describe_db_instances(...)['DBInstances']]. *)
Record db_instance_data : Type := {
  DBParameterGroups : list string;     (* the DBParameterGroupName of each *)
  DBInstanceClass : string;
  AllocatedStorage : Z
}.

(** One element of a page's ['Parameters']; the value may be missing. *)
Record db_parameter : Type := {
  ParameterName : string;
  ParameterValue : option string
}.

Record collaborators : Type := {
  (** RDS, by instance identifier: the list ['DBInstances']. *)
  describe_db_instances : string -> reply (list db_instance_data);
  (** RDS, by parameter group name: the pages of the paginator. *)
  describe_db_parameters : string -> reply (list (list db_parameter));
  (** EC2, by instance type: ['MemoryInfo']['SizeInMiB'] of each of
      ['InstanceTypes']. *)
  describe_instance_types : string -> reply (list Z);
  (** CloudWatch: the answer to the k-th [get_statistics] call of the run
      (k counted from 0), the requested statistic of each datapoint. *)
  get_metric_statistics : nat -> reply (list Q)
}.

Inductive event : Type :=
| DescribeDbInstances (region identifier : string)
| DescribeDbParameters (region group : string)
| DescribeInstanceTypes (instance_type : string)
| GetMetricStatistics (metric : string) (dims : list (string * string))
    (start_minutes_ago end_minutes_ago period : Z) (statistic : string)
| Stdout (line : string).

Record world : Type := {
  trace : list event;            (* oldest first *)
  metric_calls : nat             (* CloudWatch calls made so far *)
}.

Definition initial_world : world := {| trace := []; metric_calls := 0 |}.

Definition M (A : Type) : Type := world -> result A * world.

Definition ret {A} (a : A) : M A := fun w => (Ok a, w).

Definition bind {A B} (m : M A) (k : A -> M B) : M B :=
  fun w =>
    match m w with
    | (Ok a, w') => k a w'
    | (Raise e, w') => (Raise e, w')
    end.

Definition raise {A} (e : exn) : M A := fun w => (Raise e, w).

Definition lift {A} (r : result A) : M A := fun w => (r, w).

Declare Scope io_scope.
Delimit Scope io_scope with io.
Notation "x <- m ;; k" := (bind m (fun x => k))
  (at level 61, m at next level, right associativity) : io_scope.
Notation "m ;;; k" := (bind m (fun _ => k))
  (at level 61, right associativity) : io_scope.

Definition emit (e : event) : M unit :=
  fun w => (Ok tt, {| trace := trace w ++ [e]; metric_calls := metric_calls w |}).

Definition print (line : string) : M unit := emit (Stdout line).

Definition sys_exit {A} (s : state) : M A := raise (SystemExit (state_code s)).

(** A boto3 call: a transport failure is raised as an exception. *)
Definition boto {A} (r : reply A) : M A :=
  match r with
  | Answer a => ret a
  | TransportFailure msg => raise (ClientError msg)
  end.

(** [try: body except (BotoCoreError, ClientError) as err: handler]. *)
Definition try_except {A} (body : M A) (handler : string -> M A) : M A :=
  fun w =>
    match body w with
    | (Raise (ClientError msg), w') => handler msg w'
    | r => r
    end.

(* ===================================================================== *)
(** ** [DbInstance] *)
(* ===================================================================== *)

Record DbInstance : Type := {
  self_region : string;
  db_instance_identifier : string;
  data : db_instance_data;
  parameters : list (string * db_parameter);   (* a dict: first match wins *)
  instance_class : Z                           (* SizeInMiB *)
}.

Record Metric : Type := {
  dimensions : string;
  last_state : bool;
  minutes : Z;
  name : string;
  namespace : string;
  prefix : string;
  metric_region : string;
  statistics : string
}.

Record Args : Type := {
  warn_cpu : string;
  crit_cpu : string;
  warn_conns : string;
  crit_conns : string;
  warn_disk : string;
  crit_disk : string;
  instance : string;
  arg_last_state : bool;
  percent : bool;
  region : string
}.

(** One entry of [states]. *)
Record item : Type := {
  item_name : string;
  item_state : state;
  item_value : option pyfloat;
  item_unit : string
}.

Definition dict_get {A} (k : string) (d : list (string * A)) : option A :=
  match find (fun kv => String.eqb (fst kv) k) d with
  | Some kv => Some (snd kv)
  | None => None
  end.

(** [d[k] = v] *)
Definition dict_set {A} (k : string) (v : A) (d : list (string * A))
  : list (string * A) := (k, v) :: d.

Definition parameter (self : DbInstance) (which : string) : option string :=
  match dict_get which (parameters self) with
  | Some p => ParameterValue p
  | None => None
  end.

Definition instance_memory (self : DbInstance) : Z :=
  instance_class self * 1024 * 1024.

(** The property [max_connections]; [parameter] giving [False] makes
    [value.startswith] an [AttributeError]. *)
Definition max_connections (self : DbInstance) : result Z :=
  match parameter self "max_connections" with
  | None => Raise AttributeError
  | Some value =>
      if str_startswith value "{" then
        (inner <- list_index (str_split "{" value) 1 ;;
         expr <- list_index (str_split "}" inner) 0 ;;
         match str_split "/" expr with
         | [param; divisor] =>
             if String.eqb param "DBInstanceClassMemory" then
               d <- py_int divisor ;;
               q <- int_truediv (instance_memory self) d ;;
               int_of_float q
             else Raise RuntimeError
         | _ => Raise ValueError
         end)%result
      else py_int value
  end.

Definition storage (self : DbInstance) : Z :=
  AllocatedStorage (data self) * 1024 * 1024 * 1024.

(** [Metric.get_dimensions]. *)
Definition get_dimensions (self : Metric) : result (list (string * string)) :=
  if String.eqb (dimensions self) "" then Ok []
  else
    rmap (fun pair =>
            let bits := str_split ":" pair in
            (n <- list_index bits 0 ;;
             v <- list_index bits 1 ;;
             Ok (n, v))%result)
         (str_split "," (dimensions self)).

Section Plugin.

Variable env : collaborators.

(** [str(x)] of a finite float that is not [-0.0], used when the summary
    line is formatted. *)
Variable str_float : Q -> string.

Definition fetch_parameters (region : string) (d : db_instance_data)
  : M (list (string * db_parameter)) :=
  (group <- lift (list_index (DBParameterGroups d) 0) ;;
   emit (DescribeDbParameters region group) ;;;
   pages <- boto (describe_db_parameters env group) ;;
   ret (fold_left (fun params param => dict_set (ParameterName param) param params)
                  (List.concat pages) []))%io.

Definition fetch_instance_class (d : db_instance_data) : M Z :=
  (let instance_class_name :=
     if str_startswith (DBInstanceClass d) "db." then
       str_join "." (tl (str_split "." (DBInstanceClass d)))
     else DBInstanceClass d in
   emit (DescribeInstanceTypes instance_class_name) ;;;
   types <- boto (describe_instance_types env instance_class_name) ;;
   lift (list_index types 0))%io.

(** [DbInstance.__init__]. *)
Definition DbInstance_init (region identifier : string) : M DbInstance :=
  (emit (DescribeDbInstances region identifier) ;;;
   instances <- boto (describe_db_instances env identifier) ;;
   d <- lift (list_index instances 0) ;;
   params <- fetch_parameters region d ;;
   cls <- fetch_instance_class d ;;
   ret {| self_region := region;
          db_instance_identifier := identifier;
          data := d;
          parameters := params;
          instance_class := cls |})%io.

(* ===================================================================== *)
(** ** [Metric] *)
(* ===================================================================== *)

(** The call [metric.get_statistics(...)] on the CloudWatch resource, for the
    window from [minutes + offset] to [offset] minutes ago. *)
Definition cloudwatch_get_statistics (self : Metric) (offset : Z) : M (list Q) :=
  (dims <- lift (get_dimensions self) ;;
   fun w =>
     let w' := {| trace := trace w ++
                     [GetMetricStatistics (name self) dims
                        (minutes self + offset) offset 300 (statistics self)];
                  metric_calls := S (metric_calls w) |} in
     boto (get_metric_statistics env (metric_calls w)) w')%io.

(** [Metric.get_statistics]: [None] beyond the cap, else the datapoints. *)
Fixpoint get_statistics_rec (depth : nat) (self : Metric) (offset : Z)
  : M (option (list Q)) :=
  match depth with
  | O => raise RecursionError
  | S depth' =>
      if Z.ltb 20 offset then ret None
      else
        (datapoints <-
           try_except (cloudwatch_get_statistics self offset)
             (fun err => print ("UNKNOWN - " ++ err) ;;; sys_exit STATE_UNKNOWN) ;;
         match datapoints with
         | [] => if last_state self
                 then get_statistics_rec depth' self (offset + 1)
                 else ret (Some datapoints)
         | _ => ret (Some datapoints)
         end)%io
  end.

Definition get_statistics (self : Metric) (offset : Z) : M (option (list Q)) :=
  get_statistics_rec recursion_limit self offset.

(** [Metric.get_current_value]: subscripting [None] is a [TypeError]. *)
Definition get_current_value (self : Metric) : M (option Q) :=
  (stats <- get_statistics self 0 ;;
   match stats with
   | None => raise TypeError
   | Some [] => ret None
   | Some (d :: ds) => ret (Some (last ds d))
   end)%io.

(* ===================================================================== *)
(** ** The three metrics and [main] *)
(* ===================================================================== *)

Definition rds_metric (args : Args) (metric_name statistic : string) : Metric :=
  {| dimensions := "DBInstanceIdentifier:" ++ instance args;
     last_state := arg_last_state args;
     minutes := 5;
     name := metric_name;
     namespace := "RDS";
     prefix := "AWS";
     metric_region := region args;
     statistics := statistic |}.

(** [number - sample] for an [int] and the statistic of a datapoint: a
    [TypeError] when the sample is [None]; else the [int] is converted and
    the difference rounded. *)
Definition sub_sample (n : Z) (sample : option Q) : result pyfloat :=
  match sample with
  | None => Raise TypeError
  | Some x => (a <- float_of_int n ;; Ok (float_sub a (Fin x)))%result
  end.

(** [sample / n] for an [int] [n]: a [TypeError] when the sample is [None];
    else [n] is converted, a zero [n] is a [ZeroDivisionError], and the
    quotient is rounded. *)
Definition div_sample (sample : option pyfloat) (n : Z) : result pyfloat :=
  match sample with
  | None => Raise TypeError
  | Some x => (d <- float_of_int n ;; float_truediv x d)%result
  end.

Definition unused_connections (args : Args) : M (option pyfloat) :=
  (inst <- DbInstance_init (region args) (instance args) ;;
   let connections_metric := rds_metric args "DatabaseConnections" "Minimum" in
   mc <- lift (max_connections inst) ;;
   current <- get_current_value connections_metric ;;
   value <- lift (sub_sample mc current) ;;
   if percent args then
     mc' <- lift (max_connections inst) ;;
     ratio <- lift (div_sample (Some value) mc') ;;
     ret (Some (float_mul ratio (Fin 100)))
   else ret (Some value))%io.

Definition free_storage (args : Args) : M (option pyfloat) :=
  (inst <- DbInstance_init (region args) (instance args) ;;
   let connections_metric := rds_metric args "FreeStorageSpace" "Minimum" in
   value <- get_current_value connections_metric ;;
   let value := option_map Fin value in
   if percent args then
     ratio <- lift (div_sample value (storage inst)) ;;
     ret (Some (float_mul ratio (Fin 100)))
   else ret value)%io.

Definition cpu_used (args : Args) : M (option pyfloat) :=
  (value <- get_current_value (rds_metric args "CPUUtilization" "Maximum") ;;
   ret (option_map Fin value))%io.

(** [str(x)] of a float. *)
Definition str_of_float (x : pyfloat) : string :=
  match x with
  | Fin q => str_float q
  | NegZero => "-" ++ str_float 0
  | Inf false => "inf"
  | Inf true => "-inf"
  | NaN => "nan"
  end.

(** ["{}:{}{}".format(item['name'], item['value'], item['unit'])]. *)
Definition render (it : item) : string :=
  item_name it ++ ":" ++
  match item_value it with
  | None => "None"
  | Some x => str_of_float x
  end ++ item_unit it.

Definition with_state (s : state) (states : list item) : list item :=
  filter (fun it => state_eqb (item_state it) s) states.

Definition truthy {A} (l : list A) : bool :=
  match l with [] => false | _ => true end.

(** "determine overall state": the final state and its label. *)
Definition aggregate (states : list item) : state * string :=
  if truthy (with_state STATE_CRIT states) then (STATE_CRIT, "CRITICAL:")
  else if truthy (with_state STATE_WARN states) then (STATE_WARN, "WARNING:")
  else if truthy (with_state STATE_UNKNOWN states) then (STATE_UNKNOWN, "UNKNOWN:")
  else (STATE_OK, "OK:").

(** The line printed at the end of [main]. *)
Definition summary (states : list item) : string :=
  snd (aggregate states) ++ " " ++ str_join ", " (map render states).

Definition main (args : Args) : M unit :=
  (let states := ([] : list item) in
   value <- unused_connections args ;;
   st <- lift (match value with
               | None => Ok STATE_UNKNOWN
               | Some v => compare v (PyStr (warn_conns args))
                                   (PyStr (crit_conns args))
               end) ;;
   let states := (states ++ [ {| item_name := "free_connections";
                                item_state := st;
                                item_value := value;
                                item_unit := if percent args then "%" else "" |} ])%list in
   value <- free_storage args ;;
   st <- lift (match value with
               | None => Ok STATE_UNKNOWN
               | Some v =>
                   (warn <- expand_unit (warn_disk args) ;;
                    crit <- expand_unit (crit_disk args) ;;
                    compare v warn crit)%result
               end) ;;
   shown <- lift (if percent args then Ok value
                  else (x <- div_sample value 1024 ;;
                        y <- div_sample (Some x) 1024 ;;
                        Ok (Some y))%result) ;;
   let states := (states ++ [ {| item_name := "free_storage";
                                item_state := st;
                                item_value := shown;
                                item_unit := if percent args then "%" else " MiB" |} ])%list in
   value <- cpu_used args ;;
   st <- lift (match value with
               | None => Ok STATE_UNKNOWN
               | Some v => compare v (PyStr (warn_cpu args))
                                   (PyStr (crit_cpu args))
               end) ;;
   let states := (states ++ [ {| item_name := "cpu_used";
                                item_state := st;
                                item_value := value;
                                item_unit := "%" |} ])%list in
   print (summary states) ;;;
   sys_exit (fst (aggregate states)))%io.

(** The exit status of the process: that of [sys.exit], and 1 when an
    exception reaches the top level (the interpreter prints a traceback). *)
Definition exit_status {A} (r : result A) : Z :=
  match r with
  | Ok _ => 0
  | Raise (SystemExit c) => c
  | Raise _ => 1
  end.

(** One invocation of the plug-in. *)
Definition run (args : Args) : result unit * world := main args initial_world.

End Plugin.

(* ===================================================================== *)
(** ** Sample collaborators and arguments *)
(* ===================================================================== *)

Definition sample_instance : db_instance_data :=
  {| DBParameterGroups := ["default.mysql8.0"];
     DBInstanceClass := "db.t3.micro";
     AllocatedStorage := 20 |}.

Definition sample_parameters : list (list db_parameter) :=
  [[ {| ParameterName := "max_connections";
        ParameterValue := Some "{DBInstanceClassMemory/12582880}" |} ]].

(** Healthy metadata collaborators around a given metric source. *)
Definition sample_env (metric_source : nat -> reply (list Q)) : collaborators :=
  {| describe_db_instances := fun _ => Answer [sample_instance];
     describe_db_parameters := fun _ => Answer sample_parameters;
     describe_instance_types := fun _ => Answer [1024];
     get_metric_statistics := metric_source |}.

Definition sample_args : Args :=
  {| warn_cpu := "80"; crit_cpu := "90";
     warn_conns := "10:"; crit_conns := "5:";
     warn_disk := "1000Mi:"; crit_disk := "500Mi:";
     instance := "mydb";
     arg_last_state := false;
     percent := false;
     region := "eu-central-1" |}.

Definition sample_str_float (x : Q) : string :=
  str_of_int (Qnum x) ++ "/" ++ str_of_int (Zpos (Qden x)).

(* ===================================================================== *)
(** ** Definitions the properties are stated with *)
(* ===================================================================== *)

(** The suffixes and their factors, in the order [expand_unit] tests them. *)
Definition unit_table : list (string * Z) :=
  [("K", 1000); ("Ki", 1024); ("M", 1000000); ("Mi", 1048576);
   ("G", 1000000000); ("Gi", 1073741824)].

(** The first suffix of the table the token ends with. *)
Definition matched_unit (token : string) : option (string * Z) :=
  find (fun u => str_endswith token (fst u)) unit_table.

(** A token is expandable when it carries no suffix, or when [int] accepts
    what precedes its suffix. *)
Definition token_ok (token : string) : bool :=
  match matched_unit token with
  | None => true
  | Some (suffix, _) =>
      match py_int (str_drop_last (String.length suffix) token) with
      | Ok _ => true
      | Raise _ => false
      end
  end.

(** The containment test in the specification's words: without inversion a
    value is rejected when it is below a present lower bound or above a
    present upper bound; with inversion the comparisons include equality. *)
Definition spec_rejects (inverted : bool) (lo hi : option pyfloat) (v : pyfloat)
  : bool :=
  match inverted with
  | false =>
      match lo with Some l => float_lt v l | None => false end ||
      match hi with Some h => float_lt h v | None => false end
  | true =>
      match lo with Some l => float_le v l | None => false end ||
      match hi with Some h => float_le h v | None => false end
  end.

(** Severity in the total order CRITICAL > WARNING > UNKNOWN > OK. *)
Definition severity (s : state) : nat :=
  match s with
  | STATE_OK => 0
  | STATE_UNKNOWN => 1
  | STATE_WARN => 2
  | STATE_CRIT => 3
  end.

(** [s[-1]], when there is one. *)
Fixpoint str_last (s : string) : option ascii :=
  match s with
  | EmptyString => None
  | String c EmptyString => Some c
  | String _ s' => str_last s'
  end.

(** One token read off the table: the integer before the suffix times the
    factor, or the token itself when no suffix matches. *)
Definition expand_token (token : string) : result pyval :=
  match matched_unit token with
  | None => Ok (PyStr token)
  | Some (suffix, factor) =>
      (n <- py_int (str_drop_last (String.length suffix) token) ;;
       Ok (PyInt (n * factor)))%result
  end.

(** A number of the threshold grammar: what [float] reads. *)
Definition numeric (s : string) : bool :=
  match float_of_str s with
  | Ok _ => true
  | Raise _ => false
  end.

(** A malformed threshold, in the specification's words: one of the two
    bounds read off the string is neither a number nor a sentinel.  Behind an
    optional ['@'], a string without [':'] is the upper bound, the lower one
    being 0; else the lower bound stands before the first [':'] and the
    upper one after it, up to the next [':'] if there is one.  ['~'] stands
    for no bound, and so does an empty upper bound after a [':']. *)
Definition malformed (threshold : string) : bool :=
  let body :=
    match threshold with
    | String c rest => if Ascii.eqb c "@" then rest else threshold
    | EmptyString => threshold
    end in
  match str_split ":" body with
  | [upper] => negb (String.eqb upper "~" || numeric upper)
  | lower :: upper :: _ =>
      negb (String.eqb lower "~" || numeric lower) ||
      negb (String.eqb upper "~" || String.eqb upper "" || numeric upper)
  | [] => true
  end.

(** The unit expander in the specification's words: every side of the
    string is expanded by the table and the sides are joined again, to a
    string; there is none when a suffix follows what is not an integer. *)
Definition expand_text (spec : string) : option string :=
  match rmap (fun token => v <- expand_token token ;; Ok (py_str v))%result
             (str_split ":" spec) with
  | Ok parts => Some (str_join ":" parts)
  | Raise _ => None
  end.

(** A malformed disk threshold: it has no unit expansion, or its unit
    expansion is a malformed threshold. *)
Definition malformed_disk (threshold : string) : bool :=
  match expand_text threshold with
  | Some expanded => malformed expanded
  | None => true
  end.

(** Two invocations for the same instance that differ at most in their
    thresholds. *)
Definition same_target (a b : Args) : Prop :=
  instance a = instance b /\ region a = region b /\
  arg_last_state a = arg_last_state b /\ percent a = percent b.

(** The world after one CloudWatch call of [self] at [offset]. *)
Definition after_call (self : Metric) (dims : list (string * string))
  (offset : Z) (w : world) : world :=
  {| trace := trace w ++
                [GetMetricStatistics (name self) dims (minutes self + offset)
                   offset 300 (statistics self)];
     metric_calls := S (metric_calls w) |}.

(** Code that makes no CloudWatch call. *)
Definition calls_kept {A} (m : M A) : Prop :=
  forall w r w', m w = (r, w') -> metric_calls w' = metric_calls w.

(** The value [parameter] gives for a name, read off the pages of the
    paginator: that of the last entry with this name. *)
Definition last_parameter_value (pages : list (list db_parameter)) (which : string)
  : option string :=
  match find (fun p => String.eqb (ParameterName p) which) (rev (List.concat pages)) with
  | Some p => ParameterValue p
  | None => None
  end.

(** The CloudWatch queries of [n] attempts in a row starting at [offset]:
    attempt [k] asks for the window from [minutes + offset + k] to
    [offset + k] minutes ago. *)
Fixpoint retry_events (self : Metric) (dims : list (string * string))
  (offset : Z) (n : nat) : list event :=
  match n with
  | O => []
  | S n' =>
      GetMetricStatistics (name self) dims (minutes self + offset) offset 300
        (statistics self)
      :: retry_events self dims (offset + 1) n'
  end.

(** The world after [n] CloudWatch calls in a row starting at [offset]. *)
Fixpoint after_calls (self : Metric) (dims : list (string * string))
  (offset : Z) (n : nat) (w : world) : world :=
  match n with
  | O => w
  | S n' => after_calls self dims (offset + 1) n' (after_call self dims offset w)
  end.

(** A result that is not a [SystemExit]. *)
Definition no_exit {A} (r : result A) : Prop :=
  forall c, r <> Raise (SystemExit c).

(** Code whose only [SystemExit] is the one with status UNKNOWN. *)
Definition exits_unknown_only {A} (m : M A) : Prop :=
  forall w r w' c, m w = (r, w') -> r = Raise (SystemExit c) -> c = 3.

(** Code whose [SystemExit], if any, carries a status from 0 to 3. *)
Definition exits_in_range {A} (m : M A) : Prop :=
  forall w r w' c, m w = (r, w') -> r = Raise (SystemExit c) -> 0 <= c <= 3.

(** Code that ends by raising. *)
Definition never_returns {A} (m : M A) : Prop :=
  forall w a w', m w <> (Ok a, w').

(** A parameter group with the connection limit given twice. *)
Definition pages_with_override : list (list db_parameter) :=
  [[ {| ParameterName := "max_connections"; ParameterValue := Some "100" |};
     {| ParameterName := "wait_timeout"; ParameterValue := None |} ];
   [ {| ParameterName := "max_connections"; ParameterValue := Some "250" |} ]].

Definition override_env : collaborators :=
  {| describe_db_instances := fun _ => Answer [sample_instance];
     describe_db_parameters := fun _ => Answer pages_with_override;
     describe_instance_types := fun _ => Answer [1024];
     get_metric_statistics := fun _ => Answer [50%Q] |}.

(** The instance [DbInstance.__init__] builds from [override_env]. *)
Definition override_db : DbInstance :=
  {| self_region := "eu-central-1";
     db_instance_identifier := "mydb";
     data := sample_instance;
     parameters :=
       fold_left (fun params param => dict_set (ParameterName param) param params)
                 (List.concat pages_with_override) [];
     instance_class := 1024 |}.

(** An instance as [DbInstance.__init__] builds it from the sample
    collaborators. *)
Definition sample_db : DbInstance :=
  {| self_region := "eu-central-1";
     db_instance_identifier := "mydb";
     data := sample_instance;
     parameters :=
       [("max_connections",
         {| ParameterName := "max_connections";
            ParameterValue := Some "{DBInstanceClassMemory/12582880}" |})];
     instance_class := 1024 |}.

(** An instance class with 2 ^ 36 MiB of memory and the connection limit
    [{DBInstanceClassMemory/3}]. *)
Definition large_db : DbInstance :=
  {| self_region := "eu-central-1";
     db_instance_identifier := "mydb";
     data := sample_instance;
     parameters :=
       [("max_connections",
         {| ParameterName := "max_connections";
            ParameterValue := Some "{DBInstanceClassMemory/3}" |})];
     instance_class := 68719476736 |}.

(** A metric source with data from its [n]-th answer on. *)
Definition late_source (n : nat) : nat -> reply (list Q) :=
  fun k => if Nat.ltb k n then Answer [] else Answer [3%Q; 7%Q].

(** A metric source that is down. *)
Definition failing_source : nat -> reply (list Q) :=
  fun _ => TransportFailure "Rate exceeded".

(** A metric source for a healthy instance: 50 connections, 2 GB free,
    12 percent CPU. *)
Definition healthy_source : nat -> reply (list Q) :=
  fun k => match k with
           | O => Answer [50%Q]
           | 1%nat => Answer [2000000000%Q]
           | _ => Answer [12%Q]
           end.

(* ===================================================================== *)
(** ** Further sample inputs *)
(* ===================================================================== *)

Definition sample_args_last_state : Args :=
  {| warn_cpu := "80"; crit_cpu := "90";
     warn_conns := "10:"; crit_conns := "5:";
     warn_disk := "1000Mi:"; crit_disk := "500Mi:";
     instance := "mydb";
     arg_last_state := true;
     percent := false;
     region := "eu-central-1" |}.

(** The documented disk threshold ["8Gi"] as the critical disk threshold. *)
Definition args_8Gi : Args :=
  {| warn_cpu := "80"; crit_cpu := "90";
     warn_conns := "10:"; crit_conns := "5:";
     warn_disk := "1000Mi:"; crit_disk := "8Gi";
     instance := "mydb";
     arg_last_state := false;
     percent := false;
     region := "eu-central-1" |}.

(** A run with a malformed critical connections threshold. *)
Definition args_bad_crit_conns : Args :=
  {| warn_cpu := "80"; crit_cpu := "90";
     warn_conns := "10:"; crit_conns := "five";
     warn_disk := "1000Mi:"; crit_disk := "500Mi:";
     instance := "mydb";
     arg_last_state := false;
     percent := false;
     region := "eu-central-1" |}.

(** A run with a malformed warning connections threshold behind a critical
    range that starts at 50. *)
Definition args_bad_warn_conns : Args :=
  {| warn_cpu := "80"; crit_cpu := "90";
     warn_conns := "ten:"; crit_conns := "50:";
     warn_disk := "1000Mi:"; crit_disk := "500Mi:";
     instance := "mydb";
     arg_last_state := false;
     percent := false;
     region := "eu-central-1" |}.

(** A run with a critical connections threshold of three parts. *)
Definition args_three_parts : Args :=
  {| warn_cpu := "80"; crit_cpu := "90";
     warn_conns := "10:"; crit_conns := "5:100:junk";
     warn_disk := "1000Mi:"; crit_disk := "500Mi:";
     instance := "mydb";
     arg_last_state := false;
     percent := false;
     region := "eu-central-1" |}.

(** A metric source without CPU data. *)
Definition no_cpu_source : nat -> reply (list Q) :=
  fun k => match k with
           | O => Answer [50%Q]
           | 1%nat => Answer [2000000000%Q]
           | _ => Answer []
           end.

(** A run with a warning disk threshold whose unit follows a fraction. *)
Definition args_bad_warn_disk : Args :=
  {| warn_cpu := "80"; crit_cpu := "90";
     warn_conns := "10:"; crit_conns := "5:";
     warn_disk := "1.5Gi:"; crit_disk := "500Mi:";
     instance := "mydb";
     arg_last_state := false;
     percent := false;
     region := "eu-central-1" |}.

(** CPU thresholds that [float] rejects. *)
Definition args_bad_cpu : Args :=
  {| warn_cpu := "eighty"; crit_cpu := "ninety";
     warn_conns := "10:"; crit_conns := "5:";
     warn_disk := "1000Mi:"; crit_disk := "500Mi:";
     instance := "mydb";
     arg_last_state := false;
     percent := false;
     region := "eu-central-1" |}.

(** An instance limited to 100 connections with 43 of them open and
    12345678901 of its 20 GiB free, checked with [--percent]. *)
Definition small_env : collaborators :=
  {| describe_db_instances := fun _ => Answer [sample_instance];
     describe_db_parameters :=
       fun _ => Answer [[ {| ParameterName := "max_connections";
                             ParameterValue := Some "100" |} ]];
     describe_instance_types := fun _ => Answer [1024];
     get_metric_statistics :=
       fun k => match k with
                | O => Answer [43%Q]
                | 1%nat => Answer [12345678901%Q]
                | _ => Answer [12%Q]
                end |}.

Definition small_db : DbInstance :=
  {| self_region := "eu-central-1";
     db_instance_identifier := "mydb";
     data := sample_instance;
     parameters :=
       [("max_connections",
         {| ParameterName := "max_connections"; ParameterValue := Some "100" |})];
     instance_class := 1024 |}.

Definition percent_args : Args :=
  {| warn_cpu := "80"; crit_cpu := "90";
     warn_conns := "57:"; crit_conns := "5:";
     warn_disk := "20:"; crit_disk := "10:";
     instance := "mydb";
     arg_last_state := false;
     percent := true;
     region := "eu-central-1" |}.

(** A metric source that never has data. *)
Definition silent_source : nat -> reply (list Q) := fun _ => Answer [].

(** A metadata collaborator that is down. *)
Definition rds_down_env : collaborators :=
  {| describe_db_instances := fun _ => TransportFailure "Unable to locate credentials";
     describe_db_parameters := fun _ => Answer sample_parameters;
     describe_instance_types := fun _ => Answer [1024];
     get_metric_statistics := fun _ => Answer [50%Q] |}.

(** An item of the given state, for examples. *)
Definition item_in_state (s : state) : item :=
  {| item_name := "metric"; item_state := s; item_value := None; item_unit := "" |}.

(* ===================================================================== *)
(** ** Strings *)
(* ===================================================================== *)

Lemma str_split_pieces (c : ascii) (s t : string) :
  In t (str_split c s) -> str_contains c t = false.
Proof.
  revert t. induction s as [|a s IH]; simpl; intros t Ht.
  - destruct Ht as [<-|[]]. reflexivity.
  - destruct (Ascii.eqb a c) eqn:E.
    + destruct Ht as [<-|Ht]; [reflexivity | now apply IH].
    + destruct (str_split c s) as [|h tl].
      * destruct Ht as [<-|[]]. simpl. now rewrite E.
      * destruct Ht as [<-|Ht].
        -- simpl. rewrite E. apply IH. now left.
        -- apply IH. now right.
Qed.

Lemma str_split_nosep (c : ascii) (s : string) :
  str_contains c s = false -> str_split c s = [s].
Proof.
  induction s as [|a s IH]; simpl; intros H; [reflexivity|].
  apply orb_false_iff in H. destruct H as [E H].
  rewrite E, (IH H). reflexivity.
Qed.

Lemma str_split_app (c : ascii) (a b : string) :
  str_contains c a = false ->
  str_split c (a ++ String c b) = a :: str_split c b.
Proof.
  induction a as [|x a IH]; simpl; intros H.
  - now rewrite Ascii.eqb_refl.
  - apply orb_false_iff in H. destruct H as [E H].
    rewrite E, (IH H). reflexivity.
Qed.

Lemma str_contains_app (c : ascii) (a b : string) :
  str_contains c (a ++ String c b) = true.
Proof.
  induction a as [|x a IH]; simpl.
  - now rewrite Ascii.eqb_refl.
  - rewrite IH. apply orb_true_r.
Qed.

Lemma str_endswith_nil (a : string) :
  str_endswith EmptyString a = true -> a = EmptyString.
Proof.
  cbn [str_endswith]. rewrite orb_false_r. intros H.
  apply String.eqb_eq in H. congruence.
Qed.

Lemma str_endswith_cons (c : ascii) (s a : string) :
  str_endswith (String c s) a = true ->
  a = String c s \/ str_endswith s a = true.
Proof.
  cbn [str_endswith]. intros H. apply orb_true_iff in H.
  destruct H as [H|H]; [left | right; exact H].
  apply String.eqb_eq in H. congruence.
Qed.

Lemma str_endswith_length (s a : string) :
  str_endswith s a = true -> (String.length a <= String.length s)%nat.
Proof.
  induction s as [|c s IH]; intros H.
  - apply str_endswith_nil in H. subst a. simpl. lia.
  - apply str_endswith_cons in H. destruct H as [->|H].
    + lia.
    + specialize (IH H). simpl. lia.
Qed.

(** Two suffixes of one string that have the same length are equal. *)
Lemma str_endswith_same_length (s a b : string) :
  str_endswith s a = true -> str_endswith s b = true ->
  String.length a = String.length b -> a = b.
Proof.
  induction s as [|c s IH]; intros Ha Hb L.
  - apply str_endswith_nil in Ha, Hb. congruence.
  - apply str_endswith_cons in Ha, Hb.
    destruct Ha as [->|Ha], Hb as [->|Hb].
    + reflexivity.
    + apply str_endswith_length in Hb. simpl in L. lia.
    + apply str_endswith_length in Ha. simpl in L. lia.
    + now apply IH.
Qed.

Lemma str_endswith_last (s a : string) :
  str_endswith s a = true -> a <> EmptyString -> str_last s = str_last a.
Proof.
  induction s as [|c s IH]; intros H Ha.
  - apply str_endswith_nil in H. congruence.
  - apply str_endswith_cons in H. destruct H as [->|H]; [reflexivity|].
    rewrite <- (IH H Ha). destruct s as [|d s]; [|reflexivity].
    apply str_endswith_nil in H. congruence.
Qed.

(** No string ends with two different suffixes of the table. *)
Ltac suffix_clash :=
  match goal with
  | H1 : str_endswith ?s ?a = true, H2 : str_endswith ?s ?b = true |- _ =>
      first
        [ discriminate (str_endswith_same_length s a b H1 H2 eq_refl)
        | let X1 := fresh in
          let X2 := fresh in
          assert (X1 := str_endswith_last s a H1 ltac:(discriminate));
          assert (X2 := str_endswith_last s b H2 ltac:(discriminate));
          rewrite X1 in X2; discriminate X2 ]
  end.

Lemma matched_unit_in (token suffix : string) (factor : Z) :
  In (suffix, factor) unit_table ->
  str_endswith token suffix = true ->
  matched_unit token = Some (suffix, factor).
Proof.
  unfold matched_unit, unit_table. intros HIn H.
  cbn [In] in HIn.
  repeat (destruct HIn as [HIn|HIn]; [inversion HIn; subst suffix factor; clear HIn|]);
    try contradiction;
    cbn [find fst];
    repeat match goal with
      | |- context [if str_endswith token ?x then _ else _] =>
          destruct (str_endswith token x) eqn:?
      end;
    try reflexivity; try congruence; suffix_clash.
Qed.

Lemma matched_unit_some (token suffix : string) (factor : Z) :
  matched_unit token = Some (suffix, factor) ->
  In (suffix, factor) unit_table /\ str_endswith token suffix = true.
Proof.
  unfold matched_unit. intros H. apply find_some in H. exact H.
Qed.

(* ===================================================================== *)
(** ** [rmap] *)
(* ===================================================================== *)

Lemma rmap_ext_in {A B} (f g : A -> result B) (l : list A) :
  (forall a, In a l -> f a = g a) -> rmap f l = rmap g l.
Proof.
  induction l as [|a l IH]; intros H; [reflexivity|].
  cbn [rmap]. rewrite (H a (or_introl eq_refl)).
  rewrite IH; [reflexivity|]. intros b Hb. apply H. now right.
Qed.

Lemma rmap_ok {A B} (f : A -> result B) (l : list A) :
  (forall a, In a l -> exists b, f a = Ok b) ->
  exists bs, rmap f l = Ok bs /\ List.length bs = List.length l.
Proof.
  induction l as [|a l IH]; intros H.
  - exists []. split; reflexivity.
  - destruct (H a (or_introl eq_refl)) as [b Hb].
    destruct IH as [bs [Hbs L]]; [intros x Hx; apply H; now right|].
    exists (b :: bs). cbn [rmap]. rewrite Hb. cbn [rbind]. rewrite Hbs.
    split; [reflexivity | simpl; now rewrite L].
Qed.

(* ===================================================================== *)
(** ** [expand_unit]: the recursion and the table *)
(* ===================================================================== *)

Lemma expand_unit_rec_token (depth : nat) (value : string) :
  str_contains ":" value = false ->
  expand_unit_rec (S depth) value = expand_token value.
Proof.
  intros H. cbn [expand_unit_rec]. rewrite H.
  unfold expand_token, matched_unit, unit_table. cbn [find fst].
  repeat match goal with
    | |- context [if str_endswith value ?x then _ else _] =>
        destruct (str_endswith value x)
    end; reflexivity.
Qed.

Lemma expand_unit_rec_colon (depth : nat) (value : string) :
  str_contains ":" value = true ->
  expand_unit_rec (S (S depth)) value =
  (parts <- rmap (fun val => v <- expand_token val ;; Ok (py_str v))
                 (str_split ":" value) ;;
   Ok (PyStr (str_join ":" parts)))%result.
Proof.
  intros H. cbn [expand_unit_rec]. rewrite H.
  rewrite (rmap_ext_in _ (fun val => v <- expand_token val ;; Ok (py_str v))%result);
    [reflexivity|].
  intros val Hval. cbv beta.
  change ((v <- expand_unit_rec (S depth) val ;; Ok (py_str v))%result =
          (v <- expand_token val ;; Ok (py_str v))%result).
  rewrite expand_unit_rec_token; [reflexivity|].
  eapply str_split_pieces. exact Hval.
Qed.

(** Two frames are enough: a deeper recursion limit changes nothing. *)
Lemma expand_unit_rec_stable (depth : nat) (value : string) :
  (2 <= depth)%nat -> expand_unit_rec depth value = expand_unit_rec 2 value.
Proof.
  intros H. destruct depth as [|[|depth]]; try lia.
  destruct (str_contains ":" value) eqn:E.
  - now rewrite !expand_unit_rec_colon.
  - now rewrite !expand_unit_rec_token.
Qed.

Lemma expand_unit_token (value : string) :
  str_contains ":" value = false -> expand_unit value = expand_token value.
Proof.
  intros H. unfold expand_unit.
  rewrite expand_unit_rec_stable by (unfold recursion_limit; lia).
  now apply expand_unit_rec_token.
Qed.

(** The equation of the source for a value holding a colon. *)
Lemma expand_unit_colon (value : string) :
  str_contains ":" value = true ->
  expand_unit value =
  (parts <- rmap (fun val => v <- expand_unit val ;; Ok (py_str v))
                 (str_split ":" value) ;;
   Ok (PyStr (str_join ":" parts)))%result.
Proof.
  intros H. unfold expand_unit at 1.
  rewrite expand_unit_rec_stable by (unfold recursion_limit; lia).
  rewrite expand_unit_rec_colon by exact H.
  rewrite (rmap_ext_in _ (fun val => v <- expand_unit val ;; Ok (py_str v))%result);
    [reflexivity|].
  intros val Hval. cbv beta.
  rewrite expand_unit_token; [reflexivity|].
  eapply str_split_pieces. exact Hval.
Qed.

Lemma expand_token_ok (token : string) :
  token_ok token = true -> exists v, expand_token token = Ok v.
Proof.
  unfold token_ok, expand_token.
  destruct (matched_unit token) as [[suffix factor]|]; [|now eexists].
  destruct (py_int _) as [n|e]; [|discriminate].
  intros _. now eexists.
Qed.

Lemma rmap_raise {A B} (f : A -> result B) (l : list A) (e : exn) :
  rmap f l = Raise e -> exists a, In a l /\ f a = Raise e.
Proof.
  induction l as [|a l IH]; cbn [rmap]; [discriminate|].
  destruct (f a) as [b|e'] eqn:E; cbn [rbind].
  - destruct (rmap f l) as [bs|e'] eqn:E'; cbn [rbind]; [discriminate|].
    intros H. destruct IH as [x [Hx Hf]]; [exact H|].
    exists x. split; [now right | exact Hf].
  - intros H. exists a. split; [now left | congruence].
Qed.

Lemma expand_token_no_recursion_error (token : string) :
  expand_token token <> Raise RecursionError.
Proof.
  unfold expand_token.
  destruct (matched_unit token) as [[suffix factor]|]; [|discriminate].
  unfold py_int. destruct (take_sign _) as [neg body].
  destruct (digitpart 0 false body); cbn [rbind]; discriminate.
Qed.

(** [expand_unit] never exhausts the recursion limit. *)
Lemma expand_unit_no_recursion_error (value : string) :
  expand_unit value <> Raise RecursionError.
Proof.
  destruct (str_contains ":" value) eqn:E.
  - rewrite expand_unit_colon by exact E. intros H.
    destruct (rmap _ (str_split ":" value)) as [parts|e] eqn:R;
      cbn [rbind] in H; [discriminate|].
    apply rmap_raise in R. destruct R as [t [Ht Hf]].
    rewrite expand_unit_token in Hf by (eapply str_split_pieces; exact Ht).
    pose proof (expand_token_no_recursion_error t) as N.
    destruct (expand_token t); cbn [rbind] in Hf; [discriminate | congruence].
  - rewrite expand_unit_token by exact E. apply expand_token_no_recursion_error.
Qed.

(* ===================================================================== *)
(** ** Unit expansion *)
(* ===================================================================== *)

(** C4: on ["8Gi"], ["1000Mi"] and ["2Ki"] [expand_unit] multiplies the
    prefix by the right factor (["2Ki"] gives 2048, not 2000) but returns the
    product as an [int], not as a numeric string; the sibling branch for
    values holding a colon does convert with [str].  The [int] makes
    [compare] raise [TypeError], so a run with the documented threshold
    ["8Gi"] and a present storage sample ends in a traceback. *)
Theorem expand_unit_suffix_result_is_int :
  expand_unit "8Gi" = Ok (PyInt 8589934592) /\
  expand_unit "1000Mi" = Ok (PyInt 1048576000) /\
  expand_unit "2Ki" = Ok (PyInt 2048) /\
  expand_unit "8Gi" <> Ok (PyStr "8589934592") /\
  expand_unit "1000Mi" <> Ok (PyStr "1048576000") /\
  expand_unit "2Ki" <> Ok (PyStr "2048") /\
  expand_unit "8Gi:" = Ok (PyStr "8589934592:") /\
  (forall v warn, compare v warn (PyInt 8589934592) = Raise TypeError) /\
  fst (run (sample_env (fun _ => Answer [50%Q])) sample_str_float args_8Gi)
    = Raise TypeError.
Proof.
  repeat split; try (vm_compute; (reflexivity || discriminate)).
Qed.

(** Counterexample to C5 as stated: [expand_unit] is not total, ["xK"] ends
    with a suffix and [int] rejects its prefix. *)
Lemma expand_unit_not_total :
  expand_unit "xK" = Raise ValueError /\
  ~ (exists v, expand_unit "xK" = Ok v).
Proof.
  assert (H : expand_unit "xK" = Raise ValueError) by (vm_compute; reflexivity).
  split; [exact H|]. intros [v Hv]. rewrite H in Hv. discriminate.
Qed.

(** C5, amended: [expand_unit] returns a result for every string whose
    colon-separated tokens are expandable (no suffix, or a prefix [int]
    accepts).  A value holding a colon is split, each side expanded and
    converted with [str], and the sides rejoined with colons, one part per
    side, so that empty sides stay empty; a value without colon that matches
    no suffix, such as ["42"], is returned unchanged. *)
Theorem expand_unit_total_on_expandable_tokens (value : string) :
  (forall token, In token (str_split ":" value) -> token_ok token = true) ->
  exists v, expand_unit value = Ok v /\
    (str_contains ":" value = true ->
     exists parts,
       rmap (fun val => r <- expand_unit val ;; Ok (py_str r))%result
            (str_split ":" value) = Ok parts /\
       List.length parts = List.length (str_split ":" value) /\
       v = PyStr (str_join ":" parts)) /\
    (str_contains ":" value = false -> matched_unit value = None ->
     v = PyStr value) /\
    expand_unit "" = Ok (PyStr "") /\
    expand_unit "42" = Ok (PyStr "42") /\
    expand_unit "1000Mi:" = Ok (PyStr "1048576000:").
Proof.
  intros Htok.
  assert (Hclosed : expand_unit "" = Ok (PyStr "") /\
                    expand_unit "42" = Ok (PyStr "42") /\
                    expand_unit "1000Mi:" = Ok (PyStr "1048576000:"))
    by (repeat split; vm_compute; reflexivity).
  destruct (str_contains ":" value) eqn:E.
  - destruct (rmap_ok (fun val => r <- expand_unit val ;; Ok (py_str r))%result
                      (str_split ":" value)) as [parts [Hparts L]].
    { intros t Ht.
      rewrite expand_unit_token by (eapply str_split_pieces; exact Ht).
      destruct (expand_token_ok t (Htok t Ht)) as [v Hv].
      rewrite Hv. now eexists. }
    exists (PyStr (str_join ":" parts)).
    rewrite expand_unit_colon by exact E. rewrite Hparts.
    split; [reflexivity|]. split; [|split; [discriminate | exact Hclosed]].
    intros _. exists parts. repeat split; assumption.
  - assert (Hv : token_ok value = true).
    { apply Htok. rewrite str_split_nosep by exact E. now left. }
    destruct (expand_token_ok value Hv) as [v Hv'].
    exists v. rewrite expand_unit_token by exact E.
    split; [exact Hv'|]. split; [discriminate|]. split; [|exact Hclosed].
    intros _ Hnone. unfold expand_token in Hv'. rewrite Hnone in Hv'. congruence.
Qed.

Lemma expand_unit_total_on_expandable_tokens_witness :
  (forall token, In token (str_split ":" "1000Mi:2Ki") -> token_ok token = true) /\
  exists v, expand_unit "1000Mi:2Ki" = Ok v /\ v = PyStr "1048576000:2048".
Proof.
  assert (H : forall token, In token (str_split ":" "1000Mi:2Ki") ->
                            token_ok token = true).
  { intros token Ht. vm_compute in Ht.
    destruct Ht as [<-|[<-|[]]]; vm_compute; reflexivity. }
  split; [exact H|].
  destruct (expand_unit_total_on_expandable_tokens "1000Mi:2Ki" H)
    as [v [Hv _]].
  exists v. split; [exact Hv|].
  vm_compute in Hv. congruence.
Defined.

(** Counterexample to C10 as stated: ["1.5G"] carries a suffix and no
    colon, and [expand_unit] raises instead of returning an integer. *)
Lemma expand_unit_suffix_may_raise :
  In ("G", 1000000000) unit_table /\
  str_contains ":" "1.5G" = false /\
  str_endswith "1.5G" "G" = true /\
  expand_unit "1.5G" = Raise ValueError /\
  ~ (exists n, expand_unit "1.5G" = Ok (PyInt n)).
Proof.
  assert (H : expand_unit "1.5G" = Raise ValueError) by (vm_compute; reflexivity).
  split; [unfold unit_table; cbn [In]; tauto|].
  split; [reflexivity|]. split; [reflexivity|]. split; [exact H|].
  intros [n Hn]. rewrite H in Hn. discriminate.
Qed.

(** C10, amended: for every value without colon that ends with a suffix of
    the table and whose prefix [int] accepts, [expand_unit] returns the
    integer prefix times factor, not a string; [compare_range] raises
    [TypeError] on such an integer window, whatever the value; and a string
    comes back only from a value holding a colon or ending with no suffix of
    the table. *)
Theorem expand_unit_suffix_yields_int
  (value suffix : string) (factor n : Z) (v : pyfloat) :
  In (suffix, factor) unit_table ->
  str_contains ":" value = false ->
  str_endswith value suffix = true ->
  py_int (str_drop_last (String.length suffix) value) = Ok n ->
  expand_unit value = Ok (PyInt (n * factor)) /\
  compare_range v (PyInt (n * factor)) = Raise TypeError /\
  (forall value' s, expand_unit value' = Ok (PyStr s) ->
     str_contains ":" value' = true \/
     forall suffix' factor', In (suffix', factor') unit_table ->
                             str_endswith value' suffix' = false).
Proof.
  intros HIn Hcolon Hend Hint. split; [|split].
  - rewrite expand_unit_token by exact Hcolon.
    unfold expand_token. rewrite (matched_unit_in _ _ _ HIn Hend).
    rewrite Hint. reflexivity.
  - reflexivity.
  - intros value' s Hs.
    destruct (str_contains ":" value') eqn:E; [now left | right].
    intros suffix' factor' HIn'.
    destruct (str_endswith value' suffix') eqn:E'; [|reflexivity].
    rewrite expand_unit_token in Hs by exact E.
    unfold expand_token in Hs. rewrite (matched_unit_in _ _ _ HIn' E') in Hs.
    match type of Hs with
    | context [py_int ?x] => destruct (py_int x)
    end; cbn [rbind] in Hs; discriminate.
Qed.

Lemma expand_unit_suffix_yields_int_witness :
  expand_unit "8Gi" = Ok (PyInt (8 * 1073741824)) /\
  compare_range (Fin 1) (PyInt (8 * 1073741824)) = Raise TypeError.
Proof.
  destruct (expand_unit_suffix_yields_int "8Gi" "Gi" 1073741824 8 (Fin 1))
    as [H1 [H2 _]].
  - unfold unit_table. cbn [In]. tauto.
  - reflexivity.
  - reflexivity.
  - vm_compute. reflexivity.
  - split; [exact H1 | exact H2].
Defined.

(* ===================================================================== *)
(** ** The containment test *)
(* ===================================================================== *)

Lemma range_bits_colon (slo shi : string) :
  str_contains ":" slo = false ->
  str_contains ":" shi = false ->
  range_bits (slo ++ String ":" shi) =
  Ok (PyStr slo, PyStr (if String.eqb shi "" then "~" else shi)).
Proof.
  intros Hlo Hhi. unfold range_bits.
  rewrite str_contains_app. cbn [negb].
  rewrite (str_split_app _ _ _ Hlo), (str_split_nosep _ _ Hhi).
  reflexivity.
Qed.

(** The two rejection tests of the source are the specification's. *)
Lemma rejection_tests (incl : bool) (lo hi : option pyfloat) (v : pyfloat) :
  (if below incl lo v then Ok false
   else if above incl hi v then Ok false else Ok true)
  = Ok (negb (spec_rejects incl lo hi v)).
Proof.
  unfold below, above, spec_rejects.
  destruct incl, lo as [l|], hi as [h|]; cbn [andb orb negb];
    rewrite ?orb_false_r;
    repeat match goal with
      | |- context [if ?b then _ else _] => destruct b
      end; reflexivity.
Qed.

Lemma startswith_at_eqb (c : ascii) (s : string) :
  str_startswith (String c s) "@" = Ascii.eqb c "@".
Proof.
  unfold str_startswith. cbn [String.prefix].
  destruct (ascii_dec "@" c) as [<-|N].
  - destruct s; reflexivity.
  - symmetry. apply Ascii.eqb_neq. congruence.
Qed.

Lemma startswith_at (c : ascii) (s : string) :
  str_startswith (String c s) "@" = false -> Ascii.eqb c "@" = false.
Proof. now rewrite startswith_at_eqb. Qed.

(** The exceptions of [compare_range] come from reading the window: they do
    not depend on the value. *)
Lemma compare_range_raise_any_value (v v' : pyfloat) (window : pyval) (e : exn) :
  compare_range v window = Raise e -> compare_range v' window = Raise e.
Proof.
  destruct window as [z|[|c rest]]; cbn [compare_range]; try (intros H; exact H).
  destruct (range_bits _) as [bits|]; cbn [rbind]; [|intros H; exact H].
  destruct (bound (fst bits)) as [start|]; cbn [rbind]; [|intros H; exact H].
  destruct (bound (snd bits)) as [stop|]; cbn [rbind]; [|intros H; exact H].
  rewrite !rejection_tests. discriminate.
Qed.

(** The decision of [compare_range] once the window is read, for any shape
    of window: shorthand, two sides, or more. *)
Lemma compare_range_decision
  (v : pyfloat) (window : string) (bits : pyval * pyval) (lo hi : option pyfloat) :
  range_bits window = Ok bits ->
  bound (fst bits) = Ok lo ->
  bound (snd bits) = Ok hi ->
  compare_range v (PyStr (String "@" window))
    = Ok (negb (spec_rejects true lo hi v)) /\
  (window <> "" -> str_startswith window "@" = false ->
   compare_range v (PyStr window) = Ok (negb (spec_rejects false lo hi v))).
Proof.
  intros Hbits Hlo Hhi. split.
  - cbn [compare_range]. rewrite Ascii.eqb_refl, Hbits. cbn [rbind].
    rewrite Hlo, Hhi. cbn [rbind]. apply rejection_tests.
  - intros Hne Hat. destruct window as [|c rest]; [congruence|].
    cbn [compare_range]. rewrite (startswith_at _ _ Hat), Hbits. cbn [rbind].
    rewrite Hlo, Hhi. cbn [rbind]. apply rejection_tests.
Qed.

(** X1: The shorthand ["N"] is the range ["0:N"]. *)
Lemma compare_range_shorthand (v : pyfloat) (s : string) (hi : option pyfloat) :
  str_contains ":" s = false ->
  s <> "" ->
  str_startswith s "@" = false ->
  bound (PyStr s) = Ok hi ->
  compare_range v (PyStr s)
    = Ok (negb (spec_rejects false (Some (Fin 0)) hi v)) /\
  compare_range v (PyStr ("0:" ++ s)) = compare_range v (PyStr s).
Proof.
  intros Hcolon Hne Hat Hhi.
  assert (E : compare_range v (PyStr s)
              = Ok (negb (spec_rejects false (Some (Fin 0)) hi v))).
  { apply (compare_range_decision v s (PyInt 0, PyStr s)); try assumption.
    - unfold range_bits. rewrite Hcolon. reflexivity.
    - reflexivity. }
  split; [exact E|]. rewrite E.
  apply (compare_range_decision v ("0:" ++ s) (PyStr "0", PyStr s));
    try reflexivity; try discriminate.
  - change ("0:" ++ s) with ("0" ++ String ":" s).
    rewrite (range_bits_colon "0" s eq_refl Hcolon).
    destruct s; [congruence | reflexivity].
  - exact Hhi.
Qed.

(** A window with two sides, plain and behind ['@']. *)
Lemma compare_range_two_sides
  (v : pyfloat) (slo shi : string) (lo hi : option pyfloat) :
  str_contains ":" slo = false ->
  str_contains ":" shi = false ->
  str_startswith slo "@" = false ->
  bound (PyStr slo) = Ok lo ->
  bound (PyStr (if String.eqb shi "" then "~" else shi)) = Ok hi ->
  compare_range v (PyStr (slo ++ ":" ++ shi))
    = Ok (negb (spec_rejects false lo hi v)) /\
  compare_range v (PyStr ("@" ++ slo ++ ":" ++ shi))
    = Ok (negb (spec_rejects true lo hi v)).
Proof.
  intros Hlo Hhi Hat Blo Bhi.
  change (":" ++ shi) with (String ":" shi).
  pose proof (range_bits_colon _ _ Hlo Hhi) as Hbits.
  destruct (compare_range_decision v _ _ lo hi Hbits Blo Bhi) as [Hinv Hplain].
  split; [|exact Hinv].
  apply Hplain.
  - destruct slo; discriminate.
  - destruct slo as [|c rest]; [vm_compute in Blo; discriminate|].
    cbn [String.append]. rewrite startswith_at_eqb in *. exact Hat.
Qed.

(** C3: for a window [lo:hi] whose sides read as bounds ([None] for ['~'] or
    an empty upper side), the containment test accepts [v] exactly when [v]
    is not below a present lower bound and not above a present upper bound;
    behind ['@'] the two comparisons include equality.  For ["10:20"] the
    values 10 and 20 are accepted, 9.999 and 20.001 rejected; for ["@10:20"]
    10 and 20 are rejected and 10.5 is accepted. *)
Theorem compare_range_containment
  (v : pyfloat) (slo shi : string) (lo hi : option pyfloat) :
  str_contains ":" slo = false ->
  str_contains ":" shi = false ->
  str_startswith slo "@" = false ->
  bound (PyStr slo) = Ok lo ->
  bound (PyStr (if String.eqb shi "" then "~" else shi)) = Ok hi ->
  compare_range v (PyStr (slo ++ ":" ++ shi))
    = Ok (negb (match lo with Some l => float_lt v l | None => false end ||
                match hi with Some h => float_lt h v | None => false end)) /\
  compare_range v (PyStr ("@" ++ slo ++ ":" ++ shi))
    = Ok (negb (match lo with Some l => float_le v l | None => false end ||
                match hi with Some h => float_le h v | None => false end)) /\
  compare_range (Fin 10) (PyStr "10:20") = Ok true /\
  compare_range (Fin 20) (PyStr "10:20") = Ok true /\
  compare_range (Fin 9.999) (PyStr "10:20") = Ok false /\
  compare_range (Fin 20.001) (PyStr "10:20") = Ok false /\
  compare_range (Fin 10) (PyStr "@10:20") = Ok false /\
  compare_range (Fin 20) (PyStr "@10:20") = Ok false /\
  compare_range (Fin 10.5) (PyStr "@10:20") = Ok true.
Proof.
  intros Hlo Hhi Hat Blo Bhi.
  destruct (compare_range_two_sides v slo shi lo hi Hlo Hhi Hat Blo Bhi)
    as [Hplain Hinv].
  split; [exact Hplain|]. split; [exact Hinv|].
  repeat split; vm_compute; reflexivity.
Qed.

Lemma compare_range_containment_witness :
  compare_range (Fin 7) (PyStr ("5" ++ ":" ++ ""))
    = Ok (negb (float_lt (Fin 7) (Fin 5) || false)) /\
  compare_range (Fin 7) (PyStr ("@" ++ "5" ++ ":" ++ ""))
    = Ok (negb (float_le (Fin 7) (Fin 5) || false)).
Proof.
  destruct (compare_range_containment (Fin 7) "5" "" (Some (Fin 5)) None)
    as [H1 [H2 _]]; try reflexivity.
  split; [exact H1 | exact H2].
Defined.

(** With finite bounds the test is the closed interval, and behind ['@'] the
    open one. *)
Lemma compare_range_finite_bounds (x l h : Q) (slo shi : string) :
  str_contains ":" slo = false ->
  str_contains ":" shi = false ->
  str_startswith slo "@" = false ->
  bound (PyStr slo) = Ok (Some (Fin l)) ->
  bound (PyStr (if String.eqb shi "" then "~" else shi)) = Ok (Some (Fin h)) ->
  (compare_range (Fin x) (PyStr (slo ++ ":" ++ shi)) = Ok true
     <-> (l <= x /\ x <= h)%Q) /\
  (compare_range (Fin x) (PyStr ("@" ++ slo ++ ":" ++ shi)) = Ok true
     <-> (l < x /\ x < h)%Q).
Proof.
  intros Hlo Hhi Hat Blo Bhi.
  destruct (compare_range_two_sides (Fin x) _ _ _ _ Hlo Hhi Hat Blo Bhi)
    as [H1 H2].
  rewrite H1, H2. cbn [spec_rejects float_lt float_le].
  split; split.
  - intros H. injection H as H. rewrite negb_orb, !negb_involutive in H.
    apply andb_true_iff in H. now rewrite <- !Qle_bool_iff.
  - intros [A B]. apply Qle_bool_iff in A, B. now rewrite A, B.
  - intros H. injection H as H. rewrite negb_orb in H.
    apply andb_true_iff in H. destruct H as [A B].
    apply negb_true_iff in A, B. split; apply Qnot_le_lt; intros C;
      apply Qle_bool_iff in C; congruence.
  - intros [A B]. apply Qlt_not_le in A, B.
    destruct (Qle_bool x l) eqn:E1; [apply Qle_bool_iff in E1; contradiction|].
    destruct (Qle_bool h x) eqn:E2; [apply Qle_bool_iff in E2; contradiction|].
    reflexivity.
Qed.

(* ===================================================================== *)
(** ** Severity of one metric *)
(* ===================================================================== *)

(** C7: [compare] tests the critical range first.  A value outside the
    critical range is CRITICAL whatever the warning range is, in particular
    when it is outside both; a value inside the critical range and outside
    the warning range is WARNING; a value inside both is OK. *)
Theorem compare_critical_first (v : pyfloat) (warn crit : pyval) :
  (compare_range v crit = Ok false -> compare v warn crit = Ok STATE_CRIT) /\
  (compare_range v crit = Ok false -> compare_range v warn = Ok false ->
   compare v warn crit = Ok STATE_CRIT) /\
  (compare_range v crit = Ok true -> compare_range v warn = Ok false ->
   compare v warn crit = Ok STATE_WARN) /\
  (compare_range v crit = Ok true -> compare_range v warn = Ok true ->
   compare v warn crit = Ok STATE_OK).
Proof.
  unfold compare. repeat split.
  - intros ->. reflexivity.
  - intros -> _. reflexivity.
  - intros -> ->. reflexivity.
  - intros -> ->. reflexivity.
Qed.

Lemma compare_critical_first_witness :
  compare (Fin 30) (PyStr "10") (PyStr "20") = Ok STATE_CRIT /\
  compare (Fin 15) (PyStr "10") (PyStr "20") = Ok STATE_WARN /\
  compare (Fin 5) (PyStr "10") (PyStr "20") = Ok STATE_OK.
Proof.
  split; [|split].
  - apply (proj1 (proj2 (compare_critical_first (Fin 30) (PyStr "10") (PyStr "20"))));
      vm_compute; reflexivity.
  - apply (proj1 (proj2 (proj2
             (compare_critical_first (Fin 15) (PyStr "10") (PyStr "20")))));
      vm_compute; reflexivity.
  - apply (proj2 (proj2 (proj2
             (compare_critical_first (Fin 5) (PyStr "10") (PyStr "20")))));
      vm_compute; reflexivity.
Defined.

(* ===================================================================== *)
(** ** Running effectful code *)
(* ===================================================================== *)

Lemma bind_ok {A B} (m : M A) (k : A -> M B) (w w' : world) (a : A) :
  m w = (Ok a, w') -> bind m k w = k a w'.
Proof. unfold bind. now intros ->. Qed.

Lemma bind_raise {A B} (m : M A) (k : A -> M B) (w w' : world) (e : exn) :
  m w = (Raise e, w') -> bind m k w = (Raise e, w').
Proof. unfold bind. now intros ->. Qed.

Section Sampler.

Variable env : collaborators.
Variable self : Metric.
Variable dims : list (string * string).
Hypothesis Hdims : get_dimensions self = Ok dims.

Lemma cloudwatch_answer (offset : Z) (w : world) (datapoints : list Q) :
  get_metric_statistics env (metric_calls w) = Answer datapoints ->
  cloudwatch_get_statistics env self offset w
  = (Ok datapoints, after_call self dims offset w).
Proof.
  intros H. unfold cloudwatch_get_statistics, bind, lift.
  rewrite Hdims, H. reflexivity.
Qed.

Lemma cloudwatch_failure (offset : Z) (w : world) (msg : string) :
  get_metric_statistics env (metric_calls w) = TransportFailure msg ->
  cloudwatch_get_statistics env self offset w
  = (Raise (ClientError msg), after_call self dims offset w).
Proof.
  intros H. unfold cloudwatch_get_statistics, bind, lift.
  rewrite Hdims, H. reflexivity.
Qed.

Lemma get_statistics_rec_cap (depth : nat) (offset : Z) (w : world) :
  20 < offset ->
  get_statistics_rec env (S depth) self offset w = (Ok None, w).
Proof.
  intros H. cbn [get_statistics_rec].
  destruct (Z.ltb_spec 20 offset); [reflexivity | lia].
Qed.

Lemma get_statistics_rec_data (depth : nat) (offset : Z) (w : world)
  (d : Q) (ds : list Q) :
  offset <= 20 ->
  get_metric_statistics env (metric_calls w) = Answer (d :: ds) ->
  get_statistics_rec env (S depth) self offset w
  = (Ok (Some (d :: ds)), after_call self dims offset w).
Proof.
  intros Hoff H. cbn [get_statistics_rec].
  destruct (Z.ltb_spec 20 offset); [lia|].
  unfold bind at 1, try_except. rewrite (cloudwatch_answer _ _ _ H).
  reflexivity.
Qed.

Lemma get_statistics_rec_empty_last_state (depth : nat) (offset : Z) (w : world) :
  offset <= 20 ->
  last_state self = true ->
  get_metric_statistics env (metric_calls w) = Answer [] ->
  get_statistics_rec env (S depth) self offset w
  = get_statistics_rec env depth self (offset + 1) (after_call self dims offset w).
Proof.
  intros Hoff Hls H. cbn [get_statistics_rec].
  destruct (Z.ltb_spec 20 offset); [lia|].
  unfold bind at 1, try_except. rewrite (cloudwatch_answer _ _ _ H).
  rewrite Hls. reflexivity.
Qed.

Lemma get_statistics_rec_empty_no_fallback (depth : nat) (offset : Z) (w : world) :
  offset <= 20 ->
  last_state self = false ->
  get_metric_statistics env (metric_calls w) = Answer [] ->
  get_statistics_rec env (S depth) self offset w
  = (Ok (Some []), after_call self dims offset w).
Proof.
  intros Hoff Hls H. cbn [get_statistics_rec].
  destruct (Z.ltb_spec 20 offset); [lia|].
  unfold bind at 1, try_except. rewrite (cloudwatch_answer _ _ _ H).
  rewrite Hls. reflexivity.
Qed.

(** A transport failure: the message is printed, the process exits with
    UNKNOWN, and the failed call is not repeated. *)
Lemma get_statistics_rec_transport_failure
  (depth : nat) (offset : Z) (w : world) (msg : string) :
  offset <= 20 ->
  get_metric_statistics env (metric_calls w) = TransportFailure msg ->
  get_statistics_rec env (S depth) self offset w
  = (Raise (SystemExit 3),
     {| trace := trace (after_call self dims offset w) ++
                   [Stdout ("UNKNOWN - " ++ msg)];
        metric_calls := S (metric_calls w) |}).
Proof.
  intros Hoff H. cbn [get_statistics_rec].
  destruct (Z.ltb_spec 20 offset); [lia|].
  unfold bind at 1, try_except. rewrite (cloudwatch_failure _ _ _ H).
  reflexivity.
Qed.

(** [n] empty answers in a row move the window [n] minutes into the past. *)
Lemma get_statistics_rec_empty_run (n : nat) :
  forall (depth : nat) (offset : Z) (w : world),
    last_state self = true ->
    offset + Z.of_nat n <= 21 ->
    (forall k, (k < n)%nat ->
               get_metric_statistics env (metric_calls w + k) = Answer []) ->
    exists w',
      metric_calls w' = (metric_calls w + n)%nat /\
      get_statistics_rec env (n + depth) self offset w
      = get_statistics_rec env depth self (offset + Z.of_nat n) w'.
Proof.
  induction n as [|n IH]; intros depth offset w Hls Hoff Hempty.
  - exists w. split; [lia|]. cbn [Nat.add]. now rewrite Z.add_0_r.
  - assert (H0 : get_metric_statistics env (metric_calls w) = Answer []).
    { rewrite <- (Nat.add_0_r (metric_calls w)). apply Hempty. lia. }
    destruct (IH depth (offset + 1) (after_call self dims offset w) Hls)
      as [w' [Hcalls Hrun]].
    + lia.
    + intros k Hk. cbn [after_call metric_calls].
      replace (S (metric_calls w) + k)%nat with (metric_calls w + S k)%nat by lia.
      apply Hempty. lia.
    + exists w'. split.
      * rewrite Hcalls. cbn [after_call metric_calls]. lia.
      * cbn [Nat.add].
        assert (Hle : offset <= 20) by lia.
        rewrite (get_statistics_rec_empty_last_state _ _ _ Hle Hls H0).
        rewrite Hrun. f_equal. lia.
Qed.

End Sampler.

(* ===================================================================== *)
(** ** The bounded retry of the sampler *)
(* ===================================================================== *)

(** C1: with [last_state] set, 19 empty answers followed by data on the 20th
    call make [get_current_value] return the last datapoint of that data,
    after 20 calls.  After 21 empty answers [get_statistics] stops at offset
    21 and returns [None]; [get_current_value] then subscripts that [None]
    and raises [TypeError] instead of returning an absent sample. *)
Theorem get_current_value_bounded_retry
  (env : collaborators) (self : Metric) (dims : list (string * string))
  (w : world) :
  last_state self = true ->
  get_dimensions self = Ok dims ->
  (forall (d : Q) (ds : list Q),
     (forall k, (k < 19)%nat ->
                get_metric_statistics env (metric_calls w + k) = Answer []) ->
     get_metric_statistics env (metric_calls w + 19) = Answer (d :: ds) ->
     exists w',
       get_current_value env self w = (Ok (Some (last ds d)), w') /\
       metric_calls w' = (metric_calls w + 20)%nat) /\
  ((forall k, (k < 21)%nat ->
              get_metric_statistics env (metric_calls w + k) = Answer []) ->
   exists w',
     get_statistics env self 0 w = (Ok None, w') /\
     get_current_value env self w = (Raise TypeError, w') /\
     metric_calls w' = (metric_calls w + 21)%nat).
Proof.
  intros Hls Hdims. split.
  - intros d ds Hempty Hdata.
    destruct (get_statistics_rec_empty_run env self dims Hdims 19 981 0 w Hls)
      as [w19 [Hcalls Hrun]]; [lia | exact Hempty |].
    rewrite <- Hcalls in Hdata.
    exists (after_call self dims (0 + Z.of_nat 19) w19). split.
    + unfold get_current_value, get_statistics.
      change recursion_limit with (19 + 981)%nat.
      erewrite bind_ok.
      2:{ rewrite Hrun. change 981%nat with (S 980).
          apply (get_statistics_rec_data env self dims Hdims); [lia | exact Hdata]. }
      reflexivity.
    + cbn [after_call metric_calls]. lia.
  - intros Hempty.
    destruct (get_statistics_rec_empty_run env self dims Hdims 21 979 0 w Hls)
      as [w21 [Hcalls Hrun]]; [lia | exact Hempty |].
    assert (Hstat : get_statistics env self 0 w = (Ok None, w21)).
    { unfold get_statistics. change recursion_limit with (21 + 979)%nat.
      rewrite Hrun. change 979%nat with (S 978).
      apply get_statistics_rec_cap. lia. }
    exists w21. split; [exact Hstat|]. split; [|exact Hcalls].
    unfold get_current_value. erewrite bind_ok by exact Hstat. reflexivity.
Qed.

Lemma get_current_value_bounded_retry_witness :
  fst (get_current_value (sample_env silent_source)
         (rds_metric sample_args_last_state "CPUUtilization" "Maximum")
         initial_world) = Raise TypeError /\
  metric_calls
    (snd (get_current_value (sample_env silent_source)
            (rds_metric sample_args_last_state "CPUUtilization" "Maximum")
            initial_world)) = 21%nat.
Proof.
  destruct (proj2 (get_current_value_bounded_retry
                     (sample_env silent_source)
                     (rds_metric sample_args_last_state "CPUUtilization" "Maximum")
                     [("DBInstanceIdentifier", "mydb")]
                     initial_world eq_refl eq_refl))
    as [w' [_ [H Hcalls]]].
  - intros k _. reflexivity.
  - rewrite H. split; [reflexivity | exact Hcalls].
Defined.

(** X16: With [last_state] unset a single empty answer is an absent sample, and
    no further call is made. *)
Lemma get_current_value_no_fallback
  (env : collaborators) (self : Metric) (dims : list (string * string))
  (w : world) :
  last_state self = false ->
  get_dimensions self = Ok dims ->
  get_metric_statistics env (metric_calls w) = Answer [] ->
  get_current_value env self w = (Ok None, after_call self dims 0 w).
Proof.
  intros Hls Hdims H. unfold get_current_value, get_statistics.
  erewrite bind_ok.
  2:{ change recursion_limit with (S 999).
      apply (get_statistics_rec_empty_no_fallback env self dims Hdims);
        [lia | exact Hls | exact H]. }
  reflexivity.
Qed.

(** The recursion limit is never reached from a non-negative offset. *)
Lemma get_statistics_rec_stable (env : collaborators) (self : Metric) :
  forall (d1 d2 : nat) (offset : Z) (w : world),
    (Z.to_nat (21 - offset) < d1)%nat ->
    (Z.to_nat (21 - offset) < d2)%nat ->
    get_statistics_rec env d1 self offset w
    = get_statistics_rec env d2 self offset w.
Proof.
  induction d1 as [|d1 IH]; intros d2 offset w H1 H2; [lia|].
  destruct d2 as [|d2]; [lia|].
  cbn [get_statistics_rec].
  destruct (Z.ltb_spec 20 offset); [reflexivity|].
  unfold bind, try_except.
  destruct (cloudwatch_get_statistics env self offset w) as [[dps|e] w'];
    [|destruct e; reflexivity].
  destruct dps; [|reflexivity].
  destruct (last_state self); [|reflexivity].
  apply IH; lia.
Qed.

(* ===================================================================== *)
(** ** CloudWatch calls made by a run *)
(* ===================================================================== *)

Lemma calls_kept_ret {A} (a : A) : calls_kept (ret a).
Proof. intros w r w' H. inversion H. reflexivity. Qed.

Lemma calls_kept_lift {A} (r : result A) : calls_kept (lift r).
Proof. intros w r' w' H. inversion H. reflexivity. Qed.

Lemma calls_kept_raise {A} (e : exn) : calls_kept (@raise A e).
Proof. intros w r w' H. inversion H. reflexivity. Qed.

Lemma calls_kept_emit (e : event) : calls_kept (emit e).
Proof. intros w r w' H. inversion H. reflexivity. Qed.

Lemma calls_kept_boto {A} (r : reply A) : calls_kept (boto r).
Proof. destruct r; [apply calls_kept_ret | apply calls_kept_raise]. Qed.

Lemma calls_kept_bind {A B} (m : M A) (k : A -> M B) :
  calls_kept m -> (forall a, calls_kept (k a)) -> calls_kept (bind m k).
Proof.
  intros Hm Hk w r w' H. unfold bind in H.
  destruct (m w) as [[a|e] w1] eqn:E.
  - rewrite (Hk a _ _ _ H). apply (Hm _ _ _ E).
  - inversion H. subst. apply (Hm _ _ _ E).
Qed.

Create HintDb calls.
#[local] Hint Resolve calls_kept_ret calls_kept_lift calls_kept_raise
  calls_kept_emit calls_kept_boto : calls.

Ltac calls_kept_steps :=
  repeat lazymatch goal with
    | |- forall _, _ => intro
    | |- calls_kept (bind _ _) => apply calls_kept_bind
    | |- calls_kept (fun w => (?r, w)) => exact (calls_kept_lift r)
    | |- calls_kept _ => solve [auto with calls]
    end.

Lemma DbInstance_init_calls_kept (env : collaborators) (region identifier : string) :
  calls_kept (DbInstance_init env region identifier).
Proof.
  unfold DbInstance_init, fetch_parameters, fetch_instance_class. cbv zeta.
  calls_kept_steps.
Qed.

(** Every CloudWatch call is counted, and a call that gives datapoints has
    been made when [get_statistics] returns them. *)
Lemma get_statistics_rec_calls (env : collaborators) (self : Metric) :
  forall (depth : nat) (offset : Z) (w : world) r w',
    get_statistics_rec env depth self offset w = (r, w') ->
    (metric_calls w <= metric_calls w')%nat /\
    (forall dps, r = Ok (Some dps) -> (metric_calls w < metric_calls w')%nat).
Proof.
  induction depth as [|depth IH]; intros offset w r w' H.
  - inversion H. split; [lia | discriminate].
  - cbn [get_statistics_rec] in H.
    destruct (Z.ltb 20 offset).
    { inversion H. split; [lia | discriminate]. }
    unfold bind at 1, try_except, cloudwatch_get_statistics in H.
    unfold bind at 1, lift in H.
    destruct (get_dimensions self) as [dims|e].
    + destruct (get_metric_statistics env (metric_calls w)) as [dps|msg];
        cbn [boto ret raise] in H.
      * destruct dps as [|d ds].
        -- destruct (last_state self).
           ++ apply IH in H. cbn [metric_calls] in H. destruct H as [H1 H2].
              split; [lia|]. intros dps Hd. specialize (H2 dps Hd). lia.
           ++ inversion H. cbn [metric_calls]. split; [lia|]. intros. lia.
        -- inversion H. cbn [metric_calls]. split; [lia|]. intros. lia.
      * inversion H. cbn [metric_calls]. split; [lia | discriminate].
    + destruct e; inversion H; cbn [metric_calls]; (split; [lia | discriminate]).
Qed.

Lemma get_current_value_calls (env : collaborators) (self : Metric)
  (w w' : world) (x : option Q) :
  get_current_value env self w = (Ok x, w') ->
  (metric_calls w < metric_calls w')%nat.
Proof.
  unfold get_current_value, get_statistics, bind. intros H.
  destruct (get_statistics_rec env recursion_limit self 0 w)
    as [[[dps|]|e] w1] eqn:E; try discriminate.
  apply get_statistics_rec_calls in E. destruct E as [_ E].
  specialize (E dps eq_refl).
  destruct dps; inversion H; subst; exact E.
Qed.

Lemma unused_connections_calls (env : collaborators) (args : Args)
  (w w' : world) (x : option pyfloat) :
  unused_connections env args w = (Ok x, w') ->
  (metric_calls w < metric_calls w')%nat.
Proof.
  unfold unused_connections. intros H. unfold bind at 1 in H.
  destruct (DbInstance_init env (region args) (instance args) w)
    as [[inst|e] w0] eqn:E0; [|discriminate].
  apply DbInstance_init_calls_kept in E0. rewrite <- E0.
  unfold bind at 1, lift in H.
  destruct (max_connections inst) as [mc|e]; [|discriminate].
  unfold bind at 1 in H.
  destruct (get_current_value env _ w0) as [[current|e] w1] eqn:E1;
    [|discriminate].
  apply get_current_value_calls in E1.
  assert (Hk : metric_calls w' = metric_calls w1); [|lia].
  match type of H with
  | ?m w1 = _ => assert (K : calls_kept m)
  end.
  { destruct (percent args); calls_kept_steps. }
  exact (K _ _ _ H).
Qed.

(* ===================================================================== *)
(** ** Exceptions of the threshold engine *)
(* ===================================================================== *)

Lemma range_bits_raises (window : string) (e : exn) :
  range_bits window = Raise e -> e = IndexError.
Proof.
  unfold range_bits, list_index.
  destruct (negb (str_contains ":" window)); [discriminate|].
  destruct (nth_error _ 0); cbn [rbind]; [|congruence].
  destruct (nth_error _ 1); cbn [rbind]; [discriminate | congruence].
Qed.

Lemma bound_raises (s : string) (e : exn) :
  bound (PyStr s) = Raise e -> e = ValueError.
Proof.
  unfold bound. destruct (is_tilde (PyStr s)); [discriminate|].
  cbn [py_float rbind].
  unfold float_of_str. destruct (take_sign _) as [neg body].
  destruct (parse_absfloat body); cbn [rbind]; [discriminate | congruence].
Qed.

(** The lower side [range_bits] gives is the [int] 0 or a string, the upper
    side a string: reading them fails with the [ValueError] of [float] only. *)
Lemma range_bits_bound_raises (window : string) (bits : pyval * pyval) (e : exn) :
  range_bits window = Ok bits ->
  bound (fst bits) = Raise e \/ bound (snd bits) = Raise e ->
  e = ValueError.
Proof.
  unfold range_bits, list_index.
  destruct (negb (str_contains ":" window)).
  - intros H. injection H as <-. cbn [fst snd].
    intros [H|H]; [vm_compute in H; discriminate | exact (bound_raises _ _ H)].
  - destruct (nth_error _ 0); cbn [rbind]; [|discriminate].
    destruct (nth_error _ 1); cbn [rbind]; [|discriminate].
    intros H. injection H as <-. cbn [fst snd].
    intros [H|H]; exact (bound_raises _ _ H).
Qed.

Lemma compare_range_raises (v : pyfloat) (window : pyval) (e : exn) :
  compare_range v window = Raise e ->
  e = TypeError \/ e = IndexError \/ e = ValueError.
Proof.
  destruct window as [z|[|c rest]]; cbn [compare_range].
  - intros H. left. congruence.
  - intros H. right. left. congruence.
  - destruct (range_bits _) as [bits|e0] eqn:E0; cbn [rbind].
    2:{ intros H. right. left. apply range_bits_raises in E0. congruence. }
    destruct (bound (fst bits)) as [start|e1] eqn:E1; cbn [rbind].
    2:{ intros H. right. right.
        pose proof (range_bits_bound_raises _ _ e1 E0 (or_introl E1)). congruence. }
    destruct (bound (snd bits)) as [stop|e2] eqn:E2; cbn [rbind].
    2:{ intros H. right. right.
        pose proof (range_bits_bound_raises _ _ e2 E0 (or_intror E2)). congruence. }
    rewrite rejection_tests. discriminate.
Qed.

(* ===================================================================== *)
(** ** Runs of [main] *)
(* ===================================================================== *)

(** C9: a transport failure of the metadata collaborator is not caught.
    [DbInstance.__init__] has no handler, so the [ClientError] of
    [describe_db_instances] reaches the top level: nothing is printed on the
    standard output and the exit status is 1, not UNKNOWN.  The failed call is
    not repeated. *)
Theorem metadata_transport_failure_uncaught
  (env : collaborators) (str_float : Q -> string) (args : Args) (msg : string) :
  describe_db_instances env (instance args) = TransportFailure msg ->
  run env str_float args
  = (Raise (ClientError msg),
     {| trace := [DescribeDbInstances (region args) (instance args)];
        metric_calls := 0 |}) /\
  exit_status (fst (run env str_float args)) = 1 /\
  exit_status (fst (run env str_float args)) <> state_code STATE_UNKNOWN.
Proof.
  intros H.
  assert (R : run env str_float args
              = (Raise (ClientError msg),
                 {| trace := [DescribeDbInstances (region args) (instance args)];
                    metric_calls := 0 |})).
  { unfold run, main. cbv zeta.
    erewrite bind_raise; [reflexivity|].
    unfold unused_connections.
    erewrite bind_raise; [reflexivity|].
    unfold DbInstance_init.
    erewrite bind_ok by reflexivity.
    erewrite bind_raise; [reflexivity|].
    rewrite H. reflexivity. }
  rewrite R. repeat split. discriminate.
Qed.

Lemma metadata_transport_failure_uncaught_witness :
  fst (run rds_down_env sample_str_float sample_args)
    = Raise (ClientError "Unable to locate credentials") /\
  exit_status (fst (run rds_down_env sample_str_float sample_args)) = 1.
Proof.
  destruct (metadata_transport_failure_uncaught rds_down_env sample_str_float
              sample_args "Unable to locate credentials" eq_refl)
    as [H1 [H2 _]].
  rewrite H1. split; reflexivity.
Defined.

(** The metric collaborator, by contrast, is handled: a transport failure of
    any call of [get_statistics] prints the diagnostic and exits UNKNOWN, and
    the failed call is the last one. *)
Lemma metric_transport_failure_exits_unknown
  (env : collaborators) (self : Metric) (dims : list (string * string))
  (w : world) (msg : string) :
  get_dimensions self = Ok dims ->
  get_metric_statistics env (metric_calls w) = TransportFailure msg ->
  get_current_value env self w
  = (Raise (SystemExit (state_code STATE_UNKNOWN)),
     {| trace := trace (after_call self dims 0 w) ++ [Stdout ("UNKNOWN - " ++ msg)];
        metric_calls := S (metric_calls w) |}).
Proof.
  intros Hdims H. unfold get_current_value, get_statistics.
  erewrite bind_raise; [reflexivity|].
  change recursion_limit with (S 999).
  apply (get_statistics_rec_transport_failure env self dims Hdims); [lia | exact H].
Qed.

(** C2: when the DatabaseConnections sample is absent, [unused_connections]
    subtracts [None] from the connection limit: the run ends with an
    uncaught [TypeError] and exit status 1 before any state is computed,
    instead of reporting UNKNOWN for the metric. *)
Theorem main_absent_connections_sample
  (env : collaborators) (str_float : Q -> string) (args : Args)
  (inst : DbInstance) (mc : Z) (w0 w1 : world) :
  DbInstance_init env (region args) (instance args) initial_world = (Ok inst, w0) ->
  max_connections inst = Ok mc ->
  get_current_value env (rds_metric args "DatabaseConnections" "Minimum") w0
    = (Ok None, w1) ->
  run env str_float args = (Raise TypeError, w1) /\
  exit_status (fst (run env str_float args)) = 1.
Proof.
  intros H0 Hmc H1.
  assert (R : run env str_float args = (Raise TypeError, w1)).
  { unfold run, main. cbv zeta.
    erewrite bind_raise; [reflexivity|].
    unfold unused_connections.
    erewrite bind_ok by exact H0. cbv zeta.
    erewrite bind_ok by (unfold lift; rewrite Hmc; reflexivity).
    erewrite bind_ok by exact H1.
    reflexivity. }
  rewrite R. split; reflexivity.
Qed.

Lemma main_absent_connections_sample_witness :
  fst (run (sample_env silent_source) sample_str_float sample_args)
    = Raise TypeError /\
  exit_status (fst (run (sample_env silent_source) sample_str_float sample_args))
    = 1.
Proof.
  edestruct (main_absent_connections_sample (sample_env silent_source)
               sample_str_float sample_args) as [H1 H2].
  - reflexivity.
  - reflexivity.
  - reflexivity.
  - rewrite H1. split; reflexivity.
Defined.

(** The FreeStorageSpace sample is absent: [free_storage] (with [--percent])
    or the conversion to MiB in [main] (without) divides [None]. *)
Lemma main_absent_storage_sample
  (env : collaborators) (str_float : Q -> string) (args : Args)
  (v1 : option pyfloat) (st1 : state) (inst : DbInstance) (w1 w2 w3 : world) :
  unused_connections env args initial_world = (Ok v1, w1) ->
  match v1 with
  | None => Ok STATE_UNKNOWN
  | Some v => compare v (PyStr (warn_conns args)) (PyStr (crit_conns args))
  end = Ok st1 ->
  DbInstance_init env (region args) (instance args) w1 = (Ok inst, w2) ->
  get_current_value env (rds_metric args "FreeStorageSpace" "Minimum") w2
    = (Ok None, w3) ->
  run env str_float args = (Raise TypeError, w3).
Proof.
  intros H1 Hst1 H2 H3. unfold run, main. cbv zeta.
  erewrite bind_ok by exact H1.
  erewrite bind_ok by (unfold lift; rewrite Hst1; reflexivity).
  unfold free_storage. destruct (percent args).
  - erewrite bind_raise; [reflexivity|].
    erewrite bind_ok by exact H2. cbv zeta.
    erewrite bind_ok by exact H3. reflexivity.
  - erewrite bind_ok.
    2:{ erewrite bind_ok by exact H2. cbv zeta.
        erewrite bind_ok by exact H3. reflexivity. }
    reflexivity.
Qed.

(** X19: A run in which the three metrics are obtained and the thresholds read:
    the states are collected in the order connections, storage, CPU, the
    summary of that sequence is printed and its severity is the exit status.
    An absent CPU sample is UNKNOWN whatever the CPU thresholds are. *)
Lemma main_completes
  (env : collaborators) (str_float : Q -> string) (args : Args)
  (v1 v2 shown v3 : option pyfloat) (st1 st2 st3 : state) (w1 w2 w3 : world) :
  unused_connections env args initial_world = (Ok v1, w1) ->
  match v1 with
  | None => Ok STATE_UNKNOWN
  | Some v => compare v (PyStr (warn_conns args)) (PyStr (crit_conns args))
  end = Ok st1 ->
  free_storage env args w1 = (Ok v2, w2) ->
  match v2 with
  | None => Ok STATE_UNKNOWN
  | Some v =>
      (warn <- expand_unit (warn_disk args) ;;
       crit <- expand_unit (crit_disk args) ;;
       compare v warn crit)%result
  end = Ok st2 ->
  (if percent args then Ok v2
   else (x <- div_sample v2 1024 ;;
         y <- div_sample (Some x) 1024 ;;
         Ok (Some y))%result) = Ok shown ->
  cpu_used env args w2 = (Ok v3, w3) ->
  match v3 with
  | None => Ok STATE_UNKNOWN
  | Some v => compare v (PyStr (warn_cpu args)) (PyStr (crit_cpu args))
  end = Ok st3 ->
  let states :=
    [ {| item_name := "free_connections"; item_state := st1; item_value := v1;
         item_unit := if percent args then "%" else "" |};
      {| item_name := "free_storage"; item_state := st2; item_value := shown;
         item_unit := if percent args then "%" else " MiB" |};
      {| item_name := "cpu_used"; item_state := st3; item_value := v3;
         item_unit := "%" |} ] in
  run env str_float args
  = (Raise (SystemExit (state_code (fst (aggregate states)))),
     {| trace := trace w3 ++ [Stdout (summary str_float states)];
        metric_calls := metric_calls w3 |}).
Proof.
  intros H1 Hst1 H2 Hst2 Hshown H3 Hst3 states.
  unfold run, main. cbv zeta.
  erewrite bind_ok by exact H1.
  erewrite bind_ok by (unfold lift; rewrite Hst1; reflexivity).
  erewrite bind_ok by exact H2.
  erewrite bind_ok by (unfold lift; rewrite Hst2; reflexivity).
  erewrite bind_ok by (unfold lift; rewrite Hshown; reflexivity).
  erewrite bind_ok by exact H3.
  erewrite bind_ok by (unfold lift; rewrite Hst3; reflexivity).
  reflexivity.
Qed.

(** An absent CPUUtilization sample is reported as UNKNOWN even with CPU
    thresholds that cannot be read, and takes part in the aggregation. *)
Lemma absent_cpu_sample_is_unknown :
  run (sample_env (fun k => match k with
                            | O => Answer [50%Q]
                            | 1%nat => Answer [2000000000%Q]
                            | _ => Answer []
                            end))
      sample_str_float args_bad_cpu
  = (Raise (SystemExit (state_code STATE_UNKNOWN)),
     {| trace :=
          [DescribeDbInstances "eu-central-1" "mydb";
           DescribeDbParameters "eu-central-1" "default.mysql8.0";
           DescribeInstanceTypes "t3.micro";
           GetMetricStatistics "DatabaseConnections"
             [("DBInstanceIdentifier", "mydb")] 5 0 300 "Minimum";
           DescribeDbInstances "eu-central-1" "mydb";
           DescribeDbParameters "eu-central-1" "default.mysql8.0";
           DescribeInstanceTypes "t3.micro";
           GetMetricStatistics "FreeStorageSpace"
             [("DBInstanceIdentifier", "mydb")] 5 0 300 "Minimum";
           GetMetricStatistics "CPUUtilization"
             [("DBInstanceIdentifier", "mydb")] 5 0 300 "Maximum";
           Stdout "UNKNOWN: free_connections:35/1, free_storage:1953125/1024 MiB, cpu_used:None%"];
        metric_calls := 3 |}).
Proof. vm_compute. reflexivity. Qed.

(** No threshold is read before the first metric has been fetched: when
    fetching the connections metric fails, the run fails the same way
    whatever the six threshold strings are. *)
Lemma failure_before_thresholds_are_read
  (env : collaborators) (str_float : Q -> string) (args : Args)
  (e : exn) (w1 : world) :
  unused_connections env args initial_world = (Raise e, w1) ->
  run env str_float args = (Raise e, w1).
Proof.
  intros H. unfold run, main. cbv zeta.
  erewrite bind_raise; [reflexivity | exact H].
Qed.

(* ===================================================================== *)
(** ** Aggregation *)
(* ===================================================================== *)

Lemma state_eqb_eq (a b : state) : state_eqb a b = true <-> a = b.
Proof. destruct a, b; cbn; split; intros H; congruence. Qed.

Lemma truthy_with_state (s : state) (states : list item) :
  truthy (with_state s states) = true <->
  exists it, In it states /\ item_state it = s.
Proof.
  unfold with_state. split.
  - destruct (filter _ states) as [|it l] eqn:E; [discriminate|]. intros _.
    assert (H : In it (filter (fun it => state_eqb (item_state it) s) states))
      by (rewrite E; now left).
    apply filter_In in H. destruct H as [H1 H2].
    exists it. split; [exact H1 | now apply state_eqb_eq].
  - intros [it [H1 H2]].
    assert (H : In it (filter (fun it => state_eqb (item_state it) s) states))
      by (apply filter_In; split; [exact H1 | now apply state_eqb_eq]).
    destruct (filter _ states); [contradiction | reflexivity].
Qed.

Lemma truthy_with_state_false (s : state) (states : list item) (it : item) :
  truthy (with_state s states) = false -> In it states -> item_state it <> s.
Proof.
  intros H HIn Heq.
  assert (T : truthy (with_state s states) = true)
    by (apply truthy_with_state; now exists it).
  congruence.
Qed.

Lemma truthy_with_state_perm (s : state) (l l' : list item) :
  Permutation l l' -> truthy (with_state s l) = truthy (with_state s l').
Proof.
  intros P. apply eq_true_iff_eq. rewrite !truthy_with_state.
  split; intros [it [H1 H2]]; exists it; split; try exact H2.
  - eapply Permutation_in; [exact P | exact H1].
  - eapply Permutation_in; [apply Permutation_sym; exact P | exact H1].
Qed.

Lemma str_append_nil_r (s : string) : s ++ "" = s.
Proof. induction s as [|c s IH]; cbn; [reflexivity | now rewrite IH]. Qed.

Lemma str_append_assoc (a b c : string) : (a ++ b) ++ c = a ++ b ++ c.
Proof. induction a as [|x a IH]; cbn; [reflexivity | now rewrite IH]. Qed.

(** In a joined text the parts keep the places they have in the list. *)
Lemma str_join_middle (sep : string) (l1 : list string) (x : string)
  (l2 : list string) :
  exists pre,
    str_join sep (l1 ++ x :: l2)
    = pre ++ x ++ match l2 with
                  | [] => ""
                  | _ :: _ => sep ++ str_join sep l2
                  end.
Proof.
  induction l1 as [|y l1 [pre IH]].
  - exists "". destruct l2; cbn [app String.append];
      [now rewrite str_append_nil_r | reflexivity].
  - exists (y ++ sep ++ pre).
    change ((y :: l1) ++ x :: l2)%list with (y :: (l1 ++ x :: l2))%list.
    unfold str_join in *. cbn [String.concat].
    destruct (l1 ++ x :: l2)%list eqn:E; [destruct l1; discriminate|].
    rewrite IH, !str_append_assoc. reflexivity.
Qed.

Lemma str_concat_cons (a : string) (l : list string) :
  String.concat "" (a :: l) = a ++ String.concat "" l.
Proof.
  destruct l as [|b l]; cbn [String.concat String.append];
    [now rewrite str_append_nil_r | reflexivity].
Qed.

Lemma str_concat_app (u v : list string) :
  String.concat "" (u ++ v) = String.concat "" u ++ String.concat "" v.
Proof.
  induction u as [|x u IH]; [reflexivity|].
  change ((x :: u) ++ v)%list with (x :: (u ++ v))%list.
  now rewrite !str_concat_cons, IH, str_append_assoc.
Qed.

(** A joined text, cut at one of its parts: the parts before it each
    followed by the separator, the part, the parts after it each preceded
    by the separator. *)
Lemma str_join_cut (sep : string) (l1 : list string) (x : string)
  (l2 : list string) :
  str_join sep (l1 ++ x :: l2)
  = String.concat "" (map (fun s => s ++ sep) l1) ++ x ++
    String.concat "" (map (fun s => sep ++ s) l2).
Proof.
  pose proof str_concat_cons as Hcat.
  assert (Hhead : forall (a : string) (l : list string),
             str_join sep (a :: l)
             = a ++ String.concat "" (map (fun s => sep ++ s) l)).
  { intros a l. revert a. unfold str_join.
    induction l as [|b l IH]; intros a.
    - cbn. now rewrite str_append_nil_r.
    - cbn [map]. rewrite Hcat.
      change (String.concat sep (a :: b :: l))
        with (a ++ sep ++ String.concat sep (b :: l)).
      rewrite (IH b), str_append_assoc. reflexivity. }
  induction l1 as [|y l1 IH].
  - cbn [app map String.concat String.append]. apply Hhead.
  - change ((y :: l1) ++ x :: l2)%list with (y :: (l1 ++ x :: l2))%list.
    cbn [map]. rewrite Hcat, !str_append_assoc, <- IH.
    unfold str_join.
    destruct (l1 ++ x :: l2)%list as [|z l] eqn:E; [destruct l1; discriminate|].
    reflexivity.
Qed.

(** C8: the overall state is the most severe per-metric state present in the
    order CRITICAL > WARNING > UNKNOWN > OK, and OK when the sequence holds no
    other state; it does not change when the sequence is reordered.  The
    summary is the label of that state, a space, and the texts of the items
    in the order of the sequence, separated by [", "]; the text of an item
    is its name, a colon, its value ([None] for an absent one) and its unit.
    An item that comes before another in the sequence stands before it in
    the summary. *)
Theorem aggregate_most_severe (str_float : Q -> string) (states : list item) :
  (forall it, In it states ->
     (severity (item_state it) <= severity (fst (aggregate states)))%nat) /\
  ((exists it, In it states /\ item_state it = fst (aggregate states)) \/
   fst (aggregate states) = STATE_OK) /\
  (forall states', Permutation states states' ->
     fst (aggregate states') = fst (aggregate states)) /\
  In (aggregate states)
     [(STATE_CRIT, "CRITICAL:"); (STATE_WARN, "WARNING:");
      (STATE_UNKNOWN, "UNKNOWN:"); (STATE_OK, "OK:")] /\
  summary str_float states
    = snd (aggregate states) ++ " " ++
      str_join ", "
        (map (fun it =>
                item_name it ++ ":" ++
                match item_value it with
                | None => "None"
                | Some (Fin q) => str_float q
                | Some NegZero => "-" ++ str_float 0%Q
                | Some (Inf false) => "inf"
                | Some (Inf true) => "-inf"
                | Some NaN => "nan"
                end ++ item_unit it)
             states) /\
  (forall it,
     render str_float it
     = item_name it ++ ":" ++
       match item_value it with
       | None => "None"
       | Some x => str_of_float str_float x
       end ++ item_unit it) /\
  (forall l1 a l2 b l3, states = (l1 ++ a :: l2 ++ b :: l3)%list ->
     summary str_float states
     = snd (aggregate states) ++ " " ++
       String.concat "" (map (fun it => render str_float it ++ ", ") l1) ++
       render str_float a ++
       String.concat "" (map (fun it => ", " ++ render str_float it) l2) ++
       ", " ++ render str_float b ++
       String.concat "" (map (fun it => ", " ++ render str_float it) l3)) /\
  summary str_float
    [ {| item_name := "free_connections"; item_state := STATE_OK;
         item_value := Some (Inf false); item_unit := "" |};
      {| item_name := "free_storage"; item_state := STATE_UNKNOWN;
         item_value := None; item_unit := " MiB" |};
      {| item_name := "cpu_used"; item_state := STATE_WARN;
         item_value := Some NaN; item_unit := "%" |} ]
    = "WARNING: free_connections:inf, free_storage:None MiB, cpu_used:nan%" /\
  fst (aggregate (map item_in_state [STATE_OK; STATE_WARN; STATE_UNKNOWN]))
    = STATE_WARN /\
  fst (aggregate (map item_in_state [STATE_OK; STATE_CRIT; STATE_WARN; STATE_UNKNOWN]))
    = STATE_CRIT /\
  fst (aggregate []) = STATE_OK.
Proof.
  split; [|split; [|split; [|split; [|split; [|split; [reflexivity|split]]]]]].
  - intros it HIn. unfold aggregate.
    destruct (truthy (with_state STATE_CRIT states)) eqn:EC;
      [cbn; destruct (item_state it); cbn; lia|].
    destruct (truthy (with_state STATE_WARN states)) eqn:EW;
      [pose proof (truthy_with_state_false _ _ it EC HIn);
       cbn; destruct (item_state it); cbn; try lia; congruence|].
    destruct (truthy (with_state STATE_UNKNOWN states)) eqn:EU;
      pose proof (truthy_with_state_false _ _ it EC HIn);
      pose proof (truthy_with_state_false _ _ it EW HIn);
      [cbn; destruct (item_state it); cbn; try lia; congruence|].
    pose proof (truthy_with_state_false _ _ it EU HIn).
    cbn; destruct (item_state it); cbn; try lia; congruence.
  - unfold aggregate.
    destruct (truthy (with_state STATE_CRIT states)) eqn:EC;
      [left; now apply truthy_with_state|].
    destruct (truthy (with_state STATE_WARN states)) eqn:EW;
      [left; now apply truthy_with_state|].
    destruct (truthy (with_state STATE_UNKNOWN states)) eqn:EU;
      [left; now apply truthy_with_state|].
    right. reflexivity.
  - intros states' P. unfold aggregate.
    now rewrite !(truthy_with_state_perm _ _ _ P).
  - unfold aggregate.
    destruct (truthy (with_state STATE_CRIT states)); [cbn; tauto|].
    destruct (truthy (with_state STATE_WARN states)); [cbn; tauto|].
    destruct (truthy (with_state STATE_UNKNOWN states)); cbn; tauto.
  - reflexivity.
  - intros l1 a l2 b l3 ->. unfold summary.
    rewrite map_app. cbn [map]. rewrite str_join_cut.
    rewrite !map_map, map_app. cbn [map].
    rewrite str_concat_app, str_concat_cons, !str_append_assoc. reflexivity.
  - repeat split; vm_compute; reflexivity.
Qed.

Lemma aggregate_most_severe_witness :
  fst (aggregate (rev (map item_in_state [STATE_OK; STATE_WARN; STATE_UNKNOWN])))
  = fst (aggregate (map item_in_state [STATE_OK; STATE_WARN; STATE_UNKNOWN])) /\
  (severity STATE_UNKNOWN
   <= severity (fst (aggregate
                       (map item_in_state [STATE_OK; STATE_WARN; STATE_UNKNOWN]))))%nat /\
  summary sample_str_float
    (map item_in_state [STATE_OK; STATE_WARN] ++
     item_in_state STATE_UNKNOWN :: [] ++ item_in_state STATE_CRIT :: [])
  = "CRITICAL: metric:None, metric:None, metric:None, metric:None".
Proof.
  destruct (aggregate_most_severe sample_str_float
              (map item_in_state [STATE_OK; STATE_WARN; STATE_UNKNOWN]))
    as [Hmax [_ [Hperm _]]].
  destruct (aggregate_most_severe sample_str_float
              (map item_in_state [STATE_OK; STATE_WARN] ++
               item_in_state STATE_UNKNOWN :: [] ++ item_in_state STATE_CRIT :: []))
    as [_ [_ [_ [_ [_ [_ [Hcut _]]]]]]].
  split; [|split].
  - apply Hperm. apply Permutation_rev.
  - apply (Hmax (item_in_state STATE_UNKNOWN)). cbn. tauto.
  - rewrite (Hcut _ _ _ _ _ eq_refl). vm_compute. reflexivity.
Defined.

(* ===================================================================== *)
(** ** More on the containment test *)
(* ===================================================================== *)

Lemma str_split_two (c : ascii) (s : string) :
  str_contains c s = true ->
  exists a b l, str_split c s = a :: b :: l.
Proof.
  induction s as [|x s IH]; cbn [str_contains str_split]; [discriminate|].
  destruct (Ascii.eqb x c) eqn:E; cbn [orb].
  - intros _. destruct s as [|y s]; cbn [str_split].
    + now exists "", "", [].
    + destruct (Ascii.eqb y c).
      * now exists "", "", (str_split c s).
      * destruct (str_split c s) as [|h t]; [now exists "", (String y ""), [] |].
        now exists "", (String y h), t.
  - intros H. destruct (IH H) as [a [b [l ->]]].
    now exists (String x a), b, l.
Qed.

(** Reading the two sides of a window never fails. *)
Lemma range_bits_ok (window : string) : exists bits, range_bits window = Ok bits.
Proof.
  unfold range_bits. destruct (str_contains ":" window) eqn:E; cbn [negb].
  - destruct (str_split_two _ _ E) as [a [b [l ->]]]. cbn. now eexists.
  - now eexists.
Qed.

Lemma range_bits_more_parts (a b rest : string) :
  str_contains ":" a = false ->
  str_contains ":" b = false ->
  range_bits (a ++ String ":" (b ++ String ":" rest))
  = range_bits (a ++ String ":" b).
Proof.
  intros Ha Hb. unfold range_bits.
  rewrite !str_contains_app. cbn [negb].
  rewrite !(str_split_app _ _ _ Ha), (str_split_app _ _ _ Hb),
    (str_split_nosep _ _ Hb).
  reflexivity.
Qed.

Lemma float_lt_le (x y : pyfloat) : float_lt x y = true -> float_le x y = true.
Proof.
  assert (Q : forall a b, negb (Qle_bool b a) = true -> Qle_bool a b = true).
  { intros a b H. apply negb_true_iff in H.
    apply Qle_bool_iff. apply Qlt_le_weak. apply Qnot_le_lt.
    intros C. apply Qle_bool_iff in C. congruence. }
  destruct x as [a| |n1|], y as [b| |n2|]; cbn [float_lt float_le];
    try (intros H; exact H); try apply Q; try discriminate.
  destruct n1, n2; cbn; congruence.
Qed.

Lemma spec_rejects_inverted (lo hi : option pyfloat) (v : pyfloat) :
  spec_rejects true lo hi v = false -> spec_rejects false lo hi v = false.
Proof.
  unfold spec_rejects. intros H. apply orb_false_iff in H. destruct H as [H1 H2].
  apply orb_false_iff. split.
  - destruct lo as [l|]; [|reflexivity].
    destruct (float_lt v l) eqn:E; [|reflexivity].
    apply float_lt_le in E. congruence.
  - destruct hi as [h|]; [|reflexivity].
    destruct (float_lt h v) eqn:E; [|reflexivity].
    apply float_lt_le in E. congruence.
Qed.

(** X2: The parts of a window after the second one are not read. *)
Theorem compare_range_ignores_further_parts
  (v : pyfloat) (slo shi rest : string) :
  str_contains ":" slo = false ->
  str_contains ":" shi = false ->
  compare_range v (PyStr (slo ++ ":" ++ shi ++ ":" ++ rest))
  = compare_range v (PyStr (slo ++ ":" ++ shi)).
Proof.
  intros Hlo Hhi.
  change (":" ++ shi ++ ":" ++ rest) with (String ":" (shi ++ String ":" rest)).
  change (":" ++ shi) with (String ":" shi).
  destruct slo as [|c r].
  - cbn [String.append compare_range].
    change (Ascii.eqb ":" "@") with false. cbv iota.
    change (String ":" (shi ++ String ":" rest))
      with ("" ++ String ":" (shi ++ String ":" rest)).
    change (String ":" shi) with ("" ++ String ":" shi).
    now rewrite (range_bits_more_parts "" shi rest eq_refl Hhi).
  - cbn [String.append compare_range].
    cbn [str_contains] in Hlo. apply orb_false_iff in Hlo. destruct Hlo as [Hc Hr].
    destruct (Ascii.eqb c "@").
    + now rewrite (range_bits_more_parts r shi rest Hr Hhi).
    + change (String c (r ++ String ":" (shi ++ String ":" rest)))
        with (String c r ++ String ":" (shi ++ String ":" rest)).
      change (String c (r ++ String ":" shi)) with (String c r ++ String ":" shi).
      rewrite (range_bits_more_parts (String c r) shi rest); [reflexivity | | exact Hhi].
      cbn [str_contains]. now rewrite Hc, Hr.
Qed.

Lemma compare_range_ignores_further_parts_witness :
  compare_range (Fin 15) (PyStr ("10" ++ ":" ++ "20" ++ ":" ++ "whatever"))
  = Ok true.
Proof.
  rewrite (compare_range_ignores_further_parts (Fin 15) "10" "20" "whatever");
    reflexivity.
Defined.

(** X3: The ['@'] prefix only tightens a range: a value accepted behind ['@'] is
    accepted by the plain window. *)
Theorem compare_range_inverted_is_stricter (v : pyfloat) (window : string) :
  window <> "" ->
  str_startswith window "@" = false ->
  compare_range v (PyStr (String "@" window)) = Ok true ->
  compare_range v (PyStr window) = Ok true.
Proof.
  intros Hne Hat H.
  destruct (range_bits_ok window) as [bits Hbits].
  cbn [compare_range] in H. rewrite Ascii.eqb_refl, Hbits in H. cbn [rbind] in H.
  destruct (bound (fst bits)) as [lo|] eqn:Hlo; cbn [rbind] in H; [|discriminate].
  destruct (bound (snd bits)) as [hi|] eqn:Hhi; cbn [rbind] in H; [|discriminate].
  rewrite rejection_tests in H. injection H as H. apply negb_true_iff in H.
  destruct (compare_range_decision v window bits lo hi Hbits Hlo Hhi) as [_ Hplain].
  rewrite (Hplain Hne Hat). now rewrite (spec_rejects_inverted _ _ _ H).
Qed.

Lemma compare_range_inverted_is_stricter_witness :
  compare_range (Fin 15) (PyStr "10:20") = Ok true.
Proof.
  apply (compare_range_inverted_is_stricter (Fin 15) "10:20");
    [discriminate | reflexivity | vm_compute; reflexivity].
Defined.

(** X4: A window whose lower bound exceeds its upper bound is legal and rejects
    every finite value; behind ['@'] equal bounds are enough. *)
Theorem compare_range_empty_interval (x l h : Q) (slo shi : string) :
  str_contains ":" slo = false ->
  str_contains ":" shi = false ->
  str_startswith slo "@" = false ->
  bound (PyStr slo) = Ok (Some (Fin l)) ->
  bound (PyStr (if String.eqb shi "" then "~" else shi)) = Ok (Some (Fin h)) ->
  ((h < l)%Q -> compare_range (Fin x) (PyStr (slo ++ ":" ++ shi)) = Ok false) /\
  ((h <= l)%Q -> compare_range (Fin x) (PyStr ("@" ++ slo ++ ":" ++ shi)) = Ok false).
Proof.
  intros Hlo Hhi Hat Blo Bhi.
  destruct (compare_range_two_sides (Fin x) _ _ _ _ Hlo Hhi Hat Blo Bhi)
    as [H1 H2].
  rewrite H1, H2. cbn [spec_rejects float_lt float_le]. split; intros Hlh.
  - destruct (Qle_bool l x) eqn:E1; [|reflexivity].
    destruct (Qle_bool x h) eqn:E2; [|reflexivity].
    apply Qle_bool_iff in E1, E2. exfalso.
    apply (Qlt_irrefl h). eapply Qlt_le_trans; [exact Hlh|].
    eapply Qle_trans; eassumption.
  - destruct (Qle_bool x l) eqn:E1; [reflexivity|].
    destruct (Qle_bool h x) eqn:E2; [reflexivity|].
    exfalso.
    assert (A : (l < x)%Q)
      by (apply Qnot_le_lt; intros C; apply Qle_bool_iff in C; congruence).
    assert (B : (x < h)%Q)
      by (apply Qnot_le_lt; intros C; apply Qle_bool_iff in C; congruence).
    apply (Qlt_irrefl l). eapply Qlt_le_trans; [|exact Hlh].
    eapply Qlt_trans; eassumption.
Qed.

Lemma compare_range_empty_interval_witness :
  compare_range (Fin 15) (PyStr ("20" ++ ":" ++ "10")) = Ok false /\
  compare_range (Fin 15) (PyStr ("@" ++ "15" ++ ":" ++ "15")) = Ok false.
Proof.
  split.
  - apply (proj1 (compare_range_empty_interval 15 20 10 "20" "10"
                    eq_refl eq_refl eq_refl eq_refl eq_refl)).
    reflexivity.
  - apply (proj2 (compare_range_empty_interval 15 15 15 "15" "15"
                    eq_refl eq_refl eq_refl eq_refl eq_refl)).
    discriminate.
Defined.

(** X5: How [compare_range] fails: on an [int] window with [TypeError], on the
    empty string with [IndexError], on any other string with the
    [ValueError] of [float]; and it fails the same way for every value. *)
Theorem compare_range_failure (v : pyfloat) (window : pyval) (e : exn) :
  compare_range v window = Raise e ->
  e = match window with
      | PyInt _ => TypeError
      | PyStr EmptyString => IndexError
      | PyStr (String _ _) => ValueError
      end /\
  forall v', compare_range v' window = Raise e.
Proof.
  intros H. split.
  - destruct window as [z|[|c rest]]; cbn [compare_range] in H; try congruence.
    destruct (range_bits_ok (if Ascii.eqb c "@" then rest else String c rest))
      as [bits Hbits].
    rewrite Hbits in H. cbn [rbind] in H.
    destruct (bound (fst bits)) as [lo|e1] eqn:E1; cbn [rbind] in H.
    2:{ pose proof (range_bits_bound_raises _ _ e1 Hbits (or_introl E1)).
        congruence. }
    destruct (bound (snd bits)) as [hi|e2] eqn:E2; cbn [rbind] in H.
    2:{ pose proof (range_bits_bound_raises _ _ e2 Hbits (or_intror E2)).
        congruence. }
    rewrite rejection_tests in H. discriminate.
  - intros v'. exact (compare_range_raise_any_value v v' window e H).
Qed.

Lemma compare_range_failure_witness :
  compare_range (Fin 42) (PyStr "ten:") = Raise ValueError.
Proof.
  apply (proj2 (compare_range_failure (Fin 0) (PyStr "ten:") ValueError eq_refl)).
Defined.

Lemma compare_range_shorthand_witness :
  compare_range (Fin 7) (PyStr "5")
    = Ok (negb (spec_rejects false (Some (Fin 0)) (Some (Fin 5)) (Fin 7))) /\
  compare_range (Fin 7) (PyStr ("0:" ++ "5")) = compare_range (Fin 7) (PyStr "5").
Proof.
  apply (compare_range_shorthand (Fin 7) "5" (Some (Fin 5)));
    [reflexivity | discriminate | reflexivity | reflexivity].
Defined.

(* ===================================================================== *)
(** ** Integers that are floats *)
(* ===================================================================== *)

Lemma Qred_inject_Z (n : Z) : Qred (inject_Z n) = inject_Z n.
Proof.
  unfold Qred, inject_Z.
  pose proof (Z.ggcd_gcd n 1) as G.
  pose proof (Z.ggcd_correct_divisors n 1) as D.
  destruct (Z.ggcd n 1) as [g [aa bb]]. cbn [fst snd] in *.
  rewrite Z.gcd_1_r in G. subst g.
  destruct D as [D1 D2]. rewrite Z.mul_1_l in D1, D2. subst. reflexivity.
Qed.

Lemma round_half_even_unit (n : Z) : round_half_even n 1 = n.
Proof. unfold round_half_even. rewrite Z.mod_1_r, Z.div_1_r. reflexivity. Qed.

Lemma binade_int (n : Z) : 0 < n -> binade n 1 = Z.log2 n.
Proof.
  intros H. unfold binade, scale2. change (Z.log2 1) with 0. rewrite Z.sub_0_r.
  pose proof (Z.log2_nonneg n) as Hn.
  destruct (Z.leb_spec 0 (Z.log2 n)); [|lia].
  rewrite Z.mul_1_l.
  destruct (Z.ltb_spec n (2 ^ Z.log2 n)); [|reflexivity].
  pose proof (Z.log2_spec n H). lia.
Qed.

Lemma round_pos_int (n : Z) : 0 < n <= 2 ^ 53 -> round_pos n 1 = Fin (inject_Z n).
Proof.
  intros [Hpos Hle]. unfold round_pos. rewrite (binade_int n Hpos).
  assert (He : 0 <= Z.log2 n <= 53).
  { split; [apply Z.log2_nonneg|].
    change 53 with (Z.log2 (2 ^ 53)). apply Z.log2_le_mono. exact Hle. }
  rewrite Z.max_l by lia.
  unfold scale2.
  destruct (Z.leb_spec 0 (Z.log2 n - 52)) as [Hp|Hp].
  - assert (E : Z.log2 n = 52 \/ Z.log2 n = 53) by lia.
    destruct E as [E|E]; rewrite E.
    + change (2 ^ (52 - 52)) with 1. rewrite Z.mul_1_l, round_half_even_unit, Z.mul_1_r.
      destruct (Z.leb_spec (2 ^ 1024) n); [|reflexivity].
      assert (2 ^ 53 < 2 ^ 1024) by (apply Z.pow_lt_mono_r; lia). lia.
    + pose proof (Z.log2_spec n Hpos) as S. rewrite E in S.
      assert (En : n = 2 ^ 53) by lia. rewrite En. vm_compute. reflexivity.
  - rewrite round_half_even_unit. f_equal.
    rewrite <- (Qred_inject_Z n). apply Qred_complete.
    unfold Qeq, inject_Z. cbn [Qnum Qden].
    rewrite Z2Pos.id by (apply Z.pow_pos_nonneg; lia). lia.
Qed.

(** An integer of at most 53 bits is a float. *)
Lemma round_float_int (z : Z) :
  Z.abs z <= 2 ^ 53 -> round_float (inject_Z z) = Fin (inject_Z z).
Proof.
  intros H. unfold round_float, inject_Z. cbn [Qnum Qden].
  destruct z as [|p|p]; [reflexivity | apply round_pos_int; lia|].
  rewrite round_pos_int by (cbn [Z.abs] in H; lia).
  unfold float_neg, inject_Z. cbn [Qnum]. reflexivity.
Qed.

(** [binade] is the exponent of the quotient. *)
Lemma binade_spec (a n : Z) :
  0 < a -> 0 < n ->
  (0 <= binade a n -> 2 ^ binade a n * n <= a < 2 ^ (binade a n + 1) * n) /\
  (binade a n < 0 ->
   n <= a * 2 ^ (- binade a n) /\ a * 2 ^ (- binade a n - 1) < n).
Proof.
  intros Ha Hn. unfold binade, scale2.
  pose proof (Z.log2_spec a Ha) as [La Ua].
  pose proof (Z.log2_spec n Hn) as [Ln Un].
  pose proof (Z.log2_nonneg a) as Pa. pose proof (Z.log2_nonneg n) as Pn.
  set (la := Z.log2 a) in *. set (ln := Z.log2 n) in *.
  rewrite <- !Z.add_1_r in *.
  destruct (Z.leb_spec 0 (la - ln)) as [He|He].
  - assert (Ela : 2 ^ la = 2 ^ ln * 2 ^ (la - ln))
      by (rewrite <- Z.pow_add_r by lia; f_equal; lia).
    assert (P0 : 0 < 2 ^ (la - ln)) by (apply Z.pow_pos_nonneg; lia).
    assert (Pl : 0 < 2 ^ ln) by (apply Z.pow_pos_nonneg; lia).
    rewrite Z.pow_add_r in Ua, Un by lia. change (2 ^ 1) with 2 in *.
    destruct (Z.ltb_spec a (n * 2 ^ (la - ln))) as [Ht|Ht].
    + destruct (Z.eq_dec (la - ln) 0) as [E0|E0].
      * rewrite E0 in *. change (0 - 1) with (-1). split; [lia|]. intros _.
        change (- -1) with 1. change (- -1 - 1) with 0.
        change (2 ^ 1) with 2. change (2 ^ 0) with 1 in *. nia.
      * split; [|lia]. intros _.
        replace (la - ln - 1 + 1) with (la - ln) by lia.
        assert (E1 : 2 ^ (la - ln) = 2 * 2 ^ (la - ln - 1)).
        { replace (la - ln) with (1 + (la - ln - 1)) at 1 by lia.
          rewrite Z.pow_add_r by lia. reflexivity. }
        nia.
    + split; [|lia]. intros _.
      rewrite Z.pow_add_r by lia. change (2 ^ 1) with 2. nia.
  - assert (Eln : 2 ^ ln = 2 ^ la * 2 ^ (- (la - ln)))
      by (rewrite <- Z.pow_add_r by lia; f_equal; lia).
    assert (P0 : 0 < 2 ^ (- (la - ln))) by (apply Z.pow_pos_nonneg; lia).
    assert (Pl : 0 < 2 ^ la) by (apply Z.pow_pos_nonneg; lia).
    rewrite Z.pow_add_r in Ua, Un by lia. change (2 ^ 1) with 2 in *.
    destruct (Z.ltb_spec (a * 2 ^ (- (la - ln))) n) as [Ht|Ht].
    + split; [lia|]. intros _.
      replace (- (la - ln - 1) - 1) with (- (la - ln)) by lia.
      replace (- (la - ln - 1)) with (- (la - ln) + 1) by lia.
      rewrite Z.pow_add_r by lia. change (2 ^ 1) with 2. nia.
    + split; [lia|]. intros _. split; [lia|].
      assert (E1 : 2 ^ (- (la - ln)) = 2 * 2 ^ (- (la - ln) - 1)).
      { replace (- (la - ln)) with (1 + (- (la - ln) - 1)) at 1 by lia.
        rewrite Z.pow_add_r by lia. reflexivity. }
      nia.
Qed.

Lemma round_half_even_bounds (x d : Z) :
  0 < d ->
  x / d <= round_half_even x d <= x / d + 1 /\
  (round_half_even x d = x / d + 1 -> d <= 2 * (x mod d)).
Proof.
  intros Hd. unfold round_half_even.
  destruct (Z.compare_spec (2 * (x mod d)) d) as [E|L|G].
  - destruct (Z.even (x / d)); split; lia.
  - split; lia.
  - split; lia.
Qed.

(** Truncation does not depend on the fraction that gives a value. *)
Lemma quot_Qred (m : Z) (d : positive) :
  0 <= m ->
  Z.quot (Qnum (Qred (m # d))) (Zpos (Qden (Qred (m # d)))) = m / Zpos d.
Proof.
  intros Hm.
  pose proof (Qred_correct (m # d)) as E.
  assert (F : Qfloor (Qred (m # d)) = Qfloor (m # d)) by now rewrite E.
  unfold Qeq in E. cbn [Qnum Qden] in E.
  destruct (Qred (m # d)) as [qn qd]. cbn [Qnum Qden Qfloor] in *.
  rewrite Z.quot_div_nonneg by nia. exact F.
Qed.

(** Below [2 ^ 53] the nearest float of a quotient lies in the same unit
    interval: truncating it gives the quotient of the integers. *)
Lemma round_pos_trunc (a n : Z) :
  0 < a < 2 ^ 53 -> 0 < n ->
  exists q, round_pos a n = Fin q /\ Z.quot (Qnum q) (Zpos (Qden q)) = a / n.
Proof.
  intros [Ha Hlt] Hn. unfold round_pos.
  destruct (binade_spec a n Ha Hn) as [Bpos Bneg].
  set (e := binade a n) in *.
  assert (He : e <= 52).
  { destruct (Z.le_gt_cases e 52) as [H|H]; [exact H|]. exfalso.
    destruct (Bpos ltac:(lia)) as [L _].
    assert (2 ^ 53 <= 2 ^ e) by (apply Z.pow_le_mono_r; lia).
    assert (0 < 2 ^ e) by (apply Z.pow_pos_nonneg; lia). nia. }
  unfold scale2.
  destruct (Z.leb_spec 0 (Z.max (e - 52) (-1074))) as [Hp|Hp].
  - (* e = 52, n = 1 *)
    assert (Ee : e = 52) by lia. rewrite Ee in *.
    rewrite Z.max_l by lia. change (52 - 52) with 0. change (2 ^ 0) with 1.
    destruct (Bpos ltac:(lia)) as [L _].
    assert (En : n = 1).
    { assert (0 < 2 ^ 52) by (apply Z.pow_pos_nonneg; lia).
      assert (2 ^ 53 = 2 * 2 ^ 52) by reflexivity. nia. }
    subst n. change (1 * 1) with 1.
    rewrite round_half_even_unit, Z.mul_1_r.
    destruct (Z.leb_spec (2 ^ 1024) a) as [Hb|Hb].
    + assert (2 ^ 53 < 2 ^ 1024) by (apply Z.pow_lt_mono_r; lia). lia.
    + exists (inject_Z a). split; [reflexivity|].
      cbn [inject_Z Qnum Qden]. now rewrite Z.quot_1_r, Z.div_1_r.
  - set (p := Z.max (e - 52) (-1074)) in *.
    set (s := - p) in *.
    assert (Hs : 0 < s) by lia.
    assert (Ps : 0 < 2 ^ s) by (apply Z.pow_pos_nonneg; lia).
    set (m := round_half_even (a * 2 ^ s) n).
    exists (Qred (m # Z.to_pos (2 ^ s))). split; [reflexivity|].
    destruct (round_half_even_bounds (a * 2 ^ s) n Hn) as [[Lm Um] Hup].
    fold m in Lm, Um, Hup.
    pose proof (Z.div_mod (a * 2 ^ s) n ltac:(lia)) as Dm.
    pose proof (Z.mod_pos_bound (a * 2 ^ s) n Hn) as Rm.
    pose proof (Z.div_mod a n ltac:(lia)) as Da.
    pose proof (Z.mod_pos_bound a n Hn) as Ra.
    set (f := (a * 2 ^ s) / n) in *. set (r := (a * 2 ^ s) mod n) in *.
    set (k := a / n) in *. set (t := a mod n) in *.
    assert (Hk0 : 0 <= k) by (apply Z.div_pos; lia).
    assert (Hf0 : 0 <= f) by (apply Z.div_pos; nia).
    rewrite quot_Qred by lia.
    rewrite Z2Pos.id by lia.
    assert (Sp : s = - p) by reflexivity.
    assert (Pe : p = Z.max (e - 52) (-1074)) by reflexivity.
    clearbody e p s m f r k t.
    assert (Lf : k * 2 ^ s <= f) by nia.
    assert (Uf : f < (k + 1) * 2 ^ s) by nia.
    assert (Hm : m < (k + 1) * 2 ^ s).
    { destruct (Z.lt_ge_cases m ((k + 1) * 2 ^ s)) as [H|H]; [exact H|]. exfalso.
      assert (Em : m = f + 1) by lia.
      specialize (Hup Em).
      assert (Hbig : 2 * 2 ^ s <= n) by nia.
      destruct (Z.max_spec (e - 52) (-1074)) as [[Hc Hmax]|[Hc Hmax]];
        rewrite <- Pe in Hmax.
      - (* clamped: p = -1074 *)
        assert (Es : s = 1074) by lia.
        destruct (Bneg ltac:(lia)) as [_ U].
        assert (Hk : k = 0).
        { assert (0 < 2 ^ (- e - 1)) by (apply Z.pow_pos_nonneg; lia).
          assert (a <= a * 2 ^ (- e - 1)) by (apply Z.le_mul_diag_r; lia).
          nia. }
        assert (H1 : 0 < 2 ^ (- e - 1)) by (apply Z.pow_pos_nonneg; lia).
        assert (H2 : 2 ^ 1 <= 2 ^ s) by (apply Z.pow_le_mono_r; lia).
        change (2 ^ 1) with 2 in H2.
        destruct (Z.le_gt_cases (s + e + 1) 0) as [Hsmall|Hsub].
        * assert (H3 : 2 ^ s <= 2 ^ (- e - 1)) by (apply Z.pow_le_mono_r; lia).
          assert (Hf : f = 0) by nia.
          nia.
        * assert (E2 : 2 ^ s = 2 ^ (- e - 1) * 2 ^ (s + e + 1))
            by (rewrite <- Z.pow_add_r by lia; f_equal; lia).
          assert (H4 : 0 < 2 ^ (s + e + 1)) by (apply Z.pow_pos_nonneg; lia).
          assert (E3 : 2 ^ (s + e + 1) < 2 ^ s) by (apply Z.pow_lt_mono_r; lia).
          assert (Hf : f < 2 ^ (s + e + 1)) by nia.
          nia.
      - (* p = e - 52 *)
        assert (Es : s = 52 - e) by lia.
        destruct (Z.le_gt_cases 0 e) as [Hz|Hz].
        + destruct (Bpos Hz) as [L _].
          assert (E2 : 2 ^ 53 = 2 * 2 ^ s * 2 ^ e).
          { rewrite Es. rewrite <- Z.mul_assoc, <- Z.pow_add_r by lia.
            replace (52 - e + e) with 52 by lia. reflexivity. }
          assert (0 < 2 ^ e) by (apply Z.pow_pos_nonneg; lia). nia.
        + destruct (Bneg Hz) as [L _].
          assert (E2 : 2 * 2 ^ s = 2 ^ 53 * 2 ^ (- e)).
          { rewrite Es. change 2 with (2 ^ 1) at 1.
            rewrite <- !Z.pow_add_r by lia. f_equal. lia. }
          assert (0 < 2 ^ (- e)) by (apply Z.pow_pos_nonneg; lia). nia. }
    symmetry. apply Z.div_unique with (r := m - k * 2 ^ s); [left; lia | lia].
Qed.

(** [int(a / n)] is the quotient of the integers for [a] below [2 ^ 53]. *)
Lemma int_truediv_trunc (a n : Z) :
  0 <= a < 2 ^ 53 -> 0 < n ->
  (q <- int_truediv a n ;; int_of_float q)%result = Ok (a / n).
Proof.
  intros [Ha Hlt] Hn. unfold int_truediv.
  destruct (Z.eqb_spec n 0) as [E|_]; [lia|].
  destruct (Z.eqb_spec a 0) as [->|Na].
  - destruct (Z.ltb_spec n 0); [lia|]. cbn [signed_zero rbind int_of_float Qnum Qden].
    now rewrite Z.div_0_l by lia.
  - destruct (round_pos_trunc a n) as [q [Hq Ht]]; [lia | lia |].
    replace (Z.sgn n) with 1 by lia. rewrite Z.mul_1_r, Z.abs_eq by lia.
    unfold round_float. cbn [Qnum Qden].
    destruct a as [|pa|pa]; [lia | | lia].
    rewrite Z2Pos.id by lia. rewrite Hq. cbn [rbind int_of_float]. now rewrite Ht.
Qed.

(* ===================================================================== *)
(** ** [str] of an integer read back by [int] and [float] *)
(* ===================================================================== *)

Lemma digitpart_uint_acc (d : Decimal.uint) :
  forall acc : positive,
    digitpart (Zpos acc) true (list_ascii_of_string (NilEmpty.string_of_uint d))
    = Some (Zpos (Pos.of_uint_acc d acc)).
Proof.
  induction d as [|d IH|d IH|d IH|d IH|d IH|d IH|d IH|d IH|d IH|d IH];
    intros acc; [reflexivity|..];
    cbn [NilEmpty.string_of_uint list_ascii_of_string digitpart Pos.of_uint_acc];
    match goal with
    | |- context [is_digit ?c] => change (is_digit c) with true
    end; cbv iota; rewrite <- IH; f_equal;
    match goal with
    | |- context [digit_value ?c] =>
        let k := eval vm_compute in (digit_value c) in
        change (digit_value c) with k
    end; lia.
Qed.

Lemma digitpart_uint (d : Decimal.uint) :
  digitpart 0 true (list_ascii_of_string (NilEmpty.string_of_uint d))
  = Some (Z.of_N (Pos.of_uint d)).
Proof.
  induction d as [|d IH|d IH|d IH|d IH|d IH|d IH|d IH|d IH|d IH|d IH];
    [reflexivity | exact IH |..];
    cbn [NilEmpty.string_of_uint list_ascii_of_string digitpart Pos.of_uint];
    match goal with
    | |- context [is_digit ?c] => change (is_digit c) with true
    end; cbv iota; apply digitpart_uint_acc.
Qed.

(** The characters [str] gives a natural number: digits only. *)
Lemma uint_chars_digits (d : Decimal.uint) :
  Forall (fun c => is_digit c = true)
         (list_ascii_of_string (NilEmpty.string_of_uint d)).
Proof.
  induction d; cbn [NilEmpty.string_of_uint list_ascii_of_string];
    constructor; (reflexivity || assumption).
Qed.

Lemma digit_facts (c : ascii) :
  is_digit c = true ->
  is_space c = false /\ is_e c = false /\ is_dot c = false /\
  Ascii.eqb c ":" = false /\ Ascii.eqb c "_" = false /\
  Ascii.eqb c "+" = false /\ Ascii.eqb c "-" = false /\
  Ascii.eqb c "@" = false /\ Ascii.eqb c "~" = false /\
  Ascii.eqb (lower c) "i" = false /\ Ascii.eqb (lower c) "n" = false.
Proof.
  destruct c as [[] [] [] [] [] [] [] []]; vm_compute; intros H;
    try discriminate; repeat split.
Qed.

Lemma lstrip_id (l : list ascii) :
  match l with [] => True | c :: _ => is_space c = false end -> lstrip l = l.
Proof. destruct l as [|c l]; cbn [lstrip]; [reflexivity | now intros ->]. Qed.

Lemma strip_id (l : list ascii) :
  Forall (fun c => is_space c = false) l -> strip l = l.
Proof.
  intros H. unfold strip.
  rewrite (lstrip_id l) by (destruct H; [exact I | assumption]).
  assert (Hr : Forall (fun c => is_space c = false) (rev l))
    by (apply Forall_rev; exact H).
  rewrite (lstrip_id (rev l)) by (destruct Hr; [exact I | assumption]).
  apply rev_involutive.
Qed.

Lemma take_sign_digit (c : ascii) (r : list ascii) :
  is_digit c = true -> take_sign (c :: r) = (false, c :: r).
Proof.
  destruct c as [[] [] [] [] [] [] [] []]; intros H;
    try (vm_compute in H; discriminate H); reflexivity.
Qed.

Lemma digitpart_first_digit (acc : Z) (c : ascii) (r : list ascii) :
  is_digit c = true ->
  digitpart acc false (c :: r) = digitpart acc true (c :: r).
Proof. intros H. cbn [digitpart]. now rewrite H. Qed.

Lemma break_at_none (p : ascii -> bool) (l : list ascii) :
  Forall (fun c => p c = false) l -> break_at p l = (l, None).
Proof.
  induction 1 as [|c l Hc _ IH]; cbn [break_at]; [reflexivity|].
  now rewrite Hc, IH.
Qed.

(** The characters of [str n]: an optional minus sign, then the digits of
    the absolute value, at least one. *)
Lemma str_of_int_chars (z : Z) :
  exists (c : ascii) (r : list ascii),
    Forall (fun a => is_digit a = true) (c :: r) /\
    digitpart 0 true (c :: r) = Some (Z.abs z) /\
    list_ascii_of_string (str_of_int z)
    = if Z.ltb z 0 then "-"%char :: c :: r else c :: r.
Proof.
  assert (P : forall p : positive,
             exists c r,
               Forall (fun a => is_digit a = true) (c :: r) /\
               digitpart 0 true (c :: r) = Some (Zpos p) /\
               list_ascii_of_string (NilZero.string_of_uint (Pos.to_uint p))
               = c :: r).
  { intros p.
    pose proof (DecimalPos.Unsigned.to_uint_nonnil p) as Hnil.
    pose proof (DecimalPos.Unsigned.of_to p) as Hval.
    pose proof (uint_chars_digits (Pos.to_uint p)) as Hdig.
    pose proof (digitpart_uint (Pos.to_uint p)) as Hpart.
    rewrite Hval in Hpart. cbn [Z.of_N] in Hpart.
    assert (E : NilZero.string_of_uint (Pos.to_uint p)
                = NilEmpty.string_of_uint (Pos.to_uint p))
      by (destruct (Pos.to_uint p); [congruence | reflexivity..]).
    rewrite E.
    destruct (list_ascii_of_string (NilEmpty.string_of_uint (Pos.to_uint p)))
      as [|c r] eqn:L.
    - destruct (Pos.to_uint p); (congruence || discriminate L).
    - exists c, r. repeat split; assumption. }
  destruct z as [|p|p].
  - exists "0"%char, []. repeat split. repeat constructor.
  - destruct (P p) as [c [r [H1 [H2 H3]]]]. exists c, r.
    repeat split; assumption.
  - destruct (P p) as [c [r [H1 [H2 H3]]]]. exists c, r.
    split; [assumption|]. split; [assumption|].
    unfold str_of_int. cbn [Z.to_int NilZero.string_of_int list_ascii_of_string Z.ltb Z.compare].
    now rewrite H3.
Qed.

Lemma str_of_int_no_space (z : Z) :
  Forall (fun c => is_space c = false) (list_ascii_of_string (str_of_int z)).
Proof.
  destruct (str_of_int_chars z) as [c [r [Hd [_ ->]]]].
  assert (H : Forall (fun a => is_space a = false) (c :: r)).
  { eapply Forall_impl; [|exact Hd]. intros a Ha. apply (digit_facts a Ha). }
  destruct (Z.ltb z 0); [constructor; [reflexivity | exact H] | exact H].
Qed.

(** [int(str(n)) == n]. *)
Lemma py_int_str_of_int (z : Z) : py_int (str_of_int z) = Ok z.
Proof.
  unfold py_int. rewrite (strip_id _ (str_of_int_no_space z)).
  destruct (str_of_int_chars z) as [c [r [Hd [Hv ->]]]].
  assert (Hc : is_digit c = true) by (inversion Hd; assumption).
  destruct (Z.ltb_spec z 0).
  - cbn [take_sign]. rewrite (digitpart_first_digit _ _ _ Hc), Hv. f_equal. lia.
  - rewrite (take_sign_digit _ _ Hc), (digitpart_first_digit _ _ _ Hc), Hv.
    f_equal. lia.
Qed.

Lemma parse_absfloat_digits (c : ascii) (r : list ascii) (m : Z) :
  Forall (fun a => is_digit a = true) (c :: r) ->
  digitpart 0 true (c :: r) = Some m ->
  parse_absfloat (c :: r) = Some (round_float (inject_Z m)).
Proof.
  intros Hd Hv.
  assert (Hc : is_digit c = true) by (inversion Hd; assumption).
  destruct (digit_facts c Hc) as [_ [_ [_ [_ [_ [_ [_ [_ [_ [Hi Hn]]]]]]]]]].
  unfold parse_absfloat, chars_eqb.
  cbn [map string_of_list_ascii String.eqb]. rewrite Hi, Hn. cbn [andb orb].
  rewrite (break_at_none is_e)
    by (eapply Forall_impl; [|exact Hd]; intros a Ha; apply (digit_facts a Ha)).
  unfold parse_mantissa.
  rewrite (break_at_none is_dot)
    by (eapply Forall_impl; [|exact Hd]; intros a Ha; apply (digit_facts a Ha)).
  rewrite (digitpart_first_digit _ _ _ Hc), Hv.
  f_equal. unfold round_float, Qmult, inject_Z.
  cbn [Qnum Qden Z.sub Z.opp Z.add Qpower Pos.mul].
  now rewrite Z.mul_1_r.
Qed.

(** [float(str(n))] is [n] rounded to the nearest float, an infinity for an
    [n] beyond the range. *)
Lemma float_of_str_of_int (z : Z) :
  float_of_str (str_of_int z) = Ok (round_float (inject_Z z)).
Proof.
  unfold float_of_str. rewrite (strip_id _ (str_of_int_no_space z)).
  destruct (str_of_int_chars z) as [c [r [Hd [Hv ->]]]].
  assert (Hc : is_digit c = true) by (inversion Hd; assumption).
  destruct z as [|p|p]; cbn [Z.ltb Z.compare Z.abs] in *.
  - now rewrite (take_sign_digit _ _ Hc), (parse_absfloat_digits _ _ _ Hd Hv).
  - now rewrite (take_sign_digit _ _ Hc), (parse_absfloat_digits _ _ _ Hd Hv).
  - cbn [take_sign]. rewrite (parse_absfloat_digits _ _ _ Hd Hv).
    unfold round_float, inject_Z. cbn [Qnum Qden]. reflexivity.
Qed.

Lemma str_contains_chars (c : ascii) (s : string) :
  str_contains c s = existsb (fun a => Ascii.eqb a c) (list_ascii_of_string s).
Proof.
  induction s as [|a s IH]; cbn [str_contains list_ascii_of_string existsb];
    [reflexivity | now rewrite IH].
Qed.

Lemma str_contains_append (c : ascii) (a b : string) :
  str_contains c (a ++ b) = str_contains c a || str_contains c b.
Proof.
  induction a as [|x a IH]; cbn [String.append str_contains orb];
    [reflexivity | now rewrite IH, orb_assoc].
Qed.

Lemma str_of_int_no_colon (z : Z) : str_contains ":" (str_of_int z) = false.
Proof.
  rewrite str_contains_chars.
  destruct (str_of_int_chars z) as [c [r [Hd [_ ->]]]].
  assert (H : existsb (fun a => Ascii.eqb a ":") (c :: r) = false).
  { clear -Hd. induction Hd as [|a l Ha _ IH]; cbn [existsb]; [reflexivity|].
    destruct (digit_facts a Ha) as [_ [_ [_ [-> _]]]]. exact IH. }
  destruct (Z.ltb z 0); [cbn [existsb]; exact H | exact H].
Qed.

Lemma str_of_int_head (z : Z) :
  exists c r, str_of_int z = String c r /\
              Ascii.eqb c "@" = false /\ Ascii.eqb c "~" = false.
Proof.
  destruct (str_of_int_chars z) as [c [r [Hd [_ Hc]]]].
  assert (Hdc : is_digit c = true) by (inversion Hd; assumption).
  destruct (digit_facts c Hdc) as [_ [_ [_ [_ [_ [_ [_ [Hat [Htilde _]]]]]]]]].
  rewrite <- (string_of_list_ascii_of_string (str_of_int z)), Hc.
  destruct (Z.ltb z 0); cbn [string_of_list_ascii].
  - now exists "-"%char, (String c (string_of_list_ascii r)).
  - now exists c, (string_of_list_ascii r).
Qed.

(** A threshold printed by [str] is read back by [compare_range] as that
    integer rounded to the nearest float. *)
Lemma bound_str_of_int (z : Z) :
  bound (PyStr (str_of_int z)) = Ok (Some (round_float (inject_Z z))).
Proof.
  unfold bound, is_tilde, py_float. rewrite float_of_str_of_int.
  destruct (str_of_int_head z) as [c [r [-> [_ Ht]]]].
  cbn [String.eqb]. rewrite Ht. reflexivity.
Qed.

Lemma str_length_append (a b : string) :
  String.length (a ++ b) = (String.length a + String.length b)%nat.
Proof. induction a as [|x a IH]; cbn; [reflexivity | now rewrite IH]. Qed.

Lemma substring_prefix (a b : string) :
  String.substring 0 (String.length a) (a ++ b) = a.
Proof.
  induction a as [|x a IH]; cbn [String.length String.append String.substring].
  - destruct b; reflexivity.
  - now rewrite IH.
Qed.

Lemma str_drop_last_append (a b : string) :
  str_drop_last (String.length b) (a ++ b) = a.
Proof.
  unfold str_drop_last. rewrite str_length_append.
  replace (String.length a + String.length b - String.length b)%nat
    with (String.length a) by lia.
  apply substring_prefix.
Qed.

Lemma str_endswith_append (a b : string) : str_endswith (a ++ b) b = true.
Proof.
  induction a as [|x a IH]; cbn [String.append].
  - destruct b; cbn [str_endswith]; now rewrite String.eqb_refl.
  - cbn [str_endswith]. rewrite IH. apply orb_true_r.
Qed.

Lemma unit_table_no_colon (suffix : string) (factor : Z) :
  In (suffix, factor) unit_table -> str_contains ":" suffix = false.
Proof.
  unfold unit_table. cbn [In]. intros H.
  repeat (destruct H as [H|H]; [inversion H; reflexivity|]). contradiction.
Qed.

(* ===================================================================== *)
(** ** More on unit expansion *)
(* ===================================================================== *)

Lemma py_int_raises (s : string) (e : exn) : py_int s = Raise e -> e = ValueError.
Proof.
  unfold py_int. destruct (take_sign _) as [neg body].
  destruct (digitpart 0 false body); [discriminate | congruence].
Qed.

Lemma expand_token_raises (token : string) (e : exn) :
  expand_token token = Raise e -> e = ValueError /\ token_ok token = false.
Proof.
  unfold expand_token, token_ok.
  destruct (matched_unit token) as [[suffix factor]|]; [|discriminate].
  destruct (py_int _) as [n|e'] eqn:E; cbn [rbind]; [discriminate|].
  intros H. apply py_int_raises in E. split; [congruence | reflexivity].
Qed.

Lemma expand_token_not_ok (token : string) :
  token_ok token = false -> expand_token token = Raise ValueError.
Proof.
  unfold expand_token, token_ok.
  destruct (matched_unit token) as [[suffix factor]|]; [|discriminate].
  destruct (py_int _) as [n|e'] eqn:E; cbn [rbind]; [discriminate|].
  intros _. apply py_int_raises in E. congruence.
Qed.

Lemma rmap_fails {A B} (f : A -> result B) (l : list A) (a : A) (e : exn) :
  In a l -> f a = Raise e -> exists e', rmap f l = Raise e'.
Proof.
  induction l as [|x l IH]; cbn [In rmap]; [contradiction|].
  intros [->|HIn] Hf.
  - rewrite Hf. now eexists.
  - destruct (f x) as [b|e1]; cbn [rbind]; [|now eexists].
    destruct (IH HIn Hf) as [e' ->]. now eexists.
Qed.

Lemma expand_unit_raises (value : string) (e : exn) :
  expand_unit value = Raise e ->
  e = ValueError /\
  exists token, In token (str_split ":" value) /\ token_ok token = false.
Proof.
  intros H. destruct (str_contains ":" value) eqn:E.
  - rewrite expand_unit_colon in H by exact E.
    destruct (rmap _ (str_split ":" value)) as [parts|e'] eqn:R;
      cbn [rbind] in H; [discriminate|].
    apply rmap_raise in R. destruct R as [t [Ht Hf]].
    rewrite expand_unit_token in Hf by (eapply str_split_pieces; exact Ht).
    destruct (expand_token t) as [v|e''] eqn:Et; cbn [rbind] in Hf;
      [discriminate|].
    apply expand_token_raises in Et. destruct Et as [-> Hok].
    split; [congruence | now exists t].
  - rewrite expand_unit_token in H by exact E.
    apply expand_token_raises in H. destruct H as [-> Hok].
    split; [reflexivity|]. exists value. split; [|exact Hok].
    rewrite str_split_nosep by exact E. now left.
Qed.

(** X6: [expand_unit] fails exactly when one of the colon-separated tokens ends
    with a unit suffix that follows something [int] rejects, and it then
    fails with [ValueError]. *)
Theorem expand_unit_fails_iff (value : string) :
  ((exists e, expand_unit value = Raise e) <->
   (exists token, In token (str_split ":" value) /\ token_ok token = false)) /\
  (forall e, expand_unit value = Raise e -> e = ValueError).
Proof.
  pose proof (expand_unit_raises value) as Hraise.
  split; [split|].
  - intros [e H]. exact (proj2 (Hraise e H)).
  - intros [t [Ht Hok]]. destruct (str_contains ":" value) eqn:E.
    + rewrite expand_unit_colon by exact E.
      destruct (rmap_fails (fun val => v <- expand_unit val ;; Ok (py_str v))%result
                  (str_split ":" value) t ValueError Ht) as [e' R].
      { rewrite expand_unit_token by (eapply str_split_pieces; exact Ht).
        now rewrite (expand_token_not_ok t Hok). }
      rewrite R. now eexists.
    + rewrite str_split_nosep in Ht by exact E.
      destruct Ht as [<-|[]].
      rewrite expand_unit_token by exact E.
      rewrite (expand_token_not_ok value Hok). now eexists.
  - intros e H. exact (proj1 (Hraise e H)).
Qed.

Lemma expand_unit_fails_iff_witness :
  exists e, expand_unit "500Mi:1.5Gi" = Raise e.
Proof.
  apply (proj1 (expand_unit_fails_iff "500Mi:1.5Gi")).
  exists "1.5Gi". split; [vm_compute; tauto | vm_compute; reflexivity].
Defined.

(** X7: A lower disk threshold with a unit, ["<n><unit>:"]: [expand_unit] turns
    it into the decimal string of n times the factor followed by a colon,
    and [compare_range] then accepts exactly the values that are not below
    the float nearest to that product.  Up to [2 ^ 53] in absolute value the
    product is that float; beyond, a value below the product can be
    accepted: for ["9007199254741034K:"] the bound read is
    9007199254741033984. *)
Theorem disk_threshold_with_unit
  (v : pyfloat) (pre suffix : string) (factor n : Z) :
  In (suffix, factor) unit_table ->
  str_contains ":" pre = false ->
  py_int pre = Ok n ->
  expand_unit (pre ++ suffix ++ ":") = Ok (PyStr (str_of_int (n * factor) ++ ":")) /\
  compare_range v (PyStr (str_of_int (n * factor) ++ ":"))
    = Ok (negb (float_lt v (round_float (inject_Z (n * factor))))) /\
  (Z.abs (n * factor) <= 2 ^ 53 ->
   compare_range v (PyStr (str_of_int (n * factor) ++ ":"))
     = Ok (negb (float_lt v (Fin (inject_Z (n * factor)))))) /\
  expand_unit "9007199254741034K:" = Ok (PyStr "9007199254741034000:") /\
  compare_range (Fin 9007199254741033984) (PyStr "9007199254741034000:") = Ok true.
Proof.
  intros HIn Hpre Hint.
  assert (Hcmp : compare_range v (PyStr (str_of_int (n * factor) ++ ":"))
                 = Ok (negb (float_lt v (round_float (inject_Z (n * factor)))))).
  { destruct (compare_range_two_sides v (str_of_int (n * factor)) ""
                (Some (round_float (inject_Z (n * factor)))) None) as [H _].
    + apply str_of_int_no_colon.
    + reflexivity.
    + destruct (str_of_int_head (n * factor)) as [c [r [-> [Hat _]]]].
      now rewrite startswith_at_eqb.
    + apply bound_str_of_int.
    + reflexivity.
    + change (":" ++ "") with ":" in H.
      rewrite H. cbn [spec_rejects]. now rewrite orb_false_r. }
  split; [|split; [exact Hcmp|split; [|split; vm_compute; reflexivity]]].
  2:{ intros Hsmall. rewrite Hcmp, (round_float_int _ Hsmall). reflexivity. }
  - rewrite <- str_append_assoc.
    assert (Htok : str_contains ":" (pre ++ suffix) = false)
      by (rewrite str_contains_append, Hpre, (unit_table_no_colon _ _ HIn);
          reflexivity).
    rewrite expand_unit_colon by apply str_contains_app.
    rewrite (str_split_app _ _ _ Htok). cbn [str_split rmap].
    rewrite (expand_unit_token _ Htok). unfold expand_token.
    rewrite (matched_unit_in _ _ _ HIn (str_endswith_append pre suffix)).
    rewrite str_drop_last_append, Hint. cbn [rbind py_str].
    change (expand_unit "") with (Ok (PyStr "")). reflexivity.
Qed.

Lemma disk_threshold_with_unit_witness :
  expand_unit ("1000" ++ "Mi" ++ ":") = Ok (PyStr (str_of_int (1000 * 1048576) ++ ":")) /\
  compare_range (Fin 2000000000) (PyStr (str_of_int (1000 * 1048576) ++ ":"))
    = Ok (negb (float_lt (Fin 2000000000) (Fin (inject_Z (1000 * 1048576))))).
Proof.
  destruct (disk_threshold_with_unit (Fin 2000000000) "1000" "Mi" 1048576 1000)
    as [H1 [_ [H2 _]]].
  - vm_compute. tauto.
  - reflexivity.
  - vm_compute. reflexivity.
  - split; [exact H1 | apply H2; vm_compute; discriminate].
Defined.

(* ===================================================================== *)
(** ** Instance metadata *)
(* ===================================================================== *)

Lemma fold_dict_set (l : list db_parameter) (acc : list (string * db_parameter)) :
  fold_left (fun params param => dict_set (ParameterName param) param params) l acc
  = (map (fun p => (ParameterName p, p)) (rev l) ++ acc)%list.
Proof.
  revert acc. induction l as [|p l IH]; intros acc; [reflexivity|].
  cbn [fold_left rev]. rewrite IH. unfold dict_set.
  rewrite map_app, <- app_assoc. reflexivity.
Qed.

Lemma dict_get_map (which : string) (l : list db_parameter) :
  dict_get which (map (fun p => (ParameterName p, p)) l)
  = find (fun p => String.eqb (ParameterName p) which) l.
Proof.
  unfold dict_get. induction l as [|p l IH]; [reflexivity|].
  cbn [map find fst snd]. destruct (String.eqb (ParameterName p) which);
    [reflexivity | exact IH].
Qed.

(** X9: [fetch_parameters] makes one paginated call for the first parameter
    group of the instance, and in the dict it builds the last entry of a
    name wins: [parameter] returns the value of that entry, and nothing
    ([False] in the source) for a name that is absent or has no value. *)
Theorem parameter_last_entry_wins
  (env : collaborators) (region group : string) (d : db_instance_data)
  (pages : list (list db_parameter)) (w : world) :
  list_index (DBParameterGroups d) 0 = Ok group ->
  describe_db_parameters env group = Answer pages ->
  exists params,
    fetch_parameters env region d w
    = (Ok params,
       {| trace := trace w ++ [DescribeDbParameters region group];
          metric_calls := metric_calls w |}) /\
    forall (inst : DbInstance) (which : string),
      parameters inst = params ->
      parameter inst which = last_parameter_value pages which.
Proof.
  intros Hgroup Hpages. eexists. split.
  - unfold fetch_parameters.
    erewrite bind_ok by (unfold lift; rewrite Hgroup; reflexivity).
    erewrite bind_ok by reflexivity.
    erewrite bind_ok by (rewrite Hpages; reflexivity).
    reflexivity.
  - intros inst which Hp. unfold parameter, last_parameter_value.
    rewrite Hp, fold_dict_set, app_nil_r, dict_get_map. reflexivity.
Qed.

Lemma parameter_last_entry_wins_witness :
  parameter override_db "max_connections" = Some "250" /\
  parameter override_db "wait_timeout" = None /\
  parameter override_db "innodb_buffer_pool_size" = None.
Proof.
  destruct (parameter_last_entry_wins override_env "eu-central-1"
              "default.mysql8.0" sample_instance pages_with_override
              initial_world eq_refl eq_refl) as [params [Hfetch Hget]].
  assert (Hp : parameters override_db = params).
  { vm_compute in Hfetch. injection Hfetch as Hp. rewrite <- Hp. reflexivity. }
  rewrite !(Hget override_db _ Hp). repeat split.
Defined.

Lemma str_split_nonempty (c : ascii) (s : string) : str_split c s <> [].
Proof.
  destruct s as [|a s]; cbn [str_split]; [discriminate|].
  destruct (Ascii.eqb a c); [discriminate|].
  destruct (str_split c s); discriminate.
Qed.

(** Joining the pieces of a split with the separator gives the string back. *)
Lemma str_join_split (c : ascii) (s : string) :
  str_join (String c "") (str_split c s) = s.
Proof.
  unfold str_join. induction s as [|a s IH]; [reflexivity|].
  cbn [str_split]. destruct (Ascii.eqb_spec a c) as [->|N].
  - pose proof (str_split_nonempty c s) as Hne.
    cbn [String.concat]. destruct (str_split c s) as [|h t]; [congruence|].
    cbn [String.append]. now rewrite IH.
  - pose proof (str_split_nonempty c s) as Hne.
    destruct (str_split c s) as [|h t]; [congruence|].
    destruct t as [|h' t].
    + cbn [String.concat] in *. now rewrite IH.
    + change (String.concat (String c "") (String a h :: h' :: t))
        with (String a (h ++ String c "" ++ String.concat (String c "") (h' :: t))).
      change (String.concat (String c "") (h :: h' :: t))
        with (h ++ String c "" ++ String.concat (String c "") (h' :: t)) in IH.
      now rewrite IH.
Qed.

(** X10: The value of [max_connections] when the parameter is a formula
    [{name/divisor}]: for the name [DBInstanceClassMemory], the memory size
    in bytes over the divisor as a float, that is the quotient rounded to
    the nearest float, then truncated to an [int]; [ZeroDivisionError] for
    the divisor 0 and [OverflowError] for a quotient beyond the float
    range; [RuntimeError] for any other name.  A missing parameter is an
    [AttributeError].  For a memory size below [2 ^ 53] bytes and a positive
    divisor the value is the quotient of the integers; beyond it need not
    be: with 2 ^ 36 MiB of memory and the divisor 3 the value is
    24019198012642644, one less than that quotient. *)
Theorem max_connections_formula
  (inst : DbInstance) (param divisor : string) (n : Z) :
  (parameter inst "max_connections" = None ->
   max_connections inst = Raise AttributeError) /\
  (parameter inst "max_connections" = Some ("{" ++ param ++ "/" ++ divisor ++ "}") ->
   str_contains "{" param = false -> str_contains "}" param = false ->
   str_contains "/" param = false ->
   str_contains "{" divisor = false -> str_contains "}" divisor = false ->
   str_contains "/" divisor = false ->
   py_int divisor = Ok n ->
   max_connections inst
   = if String.eqb param "DBInstanceClassMemory" then
       (q <- int_truediv (instance_class inst * 1024 * 1024) n ;;
        int_of_float q)%result
     else Raise RuntimeError) /\
  int_truediv (instance_class inst * 1024 * 1024) 0 = Raise ZeroDivisionError /\
  (0 <= instance_class inst * 1024 * 1024 < 2 ^ 53 -> 0 < n ->
   (q <- int_truediv (instance_class inst * 1024 * 1024) n ;;
    int_of_float q)%result
   = Ok (instance_class inst * 1024 * 1024 / n)) /\
  max_connections large_db = Ok 24019198012642644 /\
  Z.quot (instance_class large_db * 1024 * 1024) 3 = 24019198012642645.
Proof.
  split; [|split; [|split; [reflexivity | split;
                                            [apply int_truediv_trunc
                                            | split; vm_compute; reflexivity]]]].
  - intros H. unfold max_connections. now rewrite H.
  - intros H P1 P2 P3 D1 D2 D3 Hn. unfold max_connections. rewrite H.
    change ("{" ++ param ++ "/" ++ divisor ++ "}")
      with (String "{" (param ++ String "/" (divisor ++ String "}" ""))).
    assert (Hs : str_startswith
                   (String "{" (param ++ String "/" (divisor ++ String "}" ""))) "{"
                 = true).
    { unfold str_startswith. cbn [String.prefix].
      destruct (ascii_dec "{" "{"); [|congruence].
      destruct (param ++ _); reflexivity. }
    rewrite Hs.
    assert (Hin : str_contains "{" (param ++ String "/" (divisor ++ String "}" ""))
                  = false).
    { rewrite str_contains_append, P1. cbn [str_contains orb].
      rewrite str_contains_append, D1. reflexivity. }
    cbn [str_split]. change (Ascii.eqb "{" "{") with true. cbv iota.
    rewrite (str_split_nosep _ _ Hin). cbn [list_index nth_error rbind].
    assert (Hbody : str_contains "}" (param ++ String "/" divisor) = false).
    { rewrite str_contains_append, P2. cbn [str_contains orb]. exact D2. }
    replace (param ++ String "/" (divisor ++ String "}" ""))
      with ((param ++ String "/" divisor) ++ String "}" "")
      by (rewrite str_append_assoc; reflexivity).
    rewrite (str_split_app _ _ _ Hbody). cbn [list_index nth_error rbind].
    rewrite (str_split_app _ _ _ P3), (str_split_nosep _ _ D3).
    rewrite Hn. cbn [rbind]. unfold instance_memory. reflexivity.
Qed.

Lemma max_connections_formula_witness :
  max_connections sample_db = Ok 85.
Proof.
  rewrite (proj1 (proj2 (max_connections_formula sample_db "DBInstanceClassMemory"
                           "12582880" 12582880))); reflexivity.
Defined.

Lemma db_class_name (rest : string) :
  (if str_startswith ("db." ++ rest) "db."
   then str_join "." (tl (str_split "." ("db." ++ rest)))
   else "db." ++ rest) = rest.
Proof.
  assert (Hs : str_startswith ("db." ++ rest) "db." = true).
  { unfold str_startswith. cbn. destruct rest; reflexivity. }
  rewrite Hs.
  change ("db." ++ rest) with ("db" ++ String "." rest).
  rewrite (str_split_app "." "db" rest eq_refl). cbn [tl].
  apply str_join_split.
Qed.

(** X11: [fetch_instance_class] asks EC2 for the class name without its ["db."]
    prefix, makes that single call, and keeps the first instance type of the
    answer. *)
Theorem fetch_instance_class_strips_db
  (env : collaborators) (d : db_instance_data) (rest : string) (w : world) :
  DBInstanceClass d = "db." ++ rest ->
  fetch_instance_class env d w
  = (match describe_instance_types env rest with
     | Answer types => list_index types 0
     | TransportFailure msg => Raise (ClientError msg)
     end,
     {| trace := trace w ++ [DescribeInstanceTypes rest];
        metric_calls := metric_calls w |}).
Proof.
  intros H. unfold fetch_instance_class. rewrite H, db_class_name. cbv zeta.
  erewrite bind_ok by reflexivity.
  unfold bind, boto, lift.
  destruct (describe_instance_types env rest); reflexivity.
Qed.

Lemma fetch_instance_class_strips_db_witness :
  fetch_instance_class (sample_env silent_source) sample_instance initial_world
  = (Ok 1024, {| trace := [DescribeInstanceTypes "t3.micro"]; metric_calls := 0 |}).
Proof.
  rewrite (fetch_instance_class_strips_db (sample_env silent_source)
             sample_instance "t3.micro" initial_world eq_refl).
  reflexivity.
Defined.

(** X12: [DbInstance.__init__] on answering collaborators: three calls, in the
    order instance, parameters, instance type; the first instance, the first
    parameter group and the first instance type of the answers are used. *)
Theorem DbInstance_init_calls
  (env : collaborators) (region identifier group rest : string)
  (d : db_instance_data) (others : list db_instance_data)
  (groups : list string) (pages : list (list db_parameter))
  (mem : Z) (types : list Z) (w : world) :
  describe_db_instances env identifier = Answer (d :: others) ->
  DBParameterGroups d = group :: groups ->
  describe_db_parameters env group = Answer pages ->
  DBInstanceClass d = "db." ++ rest ->
  describe_instance_types env rest = Answer (mem :: types) ->
  exists inst,
    DbInstance_init env region identifier w
    = (Ok inst,
       {| trace := trace w ++ [DescribeDbInstances region identifier;
                               DescribeDbParameters region group;
                               DescribeInstanceTypes rest];
          metric_calls := metric_calls w |}) /\
    data inst = d /\ instance_class inst = mem /\
    instance_memory inst = mem * 1024 * 1024 /\
    storage inst = AllocatedStorage d * 1024 * 1024 * 1024 /\
    forall which, parameter inst which = last_parameter_value pages which.
Proof.
  intros Hinst Hgroups Hpages Hclass Htypes.
  eexists. split; [|split; [|split; [|split; [|split]]]].
  - unfold DbInstance_init.
    erewrite bind_ok by reflexivity.
    erewrite bind_ok by (rewrite Hinst; reflexivity).
    erewrite bind_ok by reflexivity.
    erewrite bind_ok.
    2:{ unfold fetch_parameters.
        erewrite bind_ok by (unfold lift; rewrite Hgroups; reflexivity).
        erewrite bind_ok by reflexivity.
        erewrite bind_ok by (rewrite Hpages; reflexivity).
        reflexivity. }
    erewrite bind_ok.
    2:{ unfold fetch_instance_class. rewrite Hclass, db_class_name. cbv zeta.
        erewrite bind_ok by reflexivity.
        erewrite bind_ok by (rewrite Htypes; reflexivity).
        reflexivity. }
    unfold ret. cbn [trace metric_calls]. rewrite <- !app_assoc. reflexivity.
  - reflexivity.
  - reflexivity.
  - reflexivity.
  - reflexivity.
  - intros which. unfold parameter, last_parameter_value. cbn [parameters].
    rewrite fold_dict_set, app_nil_r, dict_get_map. reflexivity.
Qed.

Lemma DbInstance_init_calls_witness :
  DbInstance_init (sample_env silent_source) "eu-central-1" "mydb" initial_world
  = (Ok sample_db,
     {| trace := [DescribeDbInstances "eu-central-1" "mydb";
                  DescribeDbParameters "eu-central-1" "default.mysql8.0";
                  DescribeInstanceTypes "t3.micro"];
        metric_calls := 0 |}).
Proof.
  destruct (DbInstance_init_calls (sample_env silent_source) "eu-central-1" "mydb"
              "default.mysql8.0" "t3.micro" sample_instance [] []
              sample_parameters 1024 [] initial_world
              eq_refl eq_refl eq_refl eq_refl eq_refl) as [inst [H _]].
  pose proof H as H'. vm_compute in H'. injection H' as Hi.
  rewrite H, <- Hi. reflexivity.
Defined.

(* ===================================================================== *)
(** ** Dimensions of a metric *)
(* ===================================================================== *)

(** X13: The dimensions of the plug-in's metrics: for an instance identifier
    without comma and colon, the single pair of [DBInstanceIdentifier] and
    the identifier.  An identifier with a comma followed by a part without
    colon makes [get_dimensions] raise [IndexError]. *)
Theorem get_dimensions_of_instance (args : Args) (metric_name statistic : string) :
  (str_contains "," (instance args) = false ->
   str_contains ":" (instance args) = false ->
   get_dimensions (rds_metric args metric_name statistic)
   = Ok [("DBInstanceIdentifier", instance args)]) /\
  (forall a b,
     instance args = a ++ "," ++ b ->
     str_contains "," a = false ->
     str_contains "," b = false ->
     str_contains ":" b = false ->
     get_dimensions (rds_metric args metric_name statistic) = Raise IndexError).
Proof.
  unfold get_dimensions, rds_metric. cbn [dimensions].
  change (String.eqb ("DBInstanceIdentifier:" ++ instance args) "") with false.
  cbv iota. split.
  - intros Hcomma Hcolon.
    rewrite str_split_nosep
      by (rewrite str_contains_append, Hcomma; reflexivity).
    cbn [rmap].
    change ("DBInstanceIdentifier:" ++ instance args)
      with ("DBInstanceIdentifier" ++ String ":" (instance args)).
    rewrite (str_split_app ":" "DBInstanceIdentifier" _ eq_refl),
      (str_split_nosep _ _ Hcolon).
    reflexivity.
  - intros a b -> Ha Hb Hcolon.
    change ("DBInstanceIdentifier:" ++ a ++ "," ++ b)
      with ("DBInstanceIdentifier:" ++ (a ++ String "," b)).
    rewrite <- str_append_assoc.
    rewrite str_split_app
      by (rewrite str_contains_append, Ha; reflexivity).
    rewrite (str_split_nosep _ _ Hb). cbn [rmap].
    change ("DBInstanceIdentifier:" ++ a)
      with ("DBInstanceIdentifier" ++ String ":" a).
    rewrite (str_split_app ":" "DBInstanceIdentifier" _ eq_refl).
    pose proof (str_split_nonempty ":" a) as Hne.
    destruct (str_split ":" a) as [|h t]; [congruence|].
    cbn [list_index nth_error rbind].
    rewrite (str_split_nosep _ _ Hcolon). reflexivity.
Qed.

Lemma get_dimensions_of_instance_witness :
  get_dimensions (rds_metric sample_args "CPUUtilization" "Maximum")
  = Ok [("DBInstanceIdentifier", "mydb")].
Proof.
  apply (proj1 (get_dimensions_of_instance sample_args "CPUUtilization" "Maximum"));
    reflexivity.
Defined.

(* ===================================================================== *)
(** ** More on the sampler *)
(* ===================================================================== *)

Lemma after_calls_counts (self : Metric) (dims : list (string * string)) (n : nat) :
  forall (offset : Z) (w : world),
    metric_calls (after_calls self dims offset n w) = (metric_calls w + n)%nat /\
    trace (after_calls self dims offset n w)
    = (trace w ++ retry_events self dims offset n)%list.
Proof.
  induction n as [|n IH]; intros offset w; cbn [after_calls retry_events].
  - split; [lia | now rewrite app_nil_r].
  - destruct (IH (offset + 1) (after_call self dims offset w)) as [H1 H2].
    rewrite H1, H2. cbn [after_call metric_calls trace]. split; [lia|].
    now rewrite <- app_assoc.
Qed.

(** [n] empty answers in a row, with the world they leave. *)
Lemma get_statistics_rec_skip
  (env : collaborators) (self : Metric) (dims : list (string * string)) (n : nat) :
  forall (depth : nat) (offset : Z) (w : world),
    get_dimensions self = Ok dims ->
    last_state self = true ->
    offset + Z.of_nat n <= 21 ->
    (forall k, (k < n)%nat ->
               get_metric_statistics env (metric_calls w + k) = Answer []) ->
    get_statistics_rec env (n + depth) self offset w
    = get_statistics_rec env depth self (offset + Z.of_nat n)
        (after_calls self dims offset n w).
Proof.
  induction n as [|n IH]; intros depth offset w Hdims Hls Hoff Hempty.
  - cbn [Nat.add after_calls]. now rewrite Z.add_0_r.
  - assert (H0 : get_metric_statistics env (metric_calls w) = Answer []).
    { rewrite <- (Nat.add_0_r (metric_calls w)). apply Hempty. lia. }
    assert (Hle : offset <= 20) by lia.
    cbn [Nat.add after_calls].
    rewrite (get_statistics_rec_empty_last_state env self dims Hdims _ _ _ Hle Hls H0).
    rewrite IH; try assumption.
    + f_equal. lia.
    + lia.
    + intros k Hk. cbn [after_call metric_calls].
      replace (S (metric_calls w) + k)%nat with (metric_calls w + S k)%nat by lia.
      apply Hempty. lia.
Qed.

Lemma retry_events_snoc (self : Metric) (dims : list (string * string)) (n : nat) :
  forall offset : Z,
    retry_events self dims offset (S n)
    = (retry_events self dims offset n ++
       [GetMetricStatistics (name self) dims
          (minutes self + (offset + Z.of_nat n)) (offset + Z.of_nat n) 300
          (statistics self)])%list.
Proof.
  induction n as [|n IH]; intros offset.
  - cbn [retry_events app Z.of_nat]. now rewrite Z.add_0_r.
  - change (retry_events self dims offset (S (S n)))
      with (GetMetricStatistics (name self) dims (minutes self + offset) offset 300
              (statistics self) :: retry_events self dims (offset + 1) (S n)).
    rewrite IH. cbn [retry_events app].
    replace (offset + 1 + Z.of_nat n) with (offset + Z.of_nat (S n)) by lia.
    reflexivity.
Qed.

(** X14: The sample after [n] empty answers, for any [n] up to 20: the last
    datapoint of the first answer that has data, [n + 1] calls having been
    made, the k-th of them for the window from [minutes + k] to [k] minutes
    ago.  Retrying needs [last_state]; the first answer does not. *)
Theorem get_current_value_after_empty_answers
  (env : collaborators) (self : Metric) (dims : list (string * string))
  (n : nat) (d : Q) (ds : list Q) (w : world) :
  get_dimensions self = Ok dims ->
  (n <= 20)%nat ->
  (n = 0%nat \/ last_state self = true) ->
  (forall k, (k < n)%nat ->
             get_metric_statistics env (metric_calls w + k) = Answer []) ->
  get_metric_statistics env (metric_calls w + n) = Answer (d :: ds) ->
  exists w',
    get_current_value env self w = (Ok (Some (last ds d)), w') /\
    metric_calls w' = (metric_calls w + n + 1)%nat /\
    trace w' = (trace w ++ retry_events self dims 0 (S n))%list.
Proof.
  intros Hdims Hn Hls Hempty Hdata.
  exists (after_call self dims (Z.of_nat n) (after_calls self dims 0 n w)).
  destruct (after_calls_counts self dims n 0 w) as [Hc Ht].
  assert (Hstat : get_statistics env self 0 w
                  = (Ok (Some (d :: ds)),
                     after_call self dims (Z.of_nat n) (after_calls self dims 0 n w))).
  { unfold get_statistics.
    destruct Hls as [->|Hls].
    - change recursion_limit with (S 999). cbn [after_calls Z.of_nat].
      apply (get_statistics_rec_data env self dims Hdims); [lia|].
      now rewrite Nat.add_0_r in Hdata.
    - replace recursion_limit with (n + (recursion_limit - n))%nat
        by (unfold recursion_limit; lia).
      rewrite (get_statistics_rec_skip env self dims n _ 0 w Hdims Hls)
        by (lia || assumption).
      destruct (recursion_limit - n)%nat as [|depth] eqn:E;
        [unfold recursion_limit in E; lia|].
      cbn [Z.add].
      apply (get_statistics_rec_data env self dims Hdims); [lia|].
      now rewrite Hc. }
  split; [|split].
  - unfold get_current_value. erewrite bind_ok by exact Hstat. reflexivity.
  - cbn [after_call metric_calls]. rewrite Hc. lia.
  - cbn [after_call trace]. rewrite Ht, retry_events_snoc, <- app_assoc.
    reflexivity.
Qed.

Lemma get_current_value_after_empty_answers_witness :
  exists w',
    get_current_value (sample_env (late_source 5))
      (rds_metric sample_args_last_state "CPUUtilization" "Maximum") initial_world
    = (Ok (Some 7%Q), w') /\
    metric_calls w' = 6%nat.
Proof.
  destruct (get_current_value_after_empty_answers (sample_env (late_source 5))
              (rds_metric sample_args_last_state "CPUUtilization" "Maximum")
              [("DBInstanceIdentifier", "mydb")] 5 3%Q [7%Q] initial_world)
    as [w' [H1 [H2 _]]].
  - reflexivity.
  - lia.
  - right. reflexivity.
  - intros k Hk. cbn [initial_world metric_calls Nat.add sample_env
                      get_metric_statistics].
    unfold late_source. destruct (Nat.ltb_spec k 5); [reflexivity | lia].
  - reflexivity.
  - exists w'. split; [exact H1 | exact H2].
Defined.

Lemma get_statistics_rec_calls_bound (env : collaborators) (self : Metric) :
  forall (depth : nat) (offset : Z) (w : world) r w',
    get_statistics_rec env depth self offset w = (r, w') ->
    (metric_calls w <= metric_calls w')%nat /\
    (metric_calls w' <= metric_calls w + Z.to_nat (21 - offset))%nat /\
    (last_state self = false -> (metric_calls w' <= metric_calls w + 1)%nat).
Proof.
  induction depth as [|depth IH]; intros offset w r w' H.
  - inversion H. repeat split; lia.
  - cbn [get_statistics_rec] in H.
    destruct (Z.ltb_spec 20 offset) as [Hoff|Hoff].
    { inversion H. repeat split; lia. }
    unfold bind at 1, try_except, cloudwatch_get_statistics in H.
    unfold bind at 1, lift in H.
    destruct (get_dimensions self) as [dims|e].
    + destruct (get_metric_statistics env (metric_calls w)) as [dps|msg];
        cbn [boto ret raise] in H.
      * destruct dps as [|d ds].
        -- destruct (last_state self) eqn:Hls.
           ++ apply IH in H. cbn [metric_calls] in H. destruct H as [H1 [H2 _]].
              repeat split; lia.
           ++ inversion H. cbn [metric_calls]. repeat split; lia.
        -- inversion H. cbn [metric_calls]. repeat split; lia.
      * inversion H. cbn [metric_calls]. repeat split; lia.
    + destruct e; inversion H; cbn [metric_calls]; repeat split; lia.
Qed.

(** X15: Whatever the collaborators answer, the sampler makes at most 21
    CloudWatch calls for one value, and at most one when [last_state] is
    unset. *)
Theorem get_current_value_calls_bound
  (env : collaborators) (self : Metric) (w w' : world) (r : result (option Q)) :
  get_current_value env self w = (r, w') ->
  (metric_calls w <= metric_calls w')%nat /\
  (metric_calls w' <= metric_calls w + 21)%nat /\
  (last_state self = false -> (metric_calls w' <= metric_calls w + 1)%nat).
Proof.
  unfold get_current_value, get_statistics, bind. intros H.
  destruct (get_statistics_rec env recursion_limit self 0 w) as [[stats|e] w1] eqn:E;
    apply get_statistics_rec_calls_bound in E; cbn [Z.sub Z.to_nat] in E.
  - assert (w' = w1) by (destruct stats as [[|d ds]|]; inversion H; reflexivity).
    subst w'. change (Z.to_nat (21 - 0)) with 21%nat in E. exact E.
  - inversion H. subst. change (Z.to_nat (21 - 0)) with 21%nat in E. exact E.
Qed.

Lemma get_current_value_calls_bound_witness :
  (metric_calls
     (snd (get_current_value (sample_env silent_source)
             (rds_metric sample_args_last_state "CPUUtilization" "Maximum")
             initial_world)) <= 0 + 21)%nat.
Proof.
  apply (get_current_value_calls_bound (sample_env silent_source)
           (rds_metric sample_args_last_state "CPUUtilization" "Maximum")
           initial_world
           (snd (get_current_value (sample_env silent_source)
                   (rds_metric sample_args_last_state "CPUUtilization" "Maximum")
                   initial_world))
           (Raise TypeError)).
  vm_compute. reflexivity.
Defined.

Lemma get_current_value_no_fallback_witness :
  get_current_value (sample_env silent_source)
    (rds_metric sample_args "CPUUtilization" "Maximum") initial_world
  = (Ok None,
     after_call (rds_metric sample_args "CPUUtilization" "Maximum")
       [("DBInstanceIdentifier", "mydb")] 0 initial_world).
Proof.
  apply (get_current_value_no_fallback (sample_env silent_source)
           (rds_metric sample_args "CPUUtilization" "Maximum")
           [("DBInstanceIdentifier", "mydb")] initial_world);
    reflexivity.
Defined.

(* ===================================================================== *)
(** ** Exit statuses *)
(* ===================================================================== *)

Lemma no_exit_ok {A} (a : A) : no_exit (Ok a).
Proof. intros c. discriminate. Qed.

Lemma no_exit_rbind {A B} (r : result A) (k : A -> result B) :
  no_exit r -> (forall a, no_exit (k a)) -> no_exit (rbind r k).
Proof.
  intros Hr Hk c. destruct r as [a|e]; cbn [rbind]; [apply Hk|].
  intros H. apply (Hr c). congruence.
Qed.

Lemma no_exit_rmap {A B} (f : A -> result B) (l : list A) :
  (forall a, no_exit (f a)) -> no_exit (rmap f l).
Proof.
  intros Hf. induction l as [|a l IH]; cbn [rmap]; [apply no_exit_ok|].
  apply no_exit_rbind; [apply Hf | intros b].
  apply no_exit_rbind; [exact IH | intros bs; apply no_exit_ok].
Qed.

Lemma no_exit_list_index {A} (l : list A) (i : nat) : no_exit (list_index l i).
Proof. unfold list_index. intros c. destruct (nth_error l i); discriminate. Qed.

Lemma no_exit_py_int (s : string) : no_exit (py_int s).
Proof.
  intros c H. apply py_int_raises in H. discriminate.
Qed.

Lemma no_exit_float_of_int (n : Z) : no_exit (float_of_int n).
Proof.
  unfold float_of_int. intros c.
  destruct (round_float (inject_Z n)); discriminate.
Qed.

Lemma no_exit_float_truediv (x y : pyfloat) : no_exit (float_truediv x y).
Proof.
  unfold float_truediv. intros c. destruct (float_is_zero y); discriminate.
Qed.

Lemma no_exit_int_truediv (a b : Z) : no_exit (int_truediv a b).
Proof.
  unfold int_truediv. intros c.
  destruct (Z.eqb b 0); [discriminate|].
  destruct (Z.eqb a 0); [discriminate|].
  destruct (round_float _); discriminate.
Qed.

Lemma no_exit_int_of_float (x : pyfloat) : no_exit (int_of_float x).
Proof. intros c. destruct x; discriminate. Qed.

Lemma no_exit_max_connections (inst : DbInstance) : no_exit (max_connections inst).
Proof.
  unfold max_connections.
  destruct (parameter inst "max_connections") as [value|]; [|intros c; discriminate].
  destruct (str_startswith value "{"); [|apply no_exit_py_int].
  apply no_exit_rbind; [apply no_exit_list_index | intros inner].
  apply no_exit_rbind; [apply no_exit_list_index | intros expr].
  destruct (str_split "/" expr) as [|p [|dv [|x l]]]; try (intros c; discriminate).
  destruct (String.eqb p "DBInstanceClassMemory"); [|intros c; discriminate].
  apply no_exit_rbind; [apply no_exit_py_int | intros n].
  apply no_exit_rbind; [apply no_exit_int_truediv | intros q].
  apply no_exit_int_of_float.
Qed.

Lemma no_exit_sub_sample (n : Z) (x : option Q) : no_exit (sub_sample n x).
Proof.
  destruct x; cbn [sub_sample]; [|intros c; discriminate].
  apply no_exit_rbind; [apply no_exit_float_of_int | intros a; apply no_exit_ok].
Qed.

Lemma no_exit_div_sample (x : option pyfloat) (n : Z) : no_exit (div_sample x n).
Proof.
  destruct x; cbn [div_sample]; [|intros c; discriminate].
  apply no_exit_rbind; [apply no_exit_float_of_int | intros d].
  apply no_exit_float_truediv.
Qed.

Lemma no_exit_get_dimensions (self : Metric) : no_exit (get_dimensions self).
Proof.
  unfold get_dimensions. destruct (String.eqb (dimensions self) "");
    [apply no_exit_ok|].
  apply no_exit_rmap. intros pair.
  apply no_exit_rbind; [apply no_exit_list_index | intros n].
  apply no_exit_rbind; [apply no_exit_list_index | intros v]. apply no_exit_ok.
Qed.

Lemma no_exit_compare (v : pyfloat) (warn crit : pyval) : no_exit (compare v warn crit).
Proof.
  assert (R : forall w, no_exit (compare_range v w)).
  { intros w c H. apply compare_range_raises in H.
    destruct H as [H|[H|H]]; discriminate. }
  unfold compare. apply no_exit_rbind; [apply R | intros c].
  destruct (negb c); [apply no_exit_ok|].
  apply no_exit_rbind; [apply R | intros x].
  destruct (negb x); apply no_exit_ok.
Qed.

Lemma no_exit_expand_unit (value : string) : no_exit (expand_unit value).
Proof.
  intros c H. apply expand_unit_raises in H. destruct H as [H _]. discriminate.
Qed.

Lemma exits_unknown_ret {A} (a : A) : exits_unknown_only (ret a).
Proof. intros w r w' c H ->. inversion H. Qed.

Lemma exits_unknown_lift {A} (r : result A) :
  no_exit r -> exits_unknown_only (lift r).
Proof. intros Hr w r' w' c H ->. inversion H. now apply Hr in H1. Qed.

Lemma exits_unknown_emit (e : event) : exits_unknown_only (emit e).
Proof. intros w r w' c H ->. inversion H. Qed.

Lemma exits_unknown_boto {A} (r : reply A) : exits_unknown_only (boto r).
Proof. intros w r' w' c H ->. destruct r; inversion H. Qed.

Lemma exits_unknown_bind {A B} (m : M A) (k : A -> M B) :
  exits_unknown_only m -> (forall a, exits_unknown_only (k a)) ->
  exits_unknown_only (bind m k).
Proof.
  intros Hm Hk w r w' c H Hr. unfold bind in H.
  destruct (m w) as [[a|e] w1] eqn:E.
  - exact (Hk a _ _ _ _ H Hr).
  - inversion H. subst. injection H1 as ->. exact (Hm _ _ _ _ E eq_refl).
Qed.

Ltac exits_unknown_steps :=
  repeat lazymatch goal with
    | |- forall _, _ => intro
    | |- exits_unknown_only (bind _ _) => apply exits_unknown_bind
    | |- exits_unknown_only (ret _) => apply exits_unknown_ret
    | |- exits_unknown_only (emit _) => apply exits_unknown_emit
    | |- exits_unknown_only (boto _) => apply exits_unknown_boto
    | |- exits_unknown_only (lift _) => apply exits_unknown_lift
    | |- no_exit (list_index _ _) => apply no_exit_list_index
    | |- no_exit (max_connections _) => apply no_exit_max_connections
    | |- no_exit (sub_sample _ _) => apply no_exit_sub_sample
    | |- no_exit (div_sample _ _) => apply no_exit_div_sample
    | |- no_exit (get_dimensions _) => apply no_exit_get_dimensions
    end.

Lemma exits_unknown_DbInstance_init
  (env : collaborators) (region identifier : string) :
  exits_unknown_only (DbInstance_init env region identifier).
Proof.
  unfold DbInstance_init, fetch_parameters, fetch_instance_class. cbv zeta.
  exits_unknown_steps.
Qed.

Lemma exits_unknown_get_statistics_rec (env : collaborators) (self : Metric) :
  forall (depth : nat) (offset : Z),
    exits_unknown_only (get_statistics_rec env depth self offset).
Proof.
  induction depth as [|depth IH]; intros offset w r w' c H Hr.
  - inversion H. subst. discriminate.
  - cbn [get_statistics_rec] in H.
    destruct (Z.ltb 20 offset); [inversion H; subst; discriminate|].
    unfold bind at 1, try_except, cloudwatch_get_statistics in H.
    unfold bind at 1, lift in H.
    destruct (get_dimensions self) as [dims|e] eqn:Ed.
    + destruct (get_metric_statistics env (metric_calls w)) as [dps|msg];
        cbn [boto ret raise] in H.
      * destruct dps as [|d ds].
        -- destruct (last_state self).
           ++ exact (IH _ _ _ _ _ H Hr).
           ++ inversion H. subst. discriminate.
        -- inversion H. subst. discriminate.
      * inversion H. subst. injection H1 as <-. reflexivity.
    + pose proof (no_exit_get_dimensions self) as N. rewrite Ed in N.
      destruct e; inversion H; subst; try discriminate.
      * congruence.
      * exfalso. eapply N. reflexivity.
Qed.

Lemma exits_unknown_get_current_value (env : collaborators) (self : Metric) :
  exits_unknown_only (get_current_value env self).
Proof.
  unfold get_current_value, get_statistics.
  apply exits_unknown_bind; [apply exits_unknown_get_statistics_rec|].
  intros [[|d ds]|] w r w' c H Hr; inversion H; subst; discriminate.
Qed.

Ltac exits_unknown_metric_steps :=
  repeat lazymatch goal with
    | |- forall _, _ => intro
    | |- exits_unknown_only (bind _ _) => apply exits_unknown_bind
    | |- exits_unknown_only (ret _) => apply exits_unknown_ret
    | |- exits_unknown_only (lift _) => apply exits_unknown_lift
    | |- exits_unknown_only (DbInstance_init _ _ _) =>
        apply exits_unknown_DbInstance_init
    | |- exits_unknown_only (get_current_value _ _) =>
        apply exits_unknown_get_current_value
    | |- no_exit (max_connections _) => apply no_exit_max_connections
    | |- no_exit (sub_sample _ _) => apply no_exit_sub_sample
    | |- no_exit (div_sample _ _) => apply no_exit_div_sample
    end.

Lemma exits_unknown_unused_connections (env : collaborators) (args : Args) :
  exits_unknown_only (unused_connections env args).
Proof.
  unfold unused_connections. cbv zeta.
  destruct (percent args); exits_unknown_metric_steps.
Qed.

Lemma exits_unknown_free_storage (env : collaborators) (args : Args) :
  exits_unknown_only (free_storage env args).
Proof.
  unfold free_storage. cbv zeta.
  destruct (percent args); exits_unknown_metric_steps.
Qed.

Lemma exits_unknown_cpu_used (env : collaborators) (args : Args) :
  exits_unknown_only (cpu_used env args).
Proof. unfold cpu_used. exits_unknown_metric_steps. Qed.

Lemma exits_in_range_unknown {A} (m : M A) :
  exits_unknown_only m -> exits_in_range m.
Proof. intros H w r w' c Hm Hr. rewrite (H _ _ _ _ Hm Hr). lia. Qed.

Lemma exits_in_range_lift {A} (r : result A) : no_exit r -> exits_in_range (lift r).
Proof. intros H. apply exits_in_range_unknown, exits_unknown_lift, H. Qed.

Lemma exits_in_range_bind {A B} (m : M A) (k : A -> M B) :
  exits_in_range m -> (forall a, exits_in_range (k a)) ->
  exits_in_range (bind m k).
Proof.
  intros Hm Hk w r w' c H Hr. unfold bind in H.
  destruct (m w) as [[a|e] w1] eqn:E.
  - exact (Hk a _ _ _ _ H Hr).
  - inversion H. subst. injection H1 as ->. exact (Hm _ _ _ _ E eq_refl).
Qed.

Lemma never_returns_bind {A B} (m : M A) (k : A -> M B) :
  (forall a, never_returns (k a)) -> never_returns (bind m k).
Proof.
  intros Hk w b w' H. unfold bind in H.
  destruct (m w) as [[a|e] w1]; [exact (Hk a _ _ _ H) | discriminate].
Qed.

(** The three state computations of [main] never exit by themselves. *)
Lemma no_exit_metric_state (value : option pyfloat) (warn crit : pyval) :
  no_exit (match value with
           | None => Ok STATE_UNKNOWN
           | Some v => compare v warn crit
           end).
Proof. destruct value; [apply no_exit_compare | apply no_exit_ok]. Qed.

Lemma no_exit_disk_state (value : option pyfloat) (warn crit : string) :
  no_exit (match value with
           | None => Ok STATE_UNKNOWN
           | Some v =>
               (w <- expand_unit warn ;;
                c <- expand_unit crit ;;
                compare v w c)%result
           end).
Proof.
  destruct value; [|apply no_exit_ok].
  apply no_exit_rbind; [apply no_exit_expand_unit | intros w].
  apply no_exit_rbind; [apply no_exit_expand_unit | intros c].
  apply no_exit_compare.
Qed.

Lemma no_exit_shown (p : bool) (value : option pyfloat) :
  no_exit (if p then Ok value
           else (x <- div_sample value 1024 ;;
                 y <- div_sample (Some x) 1024 ;;
                 Ok (Some y))%result).
Proof.
  destruct p; [apply no_exit_ok|].
  apply no_exit_rbind; [apply no_exit_div_sample | intros x].
  apply no_exit_rbind; [apply no_exit_div_sample | intros y]. apply no_exit_ok.
Qed.

Lemma state_code_range (s : state) : 0 <= state_code s <= 3.
Proof. destruct s; cbn; lia. Qed.

(** X20: A run never ends without an exit status of its own choosing or a
    traceback: [main] does not return, and the exit status of the process is
    always one of 0, 1, 2 and 3. *)
Theorem run_exit_status
  (env : collaborators) (str_float : Q -> string) (args : Args) :
  (forall a w, run env str_float args <> (Ok a, w)) /\
  0 <= exit_status (fst (run env str_float args)) <= 3.
Proof.
  split.
  - intros a w. unfold run, main. cbv zeta.
    repeat (apply never_returns_bind; intros ?).
    unfold sys_exit, raise. discriminate.
  - assert (R : exits_in_range (main env str_float args)).
    { unfold main. cbv zeta.
      apply exits_in_range_bind;
        [apply exits_in_range_unknown, exits_unknown_unused_connections | intros v1].
      apply exits_in_range_bind;
        [apply exits_in_range_lift, no_exit_metric_state | intros st1].
      apply exits_in_range_bind;
        [apply exits_in_range_unknown, exits_unknown_free_storage | intros v2].
      apply exits_in_range_bind;
        [apply exits_in_range_lift, no_exit_disk_state | intros st2].
      apply exits_in_range_bind;
        [apply exits_in_range_lift, no_exit_shown | intros shown].
      apply exits_in_range_bind;
        [apply exits_in_range_unknown, exits_unknown_cpu_used | intros v3].
      apply exits_in_range_bind;
        [apply exits_in_range_lift, no_exit_metric_state | intros st3].
      apply exits_in_range_bind;
        [apply exits_in_range_unknown, exits_unknown_emit | intros u].
      intros w r w' c H Hr. unfold sys_exit, raise in H.
      inversion H. subst. injection H1 as <-. apply state_code_range. }
    unfold run. destruct (main env str_float args initial_world) as [r w] eqn:E.
    destruct r as [a|e]; cbn [fst exit_status]; [lia|].
    destruct e; try lia. exact (R _ _ _ _ E eq_refl).
Qed.

Lemma aggregate_ok_all_ok (states : list item) (it : item) :
  fst (aggregate states) = STATE_OK -> In it states -> item_state it = STATE_OK.
Proof.
  unfold aggregate. intros H HIn.
  destruct (truthy (with_state STATE_CRIT states)) eqn:EC; [discriminate|].
  destruct (truthy (with_state STATE_WARN states)) eqn:EW; [discriminate|].
  destruct (truthy (with_state STATE_UNKNOWN states)) eqn:EU; [discriminate|].
  pose proof (truthy_with_state_false _ _ it EC HIn).
  pose proof (truthy_with_state_false _ _ it EW HIn).
  pose proof (truthy_with_state_false _ _ it EU HIn).
  destruct (item_state it); congruence.
Qed.

(** X21: Exit status 0 is never a false OK: when a run exits with 0, each of the
    three metrics was sampled with a present value, every threshold was
    read, and each value is inside both its warning and its critical range;
    at least three CloudWatch calls were made. *)
Theorem exit_ok_means_all_ok
  (env : collaborators) (str_float : Q -> string) (args : Args) (w : world) :
  run env str_float args = (Raise (SystemExit 0), w) ->
  exists (v1 v2 v3 : pyfloat) (w1 w2 w3 : world) (warn crit : pyval),
    unused_connections env args initial_world = (Ok (Some v1), w1) /\
    compare v1 (PyStr (warn_conns args)) (PyStr (crit_conns args))
      = Ok STATE_OK /\
    free_storage env args w1 = (Ok (Some v2), w2) /\
    expand_unit (warn_disk args) = Ok warn /\
    expand_unit (crit_disk args) = Ok crit /\
    compare v2 warn crit = Ok STATE_OK /\
    cpu_used env args w2 = (Ok (Some v3), w3) /\
    compare v3 (PyStr (warn_cpu args)) (PyStr (crit_cpu args))
      = Ok STATE_OK /\
    (3 <= metric_calls w)%nat.
Proof.
  intros H. unfold run, main in H. cbv zeta in H.
  unfold bind at 1 in H.
  destruct (unused_connections env args initial_world) as [[v1|e] w1] eqn:E1.
  2:{ inversion H. subst.
      discriminate (exits_unknown_unused_connections env args _ _ _ _ E1 eq_refl). }
  unfold bind at 1, lift at 1 in H.
  destruct (match v1 with
            | None => Ok STATE_UNKNOWN
            | Some v => compare v (PyStr (warn_conns args))
                                (PyStr (crit_conns args))
            end) as [st1|e] eqn:S1.
  2:{ inversion H. subst. exfalso. eapply no_exit_metric_state. exact S1. }
  unfold bind at 1 in H.
  destruct (free_storage env args w1) as [[v2|e] w2] eqn:E2.
  2:{ inversion H. subst.
      discriminate (exits_unknown_free_storage env args _ _ _ _ E2 eq_refl). }
  unfold bind at 1, lift at 1 in H.
  destruct (match v2 with
            | None => Ok STATE_UNKNOWN
            | Some v =>
                (warn <- expand_unit (warn_disk args) ;;
                 crit <- expand_unit (crit_disk args) ;;
                 compare v warn crit)%result
            end) as [st2|e] eqn:S2.
  2:{ inversion H. subst. exfalso. eapply no_exit_disk_state. exact S2. }
  unfold bind at 1, lift at 1 in H.
  destruct (if percent args then Ok v2
            else (x <- div_sample v2 1024 ;;
                  y <- div_sample (Some x) 1024 ;;
                  Ok (Some y))%result) as [shown|e] eqn:SH.
  2:{ inversion H. subst. exfalso. eapply no_exit_shown. exact SH. }
  unfold bind at 1 in H.
  destruct (cpu_used env args w2) as [[v3|e] w3] eqn:E3.
  2:{ inversion H. subst.
      discriminate (exits_unknown_cpu_used env args _ _ _ _ E3 eq_refl). }
  unfold bind at 1, lift at 1 in H.
  destruct (match v3 with
            | None => Ok STATE_UNKNOWN
            | Some v => compare v (PyStr (warn_cpu args))
                                (PyStr (crit_cpu args))
            end) as [st3|e] eqn:S3.
  2:{ inversion H. subst. exfalso. eapply no_exit_metric_state. exact S3. }
  unfold bind, print, emit, sys_exit, raise in H.
  injection H as Hcode Hw.
  match type of Hcode with
  | state_code (fst (aggregate ?l)) = 0 => set (states := l) in *
  end.
  assert (Hok : fst (aggregate states) = STATE_OK)
    by (destruct (fst (aggregate states)); cbn in Hcode; congruence).
  assert (H1 : st1 = STATE_OK)
    by (apply (aggregate_ok_all_ok states
                 {| item_name := "free_connections"; item_state := st1;
                    item_value := v1;
                    item_unit := if percent args then "%" else "" |} Hok);
        cbn; tauto).
  assert (H2 : st2 = STATE_OK)
    by (apply (aggregate_ok_all_ok states
                 {| item_name := "free_storage"; item_state := st2;
                    item_value := shown;
                    item_unit := if percent args then "%" else " MiB" |} Hok);
        cbn; tauto).
  assert (H3 : st3 = STATE_OK)
    by (apply (aggregate_ok_all_ok states
                 {| item_name := "cpu_used"; item_state := st3;
                    item_value := v3; item_unit := "%" |} Hok);
        cbn; tauto).
  subst st1 st2 st3.
  destruct v1 as [x1|]; [|discriminate S1].
  destruct v2 as [x2|]; [|discriminate S2].
  destruct v3 as [x3|]; [|discriminate S3].
  destruct (expand_unit (warn_disk args)) as [warn|] eqn:EW;
    cbn [rbind] in S2; [|discriminate S2].
  destruct (expand_unit (crit_disk args)) as [crit|] eqn:EC;
    cbn [rbind] in S2; [|discriminate S2].
  exists x1, x2, x3, w1, w2, w3, warn, crit.
  repeat (split; [assumption || reflexivity|]).
  apply unused_connections_calls in E1.
  assert (C2 : (metric_calls w1 < metric_calls w2)%nat).
  { unfold free_storage in E2. unfold bind at 1 in E2.
    destruct (DbInstance_init env (region args) (instance args) w1)
      as [[inst|e] w0] eqn:E0; [|discriminate].
    apply DbInstance_init_calls_kept in E0. cbv zeta in E2.
    unfold bind at 1 in E2.
    destruct (get_current_value env _ w0) as [[cur|e] w0'] eqn:Ec; [|discriminate].
    apply get_current_value_calls in Ec.
    assert (metric_calls w2 = metric_calls w0'); [|lia].
    destruct (percent args).
    - unfold bind, lift, ret in E2.
      destruct (div_sample (option_map Fin cur) (storage inst));
        inversion E2; reflexivity.
    - inversion E2. reflexivity. }
  assert (C3 : (metric_calls w2 < metric_calls w3)%nat).
  { unfold cpu_used in E3. unfold bind at 1 in E3.
    destruct (get_current_value env _ w2) as [[cur|e] w2'] eqn:Ec; [|discriminate].
    apply get_current_value_calls in Ec.
    inversion E3. subst. exact Ec. }
  subst w. cbn [metric_calls initial_world] in *. lia.
Qed.

Lemma exit_ok_means_all_ok_witness :
  exists v1 v2 v3 : pyfloat,
    compare v1 (PyStr "10:") (PyStr "5:") = Ok STATE_OK /\
    compare v3 (PyStr "80") (PyStr "90") = Ok STATE_OK /\
    v1 = Fin 35 /\ v2 = Fin 2000000000 /\ v3 = Fin 12.
Proof.
  destruct (exit_ok_means_all_ok (sample_env healthy_source) sample_str_float
              sample_args
              (snd (run (sample_env healthy_source) sample_str_float sample_args)))
    as (v1 & v2 & v3 & w1 & w2 & w3 & warn & crit
        & H1 & C1 & H2 & _ & _ & _ & H3 & C3 & _).
  - vm_compute. reflexivity.
  - exists v1, v2, v3. split; [exact C1|]. split; [exact C3|].
    vm_compute in H1. injection H1 as <- <-.
    vm_compute in H2. injection H2 as <- <-.
    vm_compute in H3. injection H3 as <- _.
    repeat split; reflexivity.
Defined.

(* ===================================================================== *)
(** ** Transport failures of the metric source *)
(* ===================================================================== *)

(** X17: A transport failure of CloudWatch at any attempt, the first or one that
    follows [n] empty answers, ends the sampling at once: the diagnostic line
    is printed, [SystemExit] with status UNKNOWN is raised, and the failed
    call is the last one made. *)
Theorem get_current_value_transport_failure
  (env : collaborators) (self : Metric) (dims : list (string * string))
  (n : nat) (msg : string) (w : world) :
  get_dimensions self = Ok dims ->
  (n <= 20)%nat ->
  (n = 0%nat \/ last_state self = true) ->
  (forall k, (k < n)%nat ->
             get_metric_statistics env (metric_calls w + k) = Answer []) ->
  get_metric_statistics env (metric_calls w + n) = TransportFailure msg ->
  exists w',
    get_current_value env self w
    = (Raise (SystemExit (state_code STATE_UNKNOWN)), w') /\
    metric_calls w' = (metric_calls w + n + 1)%nat /\
    trace w' = (trace w ++ retry_events self dims 0 (S n) ++
                [Stdout ("UNKNOWN - " ++ msg)])%list.
Proof.
  intros Hdims Hn Hls Hempty Hfail.
  destruct (after_calls_counts self dims n 0 w) as [Hc Ht].
  set (wn := after_calls self dims 0 n w) in *.
  exists {| trace := trace (after_call self dims (Z.of_nat n) wn) ++
                       [Stdout ("UNKNOWN - " ++ msg)];
            metric_calls := S (metric_calls wn) |}.
  split; [|split].
  - unfold get_current_value, get_statistics.
    erewrite bind_raise; [reflexivity|].
    destruct Hls as [->|Hls].
    + change recursion_limit with (S 999).
      apply (get_statistics_rec_transport_failure env self dims Hdims); [lia|].
      subst wn. cbn [after_calls]. now rewrite Nat.add_0_r in Hfail.
    + replace recursion_limit with (n + (recursion_limit - n))%nat
        by (unfold recursion_limit; lia).
      rewrite (get_statistics_rec_skip env self dims n _ 0 w Hdims Hls)
        by (lia || assumption).
      destruct (recursion_limit - n)%nat as [|depth] eqn:E;
        [unfold recursion_limit in E; lia|].
      cbn [Z.add]. fold wn.
      apply (get_statistics_rec_transport_failure env self dims Hdims); [lia|].
      now rewrite Hc.
  - cbn [metric_calls]. rewrite Hc. lia.
  - cbn [trace after_call]. rewrite Ht, retry_events_snoc, <- !app_assoc.
    reflexivity.
Qed.

Lemma get_current_value_transport_failure_witness :
  exists w',
    get_current_value (sample_env failing_source)
      (rds_metric sample_args "CPUUtilization" "Maximum") initial_world
    = (Raise (SystemExit 3), w') /\
    metric_calls w' = 1%nat.
Proof.
  destruct (get_current_value_transport_failure (sample_env failing_source)
              (rds_metric sample_args "CPUUtilization" "Maximum")
              [("DBInstanceIdentifier", "mydb")] 0 "Rate exceeded" initial_world)
    as [w' [H1 [H2 _]]].
  - reflexivity.
  - lia.
  - left. reflexivity.
  - intros k Hk. lia.
  - reflexivity.
  - exists w'. split; [exact H1 | exact H2].
Defined.

(** X18: A run whose first CloudWatch call fails: the metadata having been
    fetched, the run prints the diagnostic line and exits with status 3
    without sampling the other metrics. *)
Theorem metric_transport_failure_aborts_run
  (env : collaborators) (str_float : Q -> string) (args : Args)
  (inst : DbInstance) (mc : Z) (dims : list (string * string))
  (w0 : world) (msg : string) :
  DbInstance_init env (region args) (instance args) initial_world = (Ok inst, w0) ->
  max_connections inst = Ok mc ->
  get_dimensions (rds_metric args "DatabaseConnections" "Minimum") = Ok dims ->
  get_metric_statistics env (metric_calls w0) = TransportFailure msg ->
  run env str_float args
  = (Raise (SystemExit 3),
     {| trace := trace w0 ++
                   [GetMetricStatistics "DatabaseConnections" dims 5 0 300 "Minimum";
                    Stdout ("UNKNOWN - " ++ msg)];
        metric_calls := S (metric_calls w0) |}) /\
  exit_status (fst (run env str_float args)) = state_code STATE_UNKNOWN.
Proof.
  intros H0 Hmc Hdims Hfail.
  assert (R : run env str_float args
              = (Raise (SystemExit 3),
                 {| trace := trace w0 ++
                      [GetMetricStatistics "DatabaseConnections" dims 5 0 300
                         "Minimum";
                       Stdout ("UNKNOWN - " ++ msg)];
                    metric_calls := S (metric_calls w0) |})).
  { unfold run, main. cbv zeta.
    erewrite bind_raise; [reflexivity|].
    unfold unused_connections.
    erewrite bind_ok by exact H0. cbv zeta.
    erewrite bind_ok by (unfold lift; rewrite Hmc; reflexivity).
    erewrite bind_raise; [reflexivity|].
    rewrite (metric_transport_failure_exits_unknown env _ dims w0 msg Hdims Hfail).
    cbn [after_call trace rds_metric name minutes statistics state_code].
    rewrite <- app_assoc. reflexivity. }
  rewrite R. split; reflexivity.
Qed.

Lemma metric_transport_failure_aborts_run_witness :
  fst (run (sample_env failing_source) sample_str_float sample_args)
    = Raise (SystemExit 3) /\
  exit_status (fst (run (sample_env failing_source) sample_str_float sample_args))
    = 3.
Proof.
  edestruct (metric_transport_failure_aborts_run (sample_env failing_source)
               sample_str_float sample_args) as [H1 H2].
  - reflexivity.
  - reflexivity.
  - reflexivity.
  - reflexivity.
  - rewrite H1. split; reflexivity.
Defined.

Lemma main_completes_witness :
  run (sample_env healthy_source) sample_str_float sample_args
  = (Raise (SystemExit 0),
     {| trace :=
          [DescribeDbInstances "eu-central-1" "mydb";
           DescribeDbParameters "eu-central-1" "default.mysql8.0";
           DescribeInstanceTypes "t3.micro";
           GetMetricStatistics "DatabaseConnections"
             [("DBInstanceIdentifier", "mydb")] 5 0 300 "Minimum";
           DescribeDbInstances "eu-central-1" "mydb";
           DescribeDbParameters "eu-central-1" "default.mysql8.0";
           DescribeInstanceTypes "t3.micro";
           GetMetricStatistics "FreeStorageSpace"
             [("DBInstanceIdentifier", "mydb")] 5 0 300 "Minimum";
           GetMetricStatistics "CPUUtilization"
             [("DBInstanceIdentifier", "mydb")] 5 0 300 "Maximum";
           Stdout "OK: free_connections:35/1, free_storage:1953125/1024 MiB, cpu_used:12/1%"];
        metric_calls := 3 |}).
Proof.
  etransitivity.
  - eapply (main_completes (sample_env healthy_source) sample_str_float sample_args);
      vm_compute; reflexivity.
  - vm_compute. reflexivity.
Defined.

(* ===================================================================== *)
(** ** The values of the metrics *)
(* ===================================================================== *)

(** [float(n)] of an [int] of at most 53 bits is [n]. *)
Lemma float_of_int_exact (n : Z) :
  Z.abs n <= 2 ^ 53 -> float_of_int n = Ok (Fin (inject_Z n)).
Proof. intros H. unfold float_of_int. now rewrite (round_float_int n H). Qed.

(** The difference of two integers of at most 53 bits, itself of at most 53
    bits, is computed exactly. *)
Lemma float_sub_int (a b : Z) :
  Z.abs (a - b) <= 2 ^ 53 ->
  float_sub (Fin (inject_Z a)) (Fin (inject_Z b)) = Fin (inject_Z (a - b)).
Proof.
  intros H. unfold float_sub, float_neg, inject_Z. cbn [Qnum].
  destruct (Z.eqb_spec b 0) as [->|N].
  - cbn [float_add]. now rewrite Z.sub_0_r.
  - cbn [float_add]. change (a - b # 1) with (inject_Z (a - b)).
    rewrite <- (round_float_int (a - b) H).
    unfold round_float, Qplus, Qopp, inject_Z. cbn [Qnum Qden Pos.mul].
    now replace (a * 1 + - b * 1) with (a - b) by lia.
Qed.

(** X22: The value of the connections metric for a present sample: the
    connection limit converted to a float, minus the sample, the difference
    rounded to the nearest float; with [--percent] that headroom divided by
    the limit and multiplied by 100, each operation rounded.  A limit beyond
    the float range is an [OverflowError]; with [--percent] a limit of 0 is
    a [ZeroDivisionError].  A limit of at most 53 bits is converted exactly,
    and the headroom over a sample that is an integer is then the exact
    difference.  With a limit of 100 and a sample of 43 the percentage is
    56.99999999999999, below the threshold ["57:"]: the run exits with
    WARNING. *)
Theorem unused_connections_value
  (env : collaborators) (args : Args) (inst : DbInstance) (mc : Z) (x : Q)
  (w w0 w1 : world) :
  DbInstance_init env (region args) (instance args) w = (Ok inst, w0) ->
  max_connections inst = Ok mc ->
  get_current_value env (rds_metric args "DatabaseConnections" "Minimum") w0
    = (Ok (Some x), w1) ->
  unused_connections env args w
  = ((limit <- float_of_int mc ;;
      if percent args then
        ratio <- float_truediv (float_sub limit (Fin x)) limit ;;
        Ok (Some (float_mul ratio (Fin 100)))
      else Ok (Some (float_sub limit (Fin x))))%result,
     w1) /\
  (Z.abs mc <= 2 ^ 53 -> float_of_int mc = Ok (Fin (inject_Z mc))) /\
  (forall k : Z,
     x = inject_Z k -> Z.abs mc <= 2 ^ 53 -> Z.abs (mc - k) <= 2 ^ 53 ->
     percent args = false ->
     unused_connections env args w = (Ok (Some (Fin (inject_Z (mc - k)))), w1)) /\
  (mc = 0 -> percent args = true ->
   unused_connections env args w = (Raise ZeroDivisionError, w1)) /\
  fst (unused_connections small_env percent_args initial_world)
    = Ok (Some (Fin (8022036836253695 # 140737488355328))) /\
  compare (Fin (8022036836253695 # 140737488355328)) (PyStr "57:") (PyStr "5:")
    = Ok STATE_WARN /\
  exit_status (fst (run small_env sample_str_float percent_args))
    = state_code STATE_WARN.
Proof.
  intros H0 Hmc H1.
  assert (E : unused_connections env args w
              = ((limit <- float_of_int mc ;;
                  if percent args then
                    ratio <- float_truediv (float_sub limit (Fin x)) limit ;;
                    Ok (Some (float_mul ratio (Fin 100)))
                  else Ok (Some (float_sub limit (Fin x))))%result,
                 w1)).
  { unfold unused_connections.
    erewrite bind_ok by exact H0. cbv zeta.
    erewrite bind_ok by (unfold lift; rewrite Hmc; reflexivity).
    erewrite bind_ok by exact H1.
    unfold bind at 1, lift at 1, sub_sample.
    destruct (float_of_int mc) as [limit|e] eqn:El; cbn [rbind]; [|reflexivity].
    destruct (percent args); [|reflexivity].
    erewrite bind_ok by (unfold lift; rewrite Hmc; reflexivity).
    unfold bind, lift, ret, div_sample. rewrite El. cbn [rbind].
    destruct (float_truediv _ limit); reflexivity. }
  split; [exact E|]. split; [apply float_of_int_exact|].
  split; [|split; [|split; [|split]; vm_compute; reflexivity]].
  - intros k -> Hsmall Hdiff Hp.
    rewrite E, Hp, (float_of_int_exact mc Hsmall). cbn [rbind].
    now rewrite (float_sub_int mc k Hdiff).
  - intros -> Hp. rewrite E, Hp. cbn [float_of_int rbind].
    change (float_of_int 0) with (Ok (Fin 0)). cbn [rbind].
    unfold float_truediv. cbn [float_is_zero Qnum Z.eqb]. reflexivity.
Qed.

Lemma unused_connections_value_witness :
  unused_connections small_env percent_args initial_world
  = (Ok (Some (Fin (8022036836253695 # 140737488355328))),
     after_call (rds_metric percent_args "DatabaseConnections" "Minimum")
       [("DBInstanceIdentifier", "mydb")] 0
       (snd (DbInstance_init small_env "eu-central-1" "mydb" initial_world))).
Proof.
  destruct (unused_connections_value small_env percent_args small_db 100 43
              initial_world
              (snd (DbInstance_init small_env "eu-central-1" "mydb" initial_world))
              (after_call (rds_metric percent_args "DatabaseConnections" "Minimum")
                 [("DBInstanceIdentifier", "mydb")] 0
                 (snd (DbInstance_init small_env "eu-central-1" "mydb"
                         initial_world))))
    as [H _]; [reflexivity | reflexivity | reflexivity |].
  rewrite H. vm_compute. reflexivity.
Defined.

(** X23: The value of the storage metric for a present sample: the sample in
    bytes, or with [--percent] the sample divided by the allocated storage
    in bytes, converted to a float, and multiplied by 100, each operation
    rounded.  With [--percent] an allocated storage of 0 is a
    [ZeroDivisionError]; an allocated storage of at most [2 ^ 23] GiB is
    converted exactly.  With 12345678901 bytes free of 20 GiB the percentage
    is 57.48904729727655. *)
Theorem free_storage_value
  (env : collaborators) (args : Args) (inst : DbInstance) (x : Q)
  (w w0 w1 : world) :
  DbInstance_init env (region args) (instance args) w = (Ok inst, w0) ->
  get_current_value env (rds_metric args "FreeStorageSpace" "Minimum") w0
    = (Ok (Some x), w1) ->
  free_storage env args w
  = (if percent args then
       (allocated <- float_of_int (AllocatedStorage (data inst)
                                   * 1024 * 1024 * 1024) ;;
        ratio <- float_truediv (Fin x) allocated ;;
        Ok (Some (float_mul ratio (Fin 100))))%result
     else Ok (Some (Fin x)),
     w1) /\
  (AllocatedStorage (data inst) = 0 -> percent args = true ->
   free_storage env args w = (Raise ZeroDivisionError, w1)) /\
  (Z.abs (AllocatedStorage (data inst)) <= 2 ^ 23 ->
   float_of_int (AllocatedStorage (data inst) * 1024 * 1024 * 1024)
   = Ok (Fin (inject_Z (AllocatedStorage (data inst) * 1024 * 1024 * 1024)))) /\
  fst (free_storage small_env percent_args
         (snd (unused_connections small_env percent_args initial_world)))
    = Ok (Some (Fin (8090864124559359 # 140737488355328))).
Proof.
  intros H0 H1.
  assert (E : free_storage env args w
              = (if percent args then
                   (allocated <- float_of_int (AllocatedStorage (data inst)
                                               * 1024 * 1024 * 1024) ;;
                    ratio <- float_truediv (Fin x) allocated ;;
                    Ok (Some (float_mul ratio (Fin 100))))%result
                 else Ok (Some (Fin x)),
                 w1)).
  { unfold free_storage.
    erewrite bind_ok by exact H0. cbv zeta.
    erewrite bind_ok by exact H1.
    destruct (percent args); [|reflexivity].
    unfold bind, lift, ret, div_sample, storage. cbn [option_map].
    destruct (float_of_int _) as [allocated|e]; cbn [rbind]; [|reflexivity].
    destruct (float_truediv _ allocated); reflexivity. }
  split; [exact E|]. split; [|split; [|vm_compute; reflexivity]].
  - intros Hz Hp. rewrite E, Hp, Hz.
    change (float_of_int (0 * 1024 * 1024 * 1024)) with (Ok (Fin 0)).
    cbn [rbind]. unfold float_truediv. cbn [float_is_zero Qnum Z.eqb]. reflexivity.
  - intros Hs. apply float_of_int_exact.
    change (2 ^ 53) with (2 ^ 23 * (1024 * 1024 * 1024)). lia.
Qed.

Lemma free_storage_value_witness :
  fst (free_storage small_env percent_args
         (snd (unused_connections small_env percent_args initial_world)))
  = Ok (Some (Fin (8090864124559359 # 140737488355328))).
Proof.
  pose (w1 := snd (unused_connections small_env percent_args initial_world)).
  destruct (free_storage_value small_env percent_args small_db 12345678901
              w1
              (snd (DbInstance_init small_env "eu-central-1" "mydb" w1))
              (after_call (rds_metric percent_args "FreeStorageSpace" "Minimum")
                 [("DBInstanceIdentifier", "mydb")] 0
                 (snd (DbInstance_init small_env "eu-central-1" "mydb" w1))))
    as [H _]; [reflexivity | reflexivity |].
  fold w1. rewrite H. vm_compute. reflexivity.
Defined.

(* ===================================================================== *)
(** ** Expanding twice *)
(* ===================================================================== *)

Lemma str_split_join (c : ascii) (parts : list string) :
  parts <> [] ->
  (forall p, In p parts -> str_contains c p = false) ->
  str_split c (str_join (String c "") parts) = parts.
Proof.
  unfold str_join. induction parts as [|p parts IH]; intros Hne Hparts; [congruence|].
  destruct parts as [|q rest].
  - cbn [String.concat]. apply str_split_nosep. apply Hparts. now left.
  - change (String.concat (String c "") (p :: q :: rest))
      with (p ++ String c (String.concat (String c "") (q :: rest))).
    rewrite str_split_app by (apply Hparts; now left).
    rewrite IH; [reflexivity | discriminate |].
    intros x Hx. apply Hparts. now right.
Qed.

Lemma str_last_in (s : string) (c : ascii) :
  str_last s = Some c -> In c (list_ascii_of_string s).
Proof.
  induction s as [|a s IH]; cbn [str_last list_ascii_of_string]; [discriminate|].
  destruct s as [|b s].
  - intros [= ->]. now left.
  - intros H. right. exact (IH H).
Qed.

(** The decimal string of an integer ends with no unit suffix. *)
Lemma str_of_int_no_unit (z : Z) : matched_unit (str_of_int z) = None.
Proof.
  assert (Hchars : forall a, In a (list_ascii_of_string (str_of_int z)) ->
                             is_digit a = true \/ a = "-"%char).
  { destruct (str_of_int_chars z) as [c [r [Hd [_ ->]]]].
    intros a Ha.
    destruct (Z.ltb z 0); [destruct Ha as [<-|Ha]; [now right|]|];
      left; exact (proj1 (Forall_forall _ _) Hd a Ha). }
  assert (Hend : forall suffix a,
             str_last suffix = Some a -> is_digit a = false -> a <> "-"%char ->
             str_endswith (str_of_int z) suffix = false).
  { intros suffix a Hl Hda Hm.
    destruct (str_endswith (str_of_int z) suffix) eqn:E; [|reflexivity].
    apply str_endswith_last in E; [|intros ->; discriminate].
    rewrite Hl in E. apply str_last_in in E.
    destruct (Hchars a E); congruence. }
  unfold matched_unit, unit_table. cbn [find fst].
  rewrite (Hend "K" "K"%char), (Hend "Ki" "i"%char), (Hend "M" "M"%char),
    (Hend "Mi" "i"%char), (Hend "G" "G"%char), (Hend "Gi" "i"%char);
    (reflexivity || discriminate).
Qed.

Lemma expand_token_result (token : string) (v : pyval) :
  str_contains ":" token = false ->
  expand_token token = Ok v ->
  str_contains ":" (py_str v) = false /\ matched_unit (py_str v) = None.
Proof.
  intros Hc. unfold expand_token.
  destruct (matched_unit token) as [[suffix factor]|] eqn:E.
  - destruct (py_int _) as [n|]; cbn [rbind]; [|discriminate].
    intros [= <-]. cbn [py_str].
    split; [apply str_of_int_no_colon | apply str_of_int_no_unit].
  - intros [= <-]. cbn [py_str]. split; assumption.
Qed.

Lemma rmap_results {A B} (f : A -> result B) (l : list A) (bs : list B) :
  rmap f l = Ok bs -> Forall2 (fun a b => f a = Ok b) l bs.
Proof.
  revert bs. induction l as [|a l IH]; intros bs; cbn [rmap].
  - intros [= <-]. constructor.
  - destruct (f a) as [b|] eqn:E; cbn [rbind]; [|discriminate].
    destruct (rmap f l) as [bs'|]; cbn [rbind]; [|discriminate].
    intros [= <-]. constructor; [exact E | now apply IH].
Qed.

Lemma rmap_fixed {A} (f : A -> result A) (l : list A) :
  (forall a, In a l -> f a = Ok a) -> rmap f l = Ok l.
Proof.
  induction l as [|a l IH]; intros H; [reflexivity|].
  cbn [rmap]. rewrite (H a (or_introl eq_refl)). cbn [rbind].
  rewrite IH; [reflexivity|]. intros x Hx. apply H. now right.
Qed.

Lemma Forall2_in_right {A B} (P : A -> B -> Prop) (l : list A) (bs : list B) (b : B) :
  Forall2 P l bs -> In b bs -> exists a, In a l /\ P a b.
Proof.
  induction 1 as [|a b' l bs Hab _ IH]; [intros []|].
  intros [<-|Hb].
  - exists a. split; [now left | exact Hab].
  - destruct (IH Hb) as [x [Hx Hp]]. exists x. split; [now right | exact Hp].
Qed.

(** X8: Expanding a value that has been expanded changes nothing: when
    [expand_unit] returns, applying it to the text of its result gives that
    text back. *)
Theorem expand_unit_twice (value : string) (v : pyval) :
  expand_unit value = Ok v ->
  expand_unit (py_str v) = Ok (PyStr (py_str v)).
Proof.
  intros H.
  assert (Hfix : forall p, str_contains ":" p = false -> matched_unit p = None ->
                           expand_unit p = Ok (PyStr p)).
  { intros p Hc Hm. rewrite expand_unit_token by exact Hc.
    unfold expand_token. now rewrite Hm. }
  destruct (str_contains ":" value) eqn:E.
  - rewrite expand_unit_colon in H by exact E.
    destruct (rmap _ (str_split ":" value)) as [parts|] eqn:R;
      cbn [rbind] in H; [|discriminate].
    injection H as <-. cbn [py_str].
    apply rmap_results in R.
    assert (Hparts : forall p, In p parts ->
                       str_contains ":" p = false /\ matched_unit p = None).
    { intros p Hp.
      destruct (Forall2_in_right _ _ _ _ R Hp) as [t [Ht Hexp]].
      apply str_split_pieces in Ht.
      rewrite expand_unit_token in Hexp by exact Ht.
      destruct (expand_token t) as [x|] eqn:Ex; cbn [rbind] in Hexp;
        [|discriminate].
      injection Hexp as <-. now apply (expand_token_result t x Ht). }
    destruct (str_split_two _ _ E) as [t1 [t2 [ts Hsplit]]].
    rewrite Hsplit in R.
    destruct parts as [|p1 [|p2 ps]];
      [inversion R | inversion R as [|? ? ? ? _ R']; inversion R' |].
    assert (Hcolon : str_contains ":" (str_join ":" (p1 :: p2 :: ps)) = true).
    { change (str_join ":" (p1 :: p2 :: ps))
        with (p1 ++ String ":" (str_join ":" (p2 :: ps))).
      apply str_contains_app. }
    rewrite expand_unit_colon by exact Hcolon.
    rewrite str_split_join;
      [| discriminate | intros x Hx; exact (proj1 (Hparts x Hx))].
    rewrite rmap_fixed; [reflexivity|].
    intros x Hx. destruct (Hparts x Hx) as [Hc Hm].
    now rewrite (Hfix x Hc Hm).
  - rewrite expand_unit_token in H by exact E.
    destruct (expand_token_result value v E H) as [Hc Hm].
    now apply Hfix.
Qed.

Lemma expand_unit_twice_witness :
  expand_unit (py_str (PyStr "1048576000:")) = Ok (PyStr (py_str (PyStr "1048576000:"))).
Proof.
  apply (expand_unit_twice "1000Mi:" (PyStr "1048576000:")).
  vm_compute. reflexivity.
Defined.

(* ===================================================================== *)
(** ** Malformed thresholds *)
(* ===================================================================== *)

Lemma float_of_str_raises (s : string) (e : exn) :
  float_of_str s = Raise e -> e = ValueError.
Proof.
  unfold float_of_str. destruct (take_sign _) as [neg body].
  destruct (parse_absfloat body); [discriminate | congruence].
Qed.

(** [bound] fails exactly on a string that is neither ['~'] nor a number. *)
Lemma bound_fails_iff (s : string) :
  bound (PyStr s) = Raise ValueError <-> String.eqb s "~" || numeric s = false.
Proof.
  unfold bound, is_tilde, numeric, py_float.
  destruct (String.eqb s "~"); cbn [orb]; [split; discriminate|].
  destruct (float_of_str s) as [x|e] eqn:E; cbn [rbind]; [split; discriminate|].
  rewrite (float_of_str_raises _ _ E). split; reflexivity.
Qed.

Lemma bound_raise_not_numeric (s : string) (e : exn) :
  bound (PyStr s) = Raise e -> String.eqb s "~" || numeric s = false.
Proof.
  intros H. apply bound_fails_iff. now rewrite H, (bound_raises _ _ H).
Qed.

(** The strings [compare_range] fails to read are the malformed ones, for
    every value. *)
Lemma malformed_iff_rejected (v : pyfloat) (threshold : string) :
  malformed threshold = true <->
  exists e, compare_range v (PyStr threshold) = Raise e.
Proof.
  destruct threshold as [|c rest].
  { split; [intros _; now exists IndexError | intros _; reflexivity]. }
  unfold malformed. cbn [compare_range].
  set (window := if Ascii.eqb c "@" then rest else String c rest).
  unfold range_bits. destruct (str_contains ":" window) eqn:Ec; cbn [negb].
  - destruct (str_split_two ":" window Ec) as [a [b [l Hs]]]. rewrite Hs.
    cbn [list_index nth_error rbind fst snd].
    destruct (String.eqb b "") eqn:Eb.
    + apply String.eqb_eq in Eb. subst b.
      change (bound (PyStr "~")) with (@Ok (option pyfloat) None).
      cbn [String.eqb orb negb]. rewrite orb_false_r.
      destruct (bound (PyStr a)) as [lo|e] eqn:Ea; cbn [rbind].
      * rewrite rejection_tests. split.
        -- intros H. apply negb_true_iff, bound_fails_iff in H. congruence.
        -- intros [e He]. discriminate.
      * split; [intros _; now exists e|]. intros _.
        now rewrite (bound_raise_not_numeric _ _ Ea).
    + destruct (bound (PyStr a)) as [lo|e] eqn:Ea; cbn [rbind].
      * assert (Ha : String.eqb a "~" || numeric a = true).
        { destruct (String.eqb a "~" || numeric a) eqn:E; [reflexivity|].
          apply bound_fails_iff in E. congruence. }
        rewrite Ha. cbn [negb orb].
        replace (String.eqb b "~" || false || numeric b)
          with (String.eqb b "~" || numeric b)
          by (destruct (String.eqb b "~"); reflexivity).
        destruct (bound (PyStr b)) as [hi|e] eqn:Ehi; cbn [rbind].
        -- rewrite rejection_tests. split.
           ++ intros H. apply negb_true_iff, bound_fails_iff in H. congruence.
           ++ intros [e He]. discriminate.
        -- split; [intros _; now exists e|]. intros _.
           now rewrite (bound_raise_not_numeric _ _ Ehi).
      * split; [intros _; now exists e|]. intros _.
        now rewrite (bound_raise_not_numeric _ _ Ea).
  - rewrite (str_split_nosep _ _ Ec). cbn [rbind fst snd].
    change (bound (PyInt 0)) with (@Ok (option pyfloat) (Some (Fin 0))).
    cbn [rbind].
    destruct (bound (PyStr window)) as [hi|e] eqn:Ehi; cbn [rbind].
    + rewrite rejection_tests. split.
      * intros H. apply negb_true_iff, bound_fails_iff in H. congruence.
      * intros [e He]. discriminate.
    + split; [intros _; now exists e|]. intros _.
      now rewrite (bound_raise_not_numeric _ _ Ehi).
Qed.

(** What [expand_unit] gives, by the unit expansion of the specification:
    the same text, as an [int] or a [str], or a failure where there is no
    expansion. *)
Lemma expand_unit_text (threshold : string) :
  match expand_unit threshold with
  | Ok x => expand_text threshold = Some (py_str x)
  | Raise _ => expand_text threshold = None
  end.
Proof.
  unfold expand_text. destruct (str_contains ":" threshold) eqn:Ec.
  - unfold expand_unit.
    rewrite expand_unit_rec_stable by (unfold recursion_limit; lia).
    rewrite expand_unit_rec_colon by exact Ec.
    destruct (rmap _ (str_split ":" threshold)); reflexivity.
  - rewrite (expand_unit_token _ Ec), (str_split_nosep _ _ Ec).
    cbn [rmap]. destruct (expand_token threshold); reflexivity.
Qed.

(** A malformed disk threshold cannot be compared with: expanding it fails,
    or reading its expansion does. *)
Lemma malformed_disk_rejected (v : pyfloat) (threshold : string) :
  malformed_disk threshold = true ->
  match expand_unit threshold with
  | Ok x => exists e, compare_range v x = Raise e
  | Raise _ => True
  end.
Proof.
  unfold malformed_disk. pose proof (expand_unit_text threshold) as T.
  destruct (expand_unit threshold) as [[n|s]|e]; [| |trivial]; rewrite T.
  - intros _. now exists TypeError.
  - cbn [py_str]. intros H. now apply malformed_iff_rejected.
Qed.

(** [compare] fails when the critical threshold cannot be read, and when
    the warning threshold cannot be read unless the critical range rejects
    the value. *)
Lemma compare_fails (v : pyfloat) (warn crit : pyval) :
  (exists e, compare_range v crit = Raise e) \/
  ((exists e, compare_range v warn = Raise e) /\ compare_range v crit <> Ok false) ->
  exists e, compare v warn crit = Raise e.
Proof.
  unfold compare. intros [[e H]|[[e H] Hc]].
  - rewrite H. now exists e.
  - destruct (compare_range v crit) as [[|]|e']; cbn [rbind negb];
      [rewrite H; now exists e | congruence | now exists e'].
Qed.

Lemma free_storage_calls (env : collaborators) (args : Args)
  (w w' : world) (x : option pyfloat) :
  free_storage env args w = (Ok x, w') ->
  (metric_calls w < metric_calls w')%nat.
Proof.
  unfold free_storage. intros H. unfold bind at 1 in H.
  destruct (DbInstance_init env (region args) (instance args) w)
    as [[inst|e] w0] eqn:E0; [|discriminate].
  apply DbInstance_init_calls_kept in E0. rewrite <- E0. cbv zeta in H.
  unfold bind at 1 in H.
  destruct (get_current_value env _ w0) as [[cur|e] w1] eqn:E1; [|discriminate].
  apply get_current_value_calls in E1.
  assert (Hk : metric_calls w' = metric_calls w1); [|lia].
  match type of H with
  | ?m w1 = _ => assert (K : calls_kept m)
  end.
  { destruct (percent args); calls_kept_steps. }
  exact (K _ _ _ H).
Qed.

Lemma cpu_used_calls (env : collaborators) (args : Args)
  (w w' : world) (x : option pyfloat) :
  cpu_used env args w = (Ok x, w') ->
  (metric_calls w < metric_calls w')%nat.
Proof.
  unfold cpu_used. intros H. unfold bind at 1 in H.
  destruct (get_current_value env _ w) as [[cur|e] w1] eqn:E1; [|discriminate].
  apply get_current_value_calls in E1. inversion H. subst. exact E1.
Qed.

(** Counterexample to C6 as stated, on a run with a malformed critical
    connections threshold: the threshold is read only after the
    metadata lookups and one CloudWatch call, and the run ends with an
    uncaught [ValueError], exit status 1, not with UNKNOWN.  And a malformed
    threshold that is not read does not surface at all: the run is completed
    with a malformed warning threshold when the critical range rejects the
    value, and with malformed CPU thresholds when the CPU sample is absent. *)
Lemma malformed_threshold_not_checked_first :
  malformed (crit_conns args_bad_crit_conns) = true /\
  compare_range (Fin 35) (PyStr (crit_conns args_bad_crit_conns))
    = Raise ValueError /\
  run (sample_env (fun _ => Answer [50%Q])) sample_str_float args_bad_crit_conns
  = (Raise ValueError,
     {| trace :=
          [DescribeDbInstances "eu-central-1" "mydb";
           DescribeDbParameters "eu-central-1" "default.mysql8.0";
           DescribeInstanceTypes "t3.micro";
           GetMetricStatistics "DatabaseConnections"
             [("DBInstanceIdentifier", "mydb")] 5 0 300 "Minimum"];
        metric_calls := 1 |}) /\
  exit_status (fst (run (sample_env (fun _ => Answer [50%Q])) sample_str_float
                        args_bad_crit_conns)) <> state_code STATE_UNKNOWN /\
  malformed (warn_conns args_bad_warn_conns) = true /\
  (exists w,
     run (sample_env healthy_source) sample_str_float args_bad_warn_conns
     = (Raise (SystemExit (state_code STATE_CRIT)), w) /\
     last (trace w) (Stdout "")
     = Stdout "CRITICAL: free_connections:35/1, free_storage:1953125/1024 MiB, cpu_used:12/1%") /\
  malformed (warn_cpu args_bad_cpu) = true /\
  malformed (crit_cpu args_bad_cpu) = true /\
  (exists w,
     run (sample_env no_cpu_source) sample_str_float args_bad_cpu
     = (Raise (SystemExit (state_code STATE_UNKNOWN)), w) /\
     last (trace w) (Stdout "")
     = Stdout "UNKNOWN: free_connections:35/1, free_storage:1953125/1024 MiB, cpu_used:None%").
Proof.
  repeat split; try (vm_compute; reflexivity); try (vm_compute; discriminate);
    eexists; split; vm_compute; reflexivity.
Qed.

(** A threshold of more than two parts is not malformed in this sense: its
    first two parts are read, and the run is completed. *)
Lemma threshold_of_three_parts_is_read :
  malformed (crit_conns args_three_parts) = false /\
  compare_range (Fin 35) (PyStr (crit_conns args_three_parts)) = Ok true /\
  exists w,
    run (sample_env healthy_source) sample_str_float args_three_parts
    = (Raise (SystemExit (state_code STATE_OK)), w) /\
    last (trace w) (Stdout "")
    = Stdout "OK: free_connections:35/1, free_storage:1953125/1024 MiB, cpu_used:12/1%".
Proof.
  split; [vm_compute; reflexivity|]. split; [vm_compute; reflexivity|].
  eexists. split; vm_compute; reflexivity.
Qed.

(** C6, amended: no threshold is read before the first metric has been
    sampled, however malformed; the first sampling is the same whatever the
    thresholds are.  A threshold is read when a sample of its metric is
    present and is compared with it, the critical threshold first and the
    warning threshold unless the critical range rejects the value.  Reading
    a malformed threshold fails, and the run ends there with that failure:
    after the metadata lookups and the sampling of that metric, before any
    further metric is sampled and before a summary is printed.  This holds
    for each of the six thresholds; a disk threshold is read through its
    unit expansion. *)
Theorem malformed_threshold_surfaces_after_sampling
  (env : collaborators) (str_float : Q -> string) (args : Args) :
  (forall args', same_target args args' ->
     unused_connections env args' = unused_connections env args) /\
  (forall (v : pyfloat) (w1 : world),
     unused_connections env args initial_world = (Ok (Some v), w1) ->
     malformed (crit_conns args) = true \/
     (malformed (warn_conns args) = true /\
      compare_range v (PyStr (crit_conns args)) <> Ok false) ->
     (exists e,
        compare v (PyStr (warn_conns args)) (PyStr (crit_conns args)) = Raise e /\
        run env str_float args = (Raise e, w1)) /\
     (1 <= metric_calls w1)%nat) /\
  (forall (v1 : option pyfloat) (st1 : state) (v : pyfloat) (w1 w2 : world),
     unused_connections env args initial_world = (Ok v1, w1) ->
     match v1 with
     | None => Ok STATE_UNKNOWN
     | Some x => compare x (PyStr (warn_conns args)) (PyStr (crit_conns args))
     end = Ok st1 ->
     free_storage env args w1 = (Ok (Some v), w2) ->
     malformed_disk (crit_disk args) = true \/
     (malformed_disk (warn_disk args) = true /\
      forall crit, expand_unit (crit_disk args) = Ok crit ->
                   compare_range v crit <> Ok false) ->
     (exists e,
        (warn <- expand_unit (warn_disk args) ;;
         crit <- expand_unit (crit_disk args) ;;
         compare v warn crit)%result = Raise e /\
        run env str_float args = (Raise e, w2)) /\
     (2 <= metric_calls w2)%nat) /\
  (forall (v1 v2 shown : option pyfloat) (st1 st2 : state) (v : pyfloat)
          (w1 w2 w3 : world),
     unused_connections env args initial_world = (Ok v1, w1) ->
     match v1 with
     | None => Ok STATE_UNKNOWN
     | Some x => compare x (PyStr (warn_conns args)) (PyStr (crit_conns args))
     end = Ok st1 ->
     free_storage env args w1 = (Ok v2, w2) ->
     match v2 with
     | None => Ok STATE_UNKNOWN
     | Some x =>
         (warn <- expand_unit (warn_disk args) ;;
          crit <- expand_unit (crit_disk args) ;;
          compare x warn crit)%result
     end = Ok st2 ->
     (if percent args then Ok v2
      else (x <- div_sample v2 1024 ;;
            y <- div_sample (Some x) 1024 ;;
            Ok (Some y))%result) = Ok shown ->
     cpu_used env args w2 = (Ok (Some v), w3) ->
     malformed (crit_cpu args) = true \/
     (malformed (warn_cpu args) = true /\
      compare_range v (PyStr (crit_cpu args)) <> Ok false) ->
     (exists e,
        compare v (PyStr (warn_cpu args)) (PyStr (crit_cpu args)) = Raise e /\
        run env str_float args = (Raise e, w3)) /\
     (3 <= metric_calls w3)%nat).
Proof.
  split; [|split; [|split]].
  - intros args' (Hi & Hr & Hl & Hp).
    unfold unused_connections, rds_metric. now rewrite Hi, Hr, Hl, Hp.
  - intros v w1 H1 Hbad.
    assert (F : exists e, compare v (PyStr (warn_conns args)) (PyStr (crit_conns args))
                          = Raise e).
    { apply compare_fails. destruct Hbad as [Hc|[Hw Hc]].
      - left. now apply malformed_iff_rejected.
      - right. split; [now apply malformed_iff_rejected | exact Hc]. }
    destruct F as [e He]. split.
    + exists e. split; [exact He|]. unfold run, main. cbv zeta.
      erewrite bind_ok by exact H1.
      erewrite bind_raise; [reflexivity|].
      unfold lift. now rewrite He.
    + apply unused_connections_calls in H1.
      cbn [initial_world metric_calls] in H1. lia.
  - intros v1 st1 v w1 w2 H1 Hst1 H2 Hbad.
    assert (F : exists e, (warn <- expand_unit (warn_disk args) ;;
                           crit <- expand_unit (crit_disk args) ;;
                           compare v warn crit)%result = Raise e).
    { destruct (expand_unit (warn_disk args)) as [warn|e] eqn:Ew; cbn [rbind];
        [|now exists e].
      destruct (expand_unit (crit_disk args)) as [crit|e] eqn:Ec; cbn [rbind];
        [|now exists e].
      apply compare_fails. destruct Hbad as [Hc|[Hw Hc]].
      - left. pose proof (malformed_disk_rejected v _ Hc) as R.
        now rewrite Ec in R.
      - right. split; [|exact (Hc crit eq_refl)].
        pose proof (malformed_disk_rejected v _ Hw) as R.
        now rewrite Ew in R. }
    destruct F as [e He]. split.
    + exists e. split; [exact He|]. unfold run, main. cbv zeta.
      erewrite bind_ok by exact H1.
      erewrite bind_ok by (unfold lift; rewrite Hst1; reflexivity).
      erewrite bind_ok by exact H2.
      erewrite bind_raise; [reflexivity|].
      unfold lift. now rewrite He.
    + apply unused_connections_calls in H1. apply free_storage_calls in H2.
      cbn [initial_world metric_calls] in H1. lia.
  - intros v1 v2 shown st1 st2 v w1 w2 w3 H1 Hst1 H2 Hst2 Hshown H3 Hbad.
    assert (F : exists e, compare v (PyStr (warn_cpu args)) (PyStr (crit_cpu args))
                          = Raise e).
    { apply compare_fails. destruct Hbad as [Hc|[Hw Hc]].
      - left. now apply malformed_iff_rejected.
      - right. split; [now apply malformed_iff_rejected | exact Hc]. }
    destruct F as [e He]. split.
    + exists e. split; [exact He|]. unfold run, main. cbv zeta.
      erewrite bind_ok by exact H1.
      erewrite bind_ok by (unfold lift; rewrite Hst1; reflexivity).
      erewrite bind_ok by exact H2.
      erewrite bind_ok by (unfold lift; rewrite Hst2; reflexivity).
      erewrite bind_ok by (unfold lift; rewrite Hshown; reflexivity).
      erewrite bind_ok by exact H3.
      erewrite bind_raise; [reflexivity|].
      unfold lift. now rewrite He.
    + apply unused_connections_calls in H1. apply free_storage_calls in H2.
      apply cpu_used_calls in H3.
      cbn [initial_world metric_calls] in H1. lia.
Qed.

Lemma malformed_threshold_surfaces_after_sampling_witness :
  (exists e,
     fst (run (sample_env healthy_source) sample_str_float args_bad_crit_conns)
     = Raise e) /\
  (exists e,
     fst (run (sample_env healthy_source) sample_str_float args_bad_warn_disk)
     = Raise e) /\
  (exists e,
     fst (run (sample_env healthy_source) sample_str_float args_bad_cpu)
     = Raise e).
Proof.
  split; [|split].
  - destruct (malformed_threshold_surfaces_after_sampling
                (sample_env healthy_source) sample_str_float args_bad_crit_conns)
      as [_ [H _]].
    edestruct H as [[e [_ He]] _].
    + vm_compute. reflexivity.
    + left. vm_compute. reflexivity.
    + exists e. now rewrite He.
  - destruct (malformed_threshold_surfaces_after_sampling
                (sample_env healthy_source) sample_str_float args_bad_warn_disk)
      as [_ [_ [H _]]].
    edestruct H as [[e [_ He]] _].
    + vm_compute. reflexivity.
    + vm_compute. reflexivity.
    + vm_compute. reflexivity.
    + right. split; [vm_compute; reflexivity|].
      intros crit Hc. vm_compute in Hc. injection Hc as <-.
      vm_compute. discriminate.
    + exists e. now rewrite He.
  - destruct (malformed_threshold_surfaces_after_sampling
                (sample_env healthy_source) sample_str_float args_bad_cpu)
      as [_ [_ [_ H]]].
    edestruct H as [[e [_ He]] _].
    + vm_compute. reflexivity.
    + vm_compute. reflexivity.
    + vm_compute. reflexivity.
    + vm_compute. reflexivity.
    + vm_compute. reflexivity.
    + vm_compute. reflexivity.
    + left. vm_compute. reflexivity.
    + exists e. now rewrite He.
Defined.
